(** * A shallow embedding of the CHIP-8 interpreter core ([chip8/cpu.go])

    The machine state of the Go program is a struct of fixed-size arrays and
    unsigned machine integers.  Arrays are lists (stdpp lookup and insert)
    whose static Go length is recorded by the [wf] invariant; unsigned
    integers are [Z] with every wrap-around written out ([u8], [u16]).
    An index expression that leaves its array panics in Go: the embedding is
    a state monad whose second outcome, [Panic], carries the state at the
    moment of the run-time panic. *)

From Stdlib Require Import ZArith Lia Bool.
From stdpp Require Import base numbers list list_numbers.

Local Open Scope Z_scope.

(** ** Constants of the package *)

Definition MemorySize : Z := 4096.
Definition RegisterCount : Z := 16.
Definition StackSize : Z := 16.
Definition ScreenWidth : Z := 64.
Definition ScreenHeight : Z := 32.
Definition FontsetSize : Z := 80.
(** Length of the [keys] array, written [16] in the struct. *)
Definition KeyCount : Z := 16.

(** ** Unsigned machine integers *)

(** Conversion to (and wrap-around in) [uint8] and [uint16]. *)
Definition u8 (z : Z) : Z := z mod 256.
Definition u16 (z : Z) : Z := z mod 65536.

(** ** The machine state *)

Record Chip8 : Type := mkChip8 {
  memory : list Z;      (* [MemorySize]uint8 *)
  V : list Z;           (* [RegisterCount]uint8 *)
  I : Z;                (* uint16 *)
  PC : Z;               (* uint16 *)
  stack : list Z;       (* [StackSize]uint16 *)
  SP : Z;               (* uint8 *)
  delayTimer : Z;       (* uint8 *)
  soundTimer : Z;       (* uint8 *)
  display : list Z;     (* [ScreenWidth * ScreenHeight]uint8 *)
  keys : list bool;     (* [16]bool *)
  drawFlag : bool
}.

Definition set_memory (m : list Z) (c : Chip8) : Chip8 :=
  mkChip8 m (V c) (I c) (PC c) (stack c) (SP c) (delayTimer c) (soundTimer c)
          (display c) (keys c) (drawFlag c).
Definition set_V (v : list Z) (c : Chip8) : Chip8 :=
  mkChip8 (memory c) v (I c) (PC c) (stack c) (SP c) (delayTimer c)
          (soundTimer c) (display c) (keys c) (drawFlag c).
Definition set_I (i : Z) (c : Chip8) : Chip8 :=
  mkChip8 (memory c) (V c) i (PC c) (stack c) (SP c) (delayTimer c)
          (soundTimer c) (display c) (keys c) (drawFlag c).
Definition set_PC (pc : Z) (c : Chip8) : Chip8 :=
  mkChip8 (memory c) (V c) (I c) pc (stack c) (SP c) (delayTimer c)
          (soundTimer c) (display c) (keys c) (drawFlag c).
Definition set_stack (st : list Z) (c : Chip8) : Chip8 :=
  mkChip8 (memory c) (V c) (I c) (PC c) st (SP c) (delayTimer c)
          (soundTimer c) (display c) (keys c) (drawFlag c).
Definition set_SP (sp : Z) (c : Chip8) : Chip8 :=
  mkChip8 (memory c) (V c) (I c) (PC c) (stack c) sp (delayTimer c)
          (soundTimer c) (display c) (keys c) (drawFlag c).
Definition set_delayTimer (t : Z) (c : Chip8) : Chip8 :=
  mkChip8 (memory c) (V c) (I c) (PC c) (stack c) (SP c) t (soundTimer c)
          (display c) (keys c) (drawFlag c).
Definition set_soundTimer (t : Z) (c : Chip8) : Chip8 :=
  mkChip8 (memory c) (V c) (I c) (PC c) (stack c) (SP c) (delayTimer c) t
          (display c) (keys c) (drawFlag c).
Definition set_display (d : list Z) (c : Chip8) : Chip8 :=
  mkChip8 (memory c) (V c) (I c) (PC c) (stack c) (SP c) (delayTimer c)
          (soundTimer c) d (keys c) (drawFlag c).
Definition set_keys (k : list bool) (c : Chip8) : Chip8 :=
  mkChip8 (memory c) (V c) (I c) (PC c) (stack c) (SP c) (delayTimer c)
          (soundTimer c) (display c) k (drawFlag c).
Definition set_drawFlag (b : bool) (c : Chip8) : Chip8 :=
  mkChip8 (memory c) (V c) (I c) (PC c) (stack c) (SP c) (delayTimer c)
          (soundTimer c) (display c) (keys c) b.

(** ** The monad of machine operations *)

(** A method on [*Chip8] either returns, with a value and the mutated
    state, or stops in a run-time panic (index out of range) with the state
    as mutated up to that point. *)
Inductive result (A : Type) : Type :=
| Ok (a : A) (c : Chip8)
| Panic (c : Chip8).
Arguments Ok {A} a c.
Arguments Panic {A} c.

Definition M (A : Type) : Type := Chip8 -> result A.

Definition ret {A} (a : A) : M A := fun c => Ok a c.
Definition bind {A B} (m : M A) (k : A -> M B) : M B :=
  fun c => match m c with
           | Ok a c' => k a c'
           | Panic c' => Panic c'
           end.
Definition gets {A} (f : Chip8 -> A) : M A := fun c => Ok (f c) c.
Definition modify (f : Chip8 -> Chip8) : M unit := fun c => Ok tt (f c).

Declare Scope chip8_scope.
Delimit Scope chip8_scope with chip8.
Notation "'let*' x ':=' m 'in' k" := (bind m (fun x => k))
  (at level 10, x name, m at level 100, k at level 200) : chip8_scope.
Notation "m >> k" := (bind m (fun _ => k))
  (at level 90, right associativity) : chip8_scope.
Local Open Scope chip8_scope.

(** The state in which a run stopped, whichever way it stopped. *)
Definition final {A} (r : result A) : Chip8 :=
  match r with Ok _ c => c | Panic c => c end.

(** [for_each l body] runs [body] on the elements of [l] in order: the
    counted [for] loops of the source, over the values of the loop variable. *)
Fixpoint for_each (l : list Z) (body : Z -> M unit) : M unit :=
  match l with
  | [] => ret tt
  | i :: rest => body i >> for_each rest body
  end.

(** ** Array accesses

    Every index in the source is an unsigned integer, so only the upper
    bound of the Go bounds check can fail. *)

Definition at_index {A} `{Inhabited A} (arr : Chip8 -> list A) (size : Z)
    (i : Z) : M A :=
  fun c => if i <? size then Ok (arr c !!! Z.to_nat i) c else Panic c.

Definition assign_index {A} (arr : Chip8 -> list A)
    (set : list A -> Chip8 -> Chip8) (size : Z) (i : Z) (v : A) : M unit :=
  fun c => if i <? size then Ok tt (set (<[Z.to_nat i := v]> (arr c)) c)
           else Panic c.

Definition memory_at := at_index memory MemorySize.
Definition memory_assign := assign_index memory set_memory MemorySize.
Definition V_at := at_index V RegisterCount.
Definition V_assign := assign_index V set_V RegisterCount.
Definition stack_at := at_index stack StackSize.
Definition stack_assign := assign_index stack set_stack StackSize.
Definition display_at := at_index display (ScreenWidth * ScreenHeight).
Definition display_assign :=
  assign_index display set_display (ScreenWidth * ScreenHeight).
Definition keys_at := at_index keys KeyCount.

(** ** Construction and ROM loading *)

Definition fontset : list Z :=
  [ 0xF0; 0x90; 0x90; 0x90; 0xF0;   (* 0 *)
    0x20; 0x60; 0x20; 0x20; 0x70;   (* 1 *)
    0xF0; 0x10; 0xF0; 0x80; 0xF0;   (* 2 *)
    0xF0; 0x10; 0xF0; 0x10; 0xF0;   (* 3 *)
    0x90; 0x90; 0xF0; 0x10; 0x10;   (* 4 *)
    0xF0; 0x80; 0xF0; 0x10; 0xF0;   (* 5 *)
    0xF0; 0x80; 0xF0; 0x90; 0xF0;   (* 6 *)
    0xF0; 0x10; 0x20; 0x40; 0x40;   (* 7 *)
    0xF0; 0x90; 0xF0; 0x90; 0xF0;   (* 8 *)
    0xF0; 0x90; 0xF0; 0x10; 0xF0;   (* 9 *)
    0xF0; 0x90; 0xF0; 0x90; 0x90;   (* A *)
    0xE0; 0x90; 0xE0; 0x90; 0xE0;   (* B *)
    0xF0; 0x80; 0x80; 0x80; 0xF0;   (* C *)
    0xE0; 0x90; 0x90; 0x90; 0xE0;   (* D *)
    0xF0; 0x80; 0xF0; 0x80; 0xF0;   (* E *)
    0xF0; 0x80; 0xF0; 0x80; 0x80 ]. (* F *)

(** Go's built-in [copy(dst[lo:hi], src)]: copies [min (hi - lo) (len src)]
    elements and leaves the rest of [dst] as it is. *)
Definition copy_slice {A} (lo hi : nat) (src dst : list A) : list A :=
  let n := Nat.min (hi - lo) (length src) in
  take lo dst ++ take n src ++ drop (lo + n) dst.

(** The zero value of the struct. *)
Definition zero_Chip8 : Chip8 :=
  mkChip8 (replicate (Z.to_nat MemorySize) 0)
          (replicate (Z.to_nat RegisterCount) 0)
          0 0
          (replicate (Z.to_nat StackSize) 0)
          0 0 0
          (replicate (Z.to_nat (ScreenWidth * ScreenHeight)) 0)
          (replicate (Z.to_nat KeyCount) false)
          false.

Definition New : Chip8 :=
  let c := set_PC 0x200 zero_Chip8 in
  set_memory (copy_slice 0 (Z.to_nat FontsetSize) fontset (memory c)) c.

(** The error value built by [fmt.Errorf] in [LoadROM], with its two
    arguments. *)
Inductive error : Type :=
| RomTooLarge (size max : Z).

(** [LoadROM] returns the error ([None] for [nil]) and the state after the
    call. *)
Definition LoadROM (rom : list Z) (c : Chip8) : option error * Chip8 :=
  if Z.of_nat (length rom) >? MemorySize - 0x200 then
    (Some (RomTooLarge (Z.of_nat (length rom)) (MemorySize - 0x200)), c)
  else
    (None,
     set_memory
       (copy_slice (Z.to_nat 0x200) (Z.to_nat MemorySize) rom (memory c)) c).

(** ** The fetch-decode-execute engine *)

(** [c.PC += k] *)
Definition advance (k : Z) : M unit :=
  modify (fun c => set_PC (u16 (PC c + k)) c).

(** The diagnostic printed on an unknown encoding is not part of the state;
    what remains of the [default] branches is the advance by 2. *)
Definition unknown_opcode (opcode : Z) : M unit := advance 2.

(** The scan of [Fx0A]: [for i := 0; i < 16; i++] with its [break].  The
    result is the final value of [keyPressed]. *)
Fixpoint scan_keys (x : Z) (l : list Z) : M bool :=
  match l with
  | [] => ret false
  | i :: rest =>
      let* k := keys_at i in
      if k : bool then V_assign x (u8 i) >> ret true
      else scan_keys x rest
  end.

Definition drawSprite (x y height : Z) : M unit :=
  V_assign 0xF 0 >>
  let* vx := V_at x in
  let xPos := vx mod ScreenWidth in
  let* vy := V_at y in
  let yPos := vy mod ScreenHeight in
  for_each (seqZ 0 height) (fun row =>
    let* i := gets I in
    let* spriteData := memory_at (u16 (i + row)) in
    for_each (seqZ 0 8) (fun col =>
      if negb (Z.land spriteData (Z.shiftr 0x80 col) =? 0) then
        let screenX := u8 (xPos + col) mod ScreenWidth in
        let screenY := u8 (yPos + row) mod ScreenHeight in
        (* [xPos], [yPos], [row] and [col] are uint8, hence so are
           [screenX] and [screenY], and [screenY*ScreenWidth + screenX] is
           an expression of type uint8: the untyped constant [ScreenWidth]
           takes the type of [screenY], and both the product and the sum
           wrap at 256. *)
        let pixelIndex := u8 (u8 (screenY * ScreenWidth) + screenX) in
        let* p := display_at pixelIndex in
        (if p =? 1 then V_assign 0xF 1 else ret tt) >>
        let* p := display_at pixelIndex in
        display_assign pixelIndex (Z.lxor p 1)
      else ret tt)) >>
  modify (set_drawFlag true).

(** The operand fields of an instruction word [0xABCD], as extracted at the
    head of [executeOpcode]. *)
Definition field_nnn (opcode : Z) : Z := Z.land opcode 0x0FFF.
Definition field_n (opcode : Z) : Z := u8 (Z.land opcode 0x000F).
Definition field_x (opcode : Z) : Z := u8 (Z.shiftr (Z.land opcode 0x0F00) 8).
Definition field_y (opcode : Z) : Z := u8 (Z.shiftr (Z.land opcode 0x00F0) 4).
Definition field_kk (opcode : Z) : Z := u8 (Z.land opcode 0x00FF).

(** [rnd] is the value returned by [rand.Intn(256)], should the operation
    ask for one. *)
Definition executeOpcode (rnd : Z) (opcode : Z) : M unit :=
  let nnn := field_nnn opcode in
  let n := field_n opcode in
  let x := field_x opcode in
  let y := field_y opcode in
  let kk := field_kk opcode in
  match Z.land opcode 0xF000 with
  | 0x0000 =>
      match opcode with
      | 0x00E0 =>
          modify (fun c => set_display ((fun _ => 0) <$> display c) c) >>
          modify (set_drawFlag true) >>
          advance 2
      | 0x00EE =>
          modify (fun c => set_SP (u8 (SP c - 1)) c) >>
          let* sp := gets SP in
          let* a := stack_at sp in
          modify (set_PC a) >>
          advance 2
      | _ => unknown_opcode opcode
      end
  | 0x1000 => modify (set_PC nnn)
  | 0x2000 =>
      let* sp := gets SP in
      let* pc := gets PC in
      stack_assign sp pc >>
      modify (fun c => set_SP (u8 (SP c + 1)) c) >>
      modify (set_PC nnn)
  | 0x3000 =>
      let* vx := V_at x in
      if vx =? kk then advance 4 else advance 2
  | 0x4000 =>
      let* vx := V_at x in
      if negb (vx =? kk) then advance 4 else advance 2
  | 0x5000 =>
      let* vx := V_at x in
      let* vy := V_at y in
      if vx =? vy then advance 4 else advance 2
  | 0x6000 => V_assign x kk >> advance 2
  | 0x7000 =>
      let* vx := V_at x in
      V_assign x (u8 (vx + kk)) >> advance 2
  | 0x8000 =>
      match Z.land opcode 0x000F with
      | 0x0000 =>
          let* vy := V_at y in
          V_assign x vy >> advance 2
      | 0x0001 =>
          let* vx := V_at x in
          let* vy := V_at y in
          V_assign x (Z.lor vx vy) >> advance 2
      | 0x0002 =>
          let* vx := V_at x in
          let* vy := V_at y in
          V_assign x (Z.land vx vy) >> advance 2
      | 0x0003 =>
          let* vx := V_at x in
          let* vy := V_at y in
          V_assign x (Z.lxor vx vy) >> advance 2
      | 0x0004 =>
          let* vx := V_at x in
          let* vy := V_at y in
          let sum := u16 (vx + vy) in
          V_assign 0xF 0 >>
          (if sum >? 0xFF then V_assign 0xF 1 else ret tt) >>
          V_assign x (u8 sum) >>
          advance 2
      | 0x0005 =>
          V_assign 0xF 0 >>
          let* vx := V_at x in
          let* vy := V_at y in
          (if vx >? vy then V_assign 0xF 1 else ret tt) >>
          let* vx := V_at x in
          let* vy := V_at y in
          V_assign x (u8 (vx - vy)) >>
          advance 2
      | 0x0006 =>
          let* vx := V_at x in
          V_assign 0xF (Z.land vx 0x1) >>
          let* vx := V_at x in
          V_assign x (Z.shiftr vx 1) >>
          advance 2
      | 0x0007 =>
          V_assign 0xF 0 >>
          let* vy := V_at y in
          let* vx := V_at x in
          (if vy >? vx then V_assign 0xF 1 else ret tt) >>
          let* vy := V_at y in
          let* vx := V_at x in
          V_assign x (u8 (vy - vx)) >>
          advance 2
      | 0x000E =>
          let* vx := V_at x in
          V_assign 0xF (Z.shiftr (Z.land vx 0x80) 7) >>
          let* vx := V_at x in
          V_assign x (u8 (Z.shiftl vx 1)) >>
          advance 2
      | _ => unknown_opcode opcode
      end
  | 0x9000 =>
      let* vx := V_at x in
      let* vy := V_at y in
      if negb (vx =? vy) then advance 4 else advance 2
  | 0xA000 => modify (set_I nnn) >> advance 2
  | 0xB000 =>
      let* v0 := V_at 0 in
      modify (set_PC (u16 (nnn + v0)))
  | 0xC000 => V_assign x (Z.land (u8 rnd) kk) >> advance 2
  | 0xD000 => drawSprite x y n >> advance 2
  | 0xE000 =>
      match Z.land opcode 0x00FF with
      | 0x009E =>
          let* vx := V_at x in
          let* k := keys_at vx in
          if k : bool then advance 4 else advance 2
      | 0x00A1 =>
          let* vx := V_at x in
          let* k := keys_at vx in
          if negb k then advance 4 else advance 2
      | _ => unknown_opcode opcode
      end
  | 0xF000 =>
      match Z.land opcode 0x00FF with
      | 0x0007 =>
          let* dt := gets delayTimer in
          V_assign x dt >> advance 2
      | 0x000A =>
          let* keyPressed := scan_keys x (seqZ 0 16) in
          if keyPressed : bool then advance 2 else ret tt
      | 0x0015 =>
          let* vx := V_at x in
          modify (set_delayTimer vx) >> advance 2
      | 0x0018 =>
          let* vx := V_at x in
          modify (set_soundTimer vx) >> advance 2
      | 0x001E =>
          let* vx := V_at x in
          modify (fun c => set_I (u16 (I c + vx)) c) >> advance 2
      | 0x0029 =>
          let* vx := V_at x in
          modify (set_I (u16 (vx * 5))) >> advance 2
      | 0x0033 =>
          let* vx := V_at x in
          let* i := gets I in
          memory_assign i (vx / 100) >>
          let* vx := V_at x in
          let* i := gets I in
          memory_assign (u16 (i + 1)) ((vx / 10) mod 10) >>
          let* vx := V_at x in
          let* i := gets I in
          memory_assign (u16 (i + 2)) (vx mod 10) >>
          advance 2
      | 0x0055 =>
          for_each (seqZ 0 (x + 1)) (fun i =>
            let* vi := V_at i in
            let* a := gets I in
            memory_assign (u16 (a + i)) vi) >>
          advance 2
      | 0x0065 =>
          for_each (seqZ 0 (x + 1)) (fun i =>
            let* a := gets I in
            let* b := memory_at (u16 (a + i)) in
            V_assign i b) >>
          advance 2
      | _ => unknown_opcode opcode
      end
  | _ => unknown_opcode opcode
  end.

(** The instruction word at [PC]: two bytes, big-endian. *)
Definition fetch : M Z :=
  let* pc := gets PC in
  let* hi := memory_at pc in
  let* lo := memory_at (u16 (pc + 1)) in
  ret (Z.lor (u16 (Z.shiftl hi 8)) lo).

(** The timer update that ends a cycle. *)
Definition update_timers : M unit :=
  let* dt := gets delayTimer in
  (if dt >? 0 then modify (set_delayTimer (u8 (dt - 1))) else ret tt) >>
  let* st := gets soundTimer in
  (if st >? 0 then modify (set_soundTimer (u8 (st - 1))) else ret tt).

Definition EmulateCycle (rnd : Z) : M unit :=
  let* opcode := fetch in
  executeOpcode rnd opcode >>
  update_timers.

(** The host calls [EmulateCycle] once per cycle; [steps rnds] is one call
    for each element of [rnds], the values the random source would give. *)
Definition steps (rnds : list Z) : M unit := for_each rnds EmulateCycle.

(** ** Host-facing accessors *)

Definition SetKey (key : Z) (pressed : bool) (c : Chip8) : Chip8 :=
  if key <? 16 then set_keys (<[Z.to_nat key := pressed]> (keys c)) c
  else c.

Definition GetDisplay (c : Chip8) : list Z := display c.

Definition DrawFlag (c : Chip8) : bool * Chip8 :=
  (drawFlag c, set_drawFlag false c).

(** ** Well-formed states

    The static array lengths and the ranges of the unsigned fields: what the
    Go types of the struct guarantee, together with the pixel invariant of
    the frame buffer. *)

Definition is_u8 (z : Z) : Prop := 0 <= z < 256.
Definition is_u16 (z : Z) : Prop := 0 <= z < 65536.
Definition is_bit (z : Z) : Prop := z = 0 \/ z = 1.

Record wf (c : Chip8) : Prop := mk_wf {
  wf_memory_len : length (memory c) = Z.to_nat MemorySize;
  wf_memory : Forall is_u8 (memory c);
  wf_V_len : length (V c) = Z.to_nat RegisterCount;
  wf_V : Forall is_u8 (V c);
  wf_I : is_u16 (I c);
  wf_PC : is_u16 (PC c);
  wf_stack_len : length (stack c) = Z.to_nat StackSize;
  wf_stack : Forall is_u16 (stack c);
  wf_SP : is_u8 (SP c);
  wf_delayTimer : is_u8 (delayTimer c);
  wf_soundTimer : is_u8 (soundTimer c);
  wf_display_len :
    length (display c) = Z.to_nat (ScreenWidth * ScreenHeight);
  wf_display : Forall is_bit (display c);
  wf_keys_len : length (keys c) = Z.to_nat KeyCount
}.

(** A boolean test of [wf], for closed states. *)
Definition u8b (z : Z) : bool := (0 <=? z) && (z <? 256).
Definition u16b (z : Z) : bool := (0 <=? z) && (z <? 65536).
Definition bitb (z : Z) : bool := (z =? 0) || (z =? 1).

Definition wfb (c : Chip8) : bool :=
  (length (memory c) =? Z.to_nat MemorySize)%nat && forallb u8b (memory c) &&
  (length (V c) =? Z.to_nat RegisterCount)%nat && forallb u8b (V c) &&
  u16b (I c) && u16b (PC c) &&
  (length (stack c) =? Z.to_nat StackSize)%nat && forallb u16b (stack c) &&
  u8b (SP c) && u8b (delayTimer c) && u8b (soundTimer c) &&
  (length (display c) =? Z.to_nat (ScreenWidth * ScreenHeight))%nat &&
  forallb bitb (display c) &&
  (length (keys c) =? Z.to_nat KeyCount)%nat.

(** ** The timer update as a function *)

Definition decrement (t : Z) : Z := if t >? 0 then u8 (t - 1) else t.

(** The state after the timer update. *)
Definition ticked (c : Chip8) : Chip8 :=
  set_soundTimer (decrement (soundTimer c))
    (set_delayTimer (decrement (delayTimer c)) c).

(** ** Example states

    [with_V], [with_rom]: a fresh machine with chosen registers and a
    program loaded at 0x200. *)

Definition with_rom (rom : list Z) (c : Chip8) : Chip8 := snd (LoadROM rom c).

Definition with_V (i : nat) (v : Z) (c : Chip8) : Chip8 :=
  set_V (<[i := v]> (V c)) c.

(** [V0 = 250], [V1 = 10], and the instruction [8014] at 0x200. *)
Definition carry_example : Chip8 :=
  with_V 0 250 (with_V 1 10 (with_rom [0x80; 0x14] New)).

(** [VF = 10], [V0 = 3], and the instruction [8F05] at 0x200. *)
Definition flag_sub_example : Chip8 :=
  with_V 15 10 (with_V 0 3 (with_rom [0x8F; 0x05] New)).

(** ** Invariants of monadic code

    [triple P m Q]: from a state in [P], the code [m] stops in a state in
    [P], whether it returns or panics, and a returned value is in [Q]. *)

Definition triple {A} (P : Chip8 -> Prop) (m : M A) (Q : A -> Prop) : Prop :=
  forall c, P c ->
    match m c with
    | Ok a c' => P c' /\ Q a
    | Panic c' => P c'
    end.

Definition any {A} : A -> Prop := fun _ => True.

(** The opcodes that store to memory, set the delay timer, set the sound
    timer. *)
Definition is_store (opcode : Z) : bool :=
  (Z.land opcode 0xF000 =? 0xF000) &&
  ((Z.land opcode 0x00FF =? 0x0033) || (Z.land opcode 0x00FF =? 0x0055)).
Definition is_Fx15 (opcode : Z) : bool :=
  (Z.land opcode 0xF000 =? 0xF000) && (Z.land opcode 0x00FF =? 0x0015).
Definition is_Fx18 (opcode : Z) : bool :=
  (Z.land opcode 0xF000 =? 0xF000) && (Z.land opcode 0x00FF =? 0x0018).

(** A property of states that no operation other than a memory store or a
    timer load can break. *)
Record stable (P : Chip8 -> Prop) : Prop := mk_stable {
  stable_V : forall c v, P c -> P (set_V v c);
  stable_I : forall c v, P c -> P (set_I v c);
  stable_PC : forall c v, P c -> P (set_PC v c);
  stable_stack : forall c v, P c -> P (set_stack v c);
  stable_SP : forall c v, P c -> P (set_SP v c);
  stable_display : forall c v, P c -> P (set_display v c);
  stable_drawFlag : forall c v, P c -> P (set_drawFlag v c)
}.

(** ** Reachable states

    What a host can obtain from the exported functions: a new machine,
    ROM loads (of bytes), key events, reads of the draw flag, and cycles
    that return. *)
Inductive reachable : Chip8 -> Prop :=
| reach_New : reachable New
| reach_LoadROM rom c :
    Forall is_u8 rom -> reachable c -> reachable (snd (LoadROM rom c))
| reach_SetKey key pressed c :
    reachable c -> reachable (SetKey key pressed c)
| reach_DrawFlag c : reachable c -> reachable (snd (DrawFlag c))
| reach_EmulateCycle rnd c c' :
    reachable c -> EmulateCycle rnd c = Ok tt c' -> reachable c'.

(** A call to 0x400 at 0x200, and a return at 0x400. *)
Definition call_example : Chip8 :=
  with_rom ([0x24; 0x00] ++ replicate 510 0 ++ [0x00; 0xEE]) New.

(** [V0 = 16] and the instruction [E09E] at 0x200: the state a program
    reaches by [6010]. *)
Definition key_skip_example : Chip8 :=
  with_V 0 16 (with_rom [0xE0; 0x9E] New).

(** The instruction [F30A] at 0x200, no key pressed; and the same with
    keys 5 and 9 pressed. *)
Definition key_wait_example : Chip8 := with_rom [0xF3; 0x0A] New.
Definition key_down_example : Chip8 :=
  SetKey 9 true (SetKey 5 true key_wait_example).

(** The state after one cycle on the program [6010]: [V0 = 16]. *)
Definition key_skip_reached : Chip8 :=
  final (EmulateCycle 0 (with_rom [0x60; 0x10] New)).

(** A delay timer at 2 over three instructions [6000] that set no timer. *)
Definition timer_example : Chip8 :=
  set_delayTimer 2 (with_rom [0x60; 0x00; 0x60; 0x00; 0x60; 0x00] New).

(** ROMs of the largest size that loads, and of one byte more. *)
Definition rom_3584 : list Z := replicate 3584 0xAA.
Definition rom_3585 : list Z := replicate 3585 0xAA.

(** A fresh machine ([I = 0], [V0 = 0]) with [F033] at 0x200, and one with
    the program [6001 F055]. *)
Definition bcd_example : Chip8 := with_rom [0xF0; 0x33] New.
Definition block_store_example : Chip8 :=
  with_rom [0x60; 0x01; 0xF0; 0x55] New.
(** [Annn] to 0x300 has run: [I = 0x300], and [F033] comes next. *)
Definition high_store_example : Chip8 :=
  set_I 0x300 (with_V 0 157 (with_rom [0xF0; 0x33] New)).

(** The first 0x200 bytes of memory. *)
Definition low_memory (c : Chip8) : list Z := take 512 (memory c).

(** ** The sprite engine, as functions

    What [drawSprite] computes on its way: the frame-buffer index of a
    sprite bit, the indices a draw visits in loop order, and the effect of
    visiting one of them on the frame buffer and on the flag. *)

(** [pixelIndex] for the sprite bit at ([row], [col]): a [uint8]. *)
Definition sprite_pixel (xPos yPos row col : Z) : Z :=
  let screenX := u8 (xPos + col) mod ScreenWidth in
  let screenY := u8 (yPos + row) mod ScreenHeight in
  u8 (u8 (screenY * ScreenWidth) + screenX).

(** The test [(spriteData & (0x80 >> col)) != 0]. *)
Definition bit_set (spriteData col : Z) : bool :=
  negb (Z.land spriteData (Z.shiftr 0x80 col) =? 0).

Definition row_pixels (xPos yPos row spriteData : Z) : list Z :=
  omap (fun col => if bit_set spriteData col
                   then Some (sprite_pixel xPos yPos row col) else None)
       (seqZ 0 8).

(** The indices visited by a draw, in order; the origin is read after the
    flag register has been cleared. *)
Definition sprite_pixels (c : Chip8) (x y height : Z) : list Z :=
  let V0 := <[15%nat := 0]> (V c) in
  let xPos := (V0 !!! Z.to_nat x) mod ScreenWidth in
  let yPos := (V0 !!! Z.to_nat y) mod ScreenHeight in
  mbind (M := list)
    (fun row => row_pixels xPos yPos row
                  (memory c !!! Z.to_nat (u16 (I c + row))))
    (seqZ 0 height).

Definition toggle (d : list Z) (p : Z) : list Z :=
  <[Z.to_nat p := Z.lxor (d !!! Z.to_nat p) 1]> d.

(** Does some visit find its pixel at 1? *)
Fixpoint collides (d : list Z) (ps : list Z) : bool :=
  match ps with
  | [] => false
  | p :: ps' => (d !!! Z.to_nat p =? 1) || collides (toggle d p) ps'
  end.

(** One visit, on the state. *)
Definition plot (c : Chip8) (p : Z) : Chip8 :=
  let c1 := if display c !!! Z.to_nat p =? 1
            then set_V (<[15%nat := 1]> (V c)) c else c in
  set_display (toggle (display c1) p) c1.

(** The instruction [D011] at 0x200 and a one-row, one-bit sprite (0x80)
    at 0x300, to be drawn at ([V0], [V1]) = (5, 2); the pixel is off, or
    already on. *)
Definition sprite_off_example : Chip8 :=
  set_I 0x300
    (with_V 0 5
       (with_V 1 2 (with_rom ([0xD0; 0x11] ++ replicate 254 0 ++ [0x80]) New))).
Definition sprite_on_example : Chip8 :=
  set_display (<[133%nat := 1]> (display sprite_off_example))
    sprite_off_example.

(** The program [603C 610A A208 D011] followed by the sprite byte 0xFF:
    an 8-pixel row drawn at origin (60, 10). *)
Definition wrap_example : Chip8 :=
  with_rom [0x60; 0x3C; 0x61; 0x0A; 0xA2; 0x08; 0xD0; 0x11; 0xFF] New.

(** The indices of the pixels that are on, in ascending order. *)
Definition lit (d : list Z) : list Z :=
  omap (fun i => if d !!! Z.to_nat i =? 1 then Some i else None)
       (seqZ 0 (ScreenWidth * ScreenHeight)).

(** The row-major index of the pixel at column [sx], row [sy]. *)
Definition row_major (sx sy : Z) : Z := sy * ScreenWidth + sx.

(** The body of the row loop of [drawSprite], for an origin. *)
Definition draw_row (xPos yPos row : Z) : M unit :=
  let* i := gets I in
  let* spriteData := memory_at (u16 (i + row)) in
  for_each (seqZ 0 8) (fun col =>
    if negb (Z.land spriteData (Z.shiftr 0x80 col) =? 0) then
      let screenX := u8 (xPos + col) mod ScreenWidth in
      let screenY := u8 (yPos + row) mod ScreenHeight in
      let pixelIndex := u8 (u8 (screenY * ScreenWidth) + screenX) in
      let* p := display_at pixelIndex in
      (if p =? 1 then V_assign 0xF 1 else ret tt) >>
      let* p := display_at pixelIndex in
      display_assign pixelIndex (Z.lxor p 1)
    else ret tt).

(** The number of rows a draw completes: all of them, or those whose
    sprite byte lies inside memory when the sprite runs past its end. *)
Definition rows_drawn (c : Chip8) (height : Z) : Z :=
  Z.min height (Z.max 0 (MemorySize - I c)).

(** [V2 = 5] and the instruction [3205] (skip if [V2 = 5]) at 0x200. *)
Definition skip_example : Chip8 := with_V 2 5 (with_rom [0x32; 0x05] New).

(** [V0 = 0xFF] and the instruction [BF10] (jump to [0xF10 + V0]). *)
Definition indexed_jump_example : Chip8 :=
  with_V 0 0xFF (with_rom [0xBF; 0x10] New).

(** [V4 = 200], [V5 = 0x0F] and the instruction [7464] (add 100 to [V4]). *)
Definition add_immediate_example : Chip8 :=
  with_V 4 200 (with_V 5 0x0F (with_rom [0x74; 0x64] New)).

(** [V1 = 5], [V2 = 5] and the instruction [8125] ([V1 -= V2]). *)
Definition borrow_example : Chip8 :=
  with_V 1 5 (with_V 2 5 (with_rom [0x81; 0x25] New)).

(** [V3 = 0x83] and the instruction [830E] (shift [V3] left). *)
Definition shift_example : Chip8 := with_V 3 0x83 (with_rom [0x83; 0x0E] New).

(** [V6 = 0xF0], [V7 = 0x3C] and the instruction [8673] ([V6 ^= V7]). *)
Definition logic_example : Chip8 :=
  with_V 6 0xF0 (with_V 7 0x3C (with_rom [0x86; 0x73] New)).

(** [V0 = 157], [I = 0x300] and the instruction [F033]. *)
Definition bcd_digits_example : Chip8 :=
  set_I 0x300 (with_V 0 157 (with_rom [0xF0; 0x33] New)).

(** The same with [I = 4094]: the third digit falls outside memory. *)
Definition bcd_edge_example : Chip8 :=
  set_I 4094 (with_V 0 157 (with_rom [0xF0; 0x33] New)).

(** [V3 = 0xA] and the instruction [F329]. *)
Definition glyph_example : Chip8 := with_V 3 0xA (with_rom [0xF3; 0x29] New).

(** [V2 = 7] and the instruction [F215]. *)
Definition delay_example : Chip8 := with_V 2 7 (with_rom [0xF2; 0x15] New).

(** The memory after the store loop of [Fx55] and the registers after the
    load loop of [Fx65], over the register indices [l]. *)
Definition stored (base : Z) (regs : list Z) (l : list Z) (mem : list Z) :
    list Z :=
  foldl (fun m i => <[Z.to_nat (base + i) := regs !!! Z.to_nat i]> m) mem l.

Definition loaded (base : Z) (mem : list Z) (l : list Z) (regs : list Z) :
    list Z :=
  foldl (fun v i => <[Z.to_nat i := mem !!! Z.to_nat (base + i)]> v) regs l.

(** [V0..V3 = 11, 22, 33, 44], [I = 0x400] and the instruction [F355]. *)
Definition block_example : Chip8 :=
  set_I 0x400
    (with_V 0 11 (with_V 1 22 (with_V 2 33 (with_V 3 44
       (with_rom [0xF3; 0x55] New))))).

(** A frame buffer with some pixels on, and the instruction [00E0]. *)
Definition clear_example : Chip8 :=
  set_display (<[7%nat := 1]> (<[200%nat := 1]> (display New)))
    (with_rom [0x00; 0xE0] New).

(** [V4 = 9] and the instruction [E49E], before key 9 goes down. *)
Definition key_event_example : Chip8 :=
  with_V 4 9 (with_rom [0xE4; 0x9E] New).

(** A full stack ([SP = 16]) and an empty one, for [2300] and [00EE]. *)
Definition full_stack_example : Chip8 :=
  set_SP 16 (with_rom [0x23; 0x00] New).
Definition empty_stack_example : Chip8 := with_rom [0x00; 0xEE] New.

(** The instruction words that reach a [default] branch of the decoder. *)
Definition is_unknown (opcode : Z) : bool :=
  let family := Z.land opcode 0xF000 in
  let n := Z.land opcode 0x000F in
  let kk := Z.land opcode 0x00FF in
  ((family =? 0x0000) && negb (opcode =? 0x00E0) && negb (opcode =? 0x00EE))
  || ((family =? 0x8000) && (8 <=? n) && negb (n =? 0xE))
  || ((family =? 0xE000) && negb (kk =? 0x9E) && negb (kk =? 0xA1))
  || ((family =? 0xF000) &&
      negb (existsb (Z.eqb kk)
              [0x07; 0x0A; 0x15; 0x18; 0x1E; 0x29; 0x33; 0x55; 0x65])).

(** The word [E100] at 0x200: no operation of the instruction set. *)
Definition unknown_example : Chip8 := with_rom [0xE1; 0x00] New.

(** A machine whose program counter has reached the last byte of memory. *)
Definition pc_edge_example : Chip8 := set_PC 4095 New.

(** [V5 = 0] and the instruction [C50F]. *)
Definition random_example : Chip8 := with_rom [0xC5; 0x0F] New.

(** The opcodes that call, return, write the frame buffer, and set [I]. *)
Definition is_call (opcode : Z) : bool := Z.land opcode 0xF000 =? 0x2000.
Definition is_return (opcode : Z) : bool := opcode =? 0x00EE.
Definition is_draw (opcode : Z) : bool :=
  (Z.land opcode 0xF000 =? 0xD000) || (opcode =? 0x00E0).
Definition sets_I (opcode : Z) : bool :=
  (Z.land opcode 0xF000 =? 0xA000) ||
  ((Z.land opcode 0xF000 =? 0xF000) &&
   ((Z.land opcode 0x00FF =? 0x001E) || (Z.land opcode 0x00FF =? 0x0029))).

(** [V0 = 3], [V1 = 4], [I] at sixteen zero bytes and the instruction
    [D01F]; some pixels are on. *)
Definition blank_example : Chip8 :=
  set_I 0x300
    (set_display (<[7%nat := 1]> (display New))
       (with_V 15 1 (with_V 0 3 (with_V 1 4 (with_rom [0xD0; 0x1F] New))))).

(** [faults_keep P m]: when [m] panics from a state in [P], the state at
    the panic is in [P].  [returns m]: [m] panics from no state. *)
Definition faults_keep {A} (P : Chip8 -> Prop) (m : M A) : Prop :=
  forall c, P c -> match m c with Ok _ _ => True | Panic c' => P c' end.

Definition returns {A} (m : M A) : Prop :=
  forall c, exists a c', m c = Ok a c'.

(** A timer [t] after [n] ticks. *)
Definition countdown (n t : Z) : Z := Z.max 0 (t - n).

(** The instruction [1200] at 0x200, a jump to itself, with the delay
    timer at 1 and the sound timer at 3. *)
Definition spin_example : Chip8 :=
  set_soundTimer 3 (set_delayTimer 1 (with_rom [0x12; 0x00] New)).

(** A sprite that runs past the end of memory: [I = 4095] and [D012]. *)
Definition sprite_fault_example : Chip8 :=
  set_soundTimer 7 (set_delayTimer 9 (set_I 4095 (with_rom [0xD0; 0x12] New))).

(** [VF = 1], [I = 5000], beyond the end of memory, and the instruction
    [D010], a draw of no rows. *)
Definition no_rows_example : Chip8 :=
  set_I 5000 (with_V 15 1 (with_rom [0xD0; 0x10] New)).

(** The program [6F0A], [6003], [8F05]: load 10 into register 15 and 3 into
    register 0, then subtract register 0 from register 15. *)
Definition flag_rom_example : Chip8 :=
  with_rom [0x6F; 0x0A; 0x60; 0x03; 0x8F; 0x05] New.

(** * Properties *)

(** ** Stepping through monadic code *)

Lemma bind_assoc {A B C} (m : M A) (k : A -> M B) (k' : B -> M C) c :
  bind (bind m k) k' c = bind m (fun a => bind (k a) k') c.
Proof. unfold bind. by destruct (m c). Qed.

Lemma bind_Ok {A B} (m : M A) (k : A -> M B) c a c' :
  m c = Ok a c' -> bind m k c = k a c'.
Proof. unfold bind. by intros ->. Qed.

Lemma bind_Panic {A B} (m : M A) (k : A -> M B) c c' :
  m c = Panic c' -> bind m k c = Panic c'.
Proof. unfold bind. by intros ->. Qed.

Lemma at_index_Ok {A} `{Inhabited A} (arr : Chip8 -> list A) size i c :
  i < size -> at_index arr size i c = Ok (arr c !!! Z.to_nat i) c.
Proof. intros Hi. unfold at_index. by rewrite (proj2 (Z.ltb_lt _ _) Hi). Qed.

Lemma at_index_Panic {A} `{Inhabited A} (arr : Chip8 -> list A) size i c :
  size <= i -> at_index arr size i c = Panic c.
Proof. intros Hi. unfold at_index. by rewrite (proj2 (Z.ltb_ge _ _) Hi). Qed.

Lemma assign_index_Ok {A} (arr : Chip8 -> list A) set size i (v : A) c :
  i < size ->
  assign_index arr set size i v c = Ok tt (set (<[Z.to_nat i := v]> (arr c)) c).
Proof. intros Hi. unfold assign_index. by rewrite (proj2 (Z.ltb_lt _ _) Hi). Qed.

Lemma assign_index_Panic {A} (arr : Chip8 -> list A) set size i (v : A) c :
  size <= i -> assign_index arr set size i v c = Panic c.
Proof. intros Hi. unfold assign_index. by rewrite (proj2 (Z.ltb_ge _ _) Hi). Qed.

(** ** The decoded fields *)

Lemma field_x_eq opcode : field_x opcode = (opcode / 256) mod 16.
Proof.
  unfold field_x, u8.
  rewrite Z.shiftr_land. change (0x0F00 ≫ 8) with (Z.ones 4).
  rewrite Z.land_ones, Z.shiftr_div_pow2 by lia.
  change (2 ^ 8) with 256. change (2 ^ 4) with 16.
  apply Z.mod_small. pose proof (Z.mod_pos_bound (opcode / 256) 16). lia.
Qed.

Lemma field_y_eq opcode : field_y opcode = (opcode / 16) mod 16.
Proof.
  unfold field_y, u8.
  rewrite Z.shiftr_land. change (0x00F0 ≫ 4) with (Z.ones 4).
  rewrite Z.land_ones, Z.shiftr_div_pow2 by lia.
  change (2 ^ 4) with 16.
  apply Z.mod_small. pose proof (Z.mod_pos_bound (opcode / 16) 16). lia.
Qed.

Lemma field_n_eq opcode : field_n opcode = opcode mod 16.
Proof.
  unfold field_n, u8. change 0x000F with (Z.ones 4).
  rewrite Z.land_ones by lia. change (2 ^ 4) with 16.
  apply Z.mod_small. pose proof (Z.mod_pos_bound opcode 16). lia.
Qed.

Lemma field_kk_eq opcode : field_kk opcode = opcode mod 256.
Proof.
  unfold field_kk, u8. change 0x00FF with (Z.ones 8).
  rewrite Z.land_ones by lia. change (2 ^ 8) with 256.
  apply Z.mod_small. pose proof (Z.mod_pos_bound opcode 256). lia.
Qed.

Lemma field_nnn_eq opcode : field_nnn opcode = opcode mod 4096.
Proof.
  unfold field_nnn. change 0x0FFF with (Z.ones 12).
  by rewrite Z.land_ones by lia.
Qed.

Lemma field_x_bound opcode : 0 <= field_x opcode < 16.
Proof. rewrite field_x_eq. apply Z.mod_pos_bound. lia. Qed.

Lemma field_y_bound opcode : 0 <= field_y opcode < 16.
Proof. rewrite field_y_eq. apply Z.mod_pos_bound. lia. Qed.

Lemma field_n_bound opcode : 0 <= field_n opcode < 16.
Proof. rewrite field_n_eq. apply Z.mod_pos_bound. lia. Qed.

Lemma field_kk_bound opcode : 0 <= field_kk opcode < 256.
Proof. rewrite field_kk_eq. apply Z.mod_pos_bound. lia. Qed.

Lemma field_nnn_bound opcode : 0 <= field_nnn opcode < 4096.
Proof. rewrite field_nnn_eq. apply Z.mod_pos_bound. lia. Qed.

(** ** Tactics for running the code on a symbolic state *)

Ltac fields :=
  cbn [memory V I PC stack SP delayTimer soundTimer display keys drawFlag
       set_memory set_V set_I set_PC set_stack set_SP set_delayTimer
       set_soundTimer set_display set_keys set_drawFlag final] in *.

Ltac unfold_ops :=
  unfold memory_at, memory_assign, V_at, V_assign, stack_at, stack_assign,
    display_at, display_assign, keys_at, advance, unknown_opcode in *.

Ltac field_bounds :=
  repeat match goal with
  | |- context [field_x ?o] =>
      lazymatch goal with
      | _ : 0 <= field_x o < 16 |- _ => fail
      | _ => pose proof (field_x_bound o)
      end
  | |- context [field_y ?o] =>
      lazymatch goal with
      | _ : 0 <= field_y o < 16 |- _ => fail
      | _ => pose proof (field_y_bound o)
      end
  end.

Ltac bounds :=
  unfold RegisterCount, MemorySize, StackSize, KeyCount, ScreenWidth,
    ScreenHeight in *;
  field_bounds; lia.

(** One statement of straight-line code whose array index is in range. *)
Ltac exec1 :=
  lazymatch goal with
  | |- context [bind (bind ?m ?k) ?k' ?c] => rewrite (bind_assoc m k k' c)
  | |- context [bind (gets ?f) ?k ?c] =>
      change (bind (gets f) k c) with (k (f c) c); cbv beta
  | |- context [bind (modify ?f) ?k ?c] =>
      change (bind (modify f) k c) with (k tt (f c)); cbv beta
  | |- context [bind (ret ?a) ?k ?c] =>
      change (bind (ret a) k c) with (k a c); cbv beta
  | |- context [bind (at_index ?arr ?size ?i) ?k ?c] =>
      rewrite (bind_Ok (at_index arr size i) k c _ _
                 (at_index_Ok arr size i c ltac:(bounds))); cbv beta
  | |- context [bind (assign_index ?arr ?set ?size ?i ?v) ?k ?c] =>
      rewrite (bind_Ok (assign_index arr set size i v) k c _ _
                 (assign_index_Ok arr set size i v c ltac:(bounds))); cbv beta
  | |- context [at_index ?arr ?size ?i ?c] =>
      rewrite (at_index_Ok arr size i c ltac:(bounds))
  | |- context [assign_index ?arr ?set ?size ?i ?v ?c] =>
      rewrite (assign_index_Ok arr set size i v c ltac:(bounds))
  | |- context [modify ?f ?c] => change (modify f c) with (Ok tt (f c))
  | |- context [@ret ?A ?a ?c] => change (@ret A a c) with (Ok a c)
  end.

Ltac exec := unfold_ops; fields; repeat (exec1; fields).

(** ** Registers of a well-formed state *)

Lemma wf_V_at c i : wf c -> 0 <= i < 16 -> is_u8 (V c !!! Z.to_nat i).
Proof.
  intros Hwf Hi. apply Forall_lookup_total_1; [apply Hwf|].
  rewrite (wf_V_len c Hwf). unfold RegisterCount. lia.
Qed.

Lemma wf_memory_at c a : wf c -> 0 <= a < 4096 -> is_u8 (memory c !!! Z.to_nat a).
Proof.
  intros Hwf Ha. apply Forall_lookup_total_1; [apply Hwf|].
  rewrite (wf_memory_len c Hwf). unfold MemorySize. lia.
Qed.

(** ** The cycle around an operation *)
Lemma update_timers_eq c : update_timers c = Ok tt (ticked c).
Proof.
  unfold update_timers, ticked, decrement. destruct c as [m v i pc st sp dt snd d k f].
  exec. destruct (dt >? 0); exec; destruct (snd >? 0); exec; reflexivity.
Qed.

Lemma EmulateCycle_Ok rnd opcode c c1 :
  fetch c = Ok opcode c -> executeOpcode rnd opcode c = Ok tt c1 ->
  EmulateCycle rnd c = Ok tt (ticked c1).
Proof.
  intros Hf He. unfold EmulateCycle.
  rewrite (bind_Ok _ _ _ _ _ Hf), (bind_Ok _ _ _ _ _ He).
  apply update_timers_eq.
Qed.

Lemma EmulateCycle_Panic rnd opcode c c1 :
  fetch c = Ok opcode c -> executeOpcode rnd opcode c = Panic c1 ->
  EmulateCycle rnd c = Panic c1.
Proof.
  intros Hf He. unfold EmulateCycle.
  by rewrite (bind_Ok _ _ _ _ _ Hf), (bind_Panic _ _ _ _ He).
Qed.

(** A successful fetch leaves the state alone and shows that both bytes of
    the instruction lie inside memory. *)
Lemma fetch_Ok c opcode c' :
  fetch c = Ok opcode c' ->
  c' = c /\ PC c < 4095 /\
  opcode = Z.lor (u16 (Z.shiftl (memory c !!! Z.to_nat (PC c)) 8))
                 (memory c !!! Z.to_nat (u16 (PC c + 1))).
Proof.
  unfold fetch. unfold_ops. exec1.
  unfold bind at 1, at_index at 1.
  destruct (PC c <? MemorySize) eqn:H1; [|done].
  unfold bind at 1, at_index at 1.
  destruct (u16 (PC c + 1) <? MemorySize) eqn:H2; [|done].
  intros [= <- <-]. split; [done|]. split; [|done].
  apply Z.ltb_lt in H1, H2. unfold MemorySize, u16 in *.
  destruct (decide (PC c = 4095)) as [E|]; [|lia].
  rewrite E in H2. vm_compute in H2. done.
Qed.

(** ** Deciding well-formedness *)
Lemma u8b_is_u8 z : u8b z = true -> is_u8 z.
Proof. unfold u8b, is_u8. lia. Qed.

Lemma u16b_is_u16 z : u16b z = true -> is_u16 z.
Proof. unfold u16b, is_u16. lia. Qed.

Lemma bitb_is_bit z : bitb z = true -> is_bit z.
Proof. unfold bitb, is_bit. lia. Qed.

Lemma forallb_Forall {A} (p : A -> bool) (P : A -> Prop) (l : list A) :
  (forall a, p a = true -> P a) -> forallb p l = true -> Forall P l.
Proof.
  intros Hp. induction l as [|a l IH]; simpl; [constructor|].
  intros [Ha Hl]%andb_true_iff. constructor; auto.
Qed.

Lemma wfb_wf c : wfb c = true -> wf c.
Proof.
  unfold wfb. rewrite !andb_true_iff, !Nat.eqb_eq.
  intros [[[[[[[[[[[[[? ?] ?] ?] ?] ?] ?] ?] ?] ?] ?] ?] ?] ?].
  constructor;
    eauto using u8b_is_u8, u16b_is_u16, bitb_is_bit, forallb_Forall.
Qed.

Lemma wf_New : wf New.
Proof. apply wfb_wf. vm_compute. reflexivity. Qed.

(** ** Arithmetic with a flag: 8xy4, 8xy5, 8xy7 *)

(** The register file after [8xy4]: the flag is written first, the
    truncated sum last. *)
Lemma exec_8xy4 rnd opcode c :
  wf c ->
  Z.land opcode 0xF000 = 0x8000 -> Z.land opcode 0x000F = 0x0004 ->
  let x := Z.to_nat (field_x opcode) in
  let y := Z.to_nat (field_y opcode) in
  let sum := V c !!! x + V c !!! y in
  executeOpcode rnd opcode c =
    Ok tt (set_PC (u16 (PC c + 2))
            (set_V (<[x := u8 sum]>
                      (<[15%nat := if sum >? 255 then 1 else 0]> (V c))) c)).
Proof.
  intros Hwf H1 H2 x y sum. unfold executeOpcode. rewrite H1, H2. cbv zeta.
  pose proof (wf_V_at c (field_x opcode) Hwf (field_x_bound _)) as Hx.
  pose proof (wf_V_at c (field_y opcode) Hwf (field_y_bound _)) as Hy.
  fold x in Hx. fold y in Hy. unfold is_u8 in *.
  exec. fold x y sum.
  assert (u16 sum = sum) as -> by (apply Z.mod_small; lia).
  destruct (sum >? 255); exec; [|done].
  change (Z.to_nat 15) with 15%nat. by rewrite list_insert_insert_eq.
Qed.

(** The register file after [8xy5]: the flag register is cleared before
    the operands are compared, and holds the flag when they are
    subtracted. *)
Lemma exec_8xy5 rnd opcode c :
  Z.land opcode 0xF000 = 0x8000 -> Z.land opcode 0x000F = 0x0005 ->
  let x := Z.to_nat (field_x opcode) in
  let y := Z.to_nat (field_y opcode) in
  let V0 := <[15%nat := 0]> (V c) in
  let V1 := <[15%nat := if V0 !!! x >? V0 !!! y then 1 else 0]> V0 in
  executeOpcode rnd opcode c =
    Ok tt (set_PC (u16 (PC c + 2))
            (set_V (<[x := u8 (V1 !!! x - V1 !!! y)]> V1) c)).
Proof.
  intros H1 H2 x y V0 V1. unfold executeOpcode. rewrite H1, H2. cbv zeta.
  exec. change (Z.to_nat 15) with 15%nat. fold x y V0.
  assert (<[15%nat := 0]> V0 = V0) as E
    by (unfold V0; apply list_insert_insert_eq).
  subst V1. destruct (V0 !!! x >? V0 !!! y); exec; [reflexivity|].
  rewrite E. reflexivity.
Qed.

(** The register file after [8xy7], likewise. *)
Lemma exec_8xy7 rnd opcode c :
  Z.land opcode 0xF000 = 0x8000 -> Z.land opcode 0x000F = 0x0007 ->
  let x := Z.to_nat (field_x opcode) in
  let y := Z.to_nat (field_y opcode) in
  let V0 := <[15%nat := 0]> (V c) in
  let V1 := <[15%nat := if V0 !!! y >? V0 !!! x then 1 else 0]> V0 in
  executeOpcode rnd opcode c =
    Ok tt (set_PC (u16 (PC c + 2))
            (set_V (<[x := u8 (V1 !!! y - V1 !!! x)]> V1) c)).
Proof.
  intros H1 H2 x y V0 V1. unfold executeOpcode. rewrite H1, H2. cbv zeta.
  exec. change (Z.to_nat 15) with 15%nat. fold x y V0.
  assert (<[15%nat := 0]> V0 = V0) as E
    by (unfold V0; apply list_insert_insert_eq).
  subst V1. destruct (V0 !!! y >? V0 !!! x); exec; [reflexivity|].
  rewrite E. reflexivity.
Qed.

(** C6: add-with-carry (8xy4).  For every pair of register values the sum is
    formed without wrap-around; the flag register receives 1 when the sum
    exceeds 255 and 0 otherwise; the destination register then receives the
    sum truncated to 8 bits; the program counter advances by 2.  With
    [V[x] = 250] and [V[y] = 10] (x other than 15) the cycle ends with
    [V[x] = 4] and the flag register at 1. *)
Theorem add_with_carry rnd opcode c :
  wf c -> fetch c = Ok opcode c ->
  Z.land opcode 0xF000 = 0x8000 -> Z.land opcode 0x000F = 0x0004 ->
  let x := Z.to_nat (field_x opcode) in
  let y := Z.to_nat (field_y opcode) in
  let sum := V c !!! x + V c !!! y in
  let carry := if sum >? 255 then 1 else 0 in
  exists c',
    EmulateCycle rnd c = Ok tt c' /\
    V c' = <[x := sum mod 256]> (<[15%nat := carry]> (V c)) /\
    V c' !!! x = sum mod 256 /\
    (x <> 15%nat -> V c' !!! 15%nat = carry) /\
    PC c' = PC c + 2 /\
    (V c !!! x = 250 -> V c !!! y = 10 -> x <> 15%nat ->
     V c' !!! x = 4 /\ V c' !!! 15%nat = 1).
Proof.
  intros Hwf Hf H1 H2 x y sum carry.
  pose proof (exec_8xy4 rnd opcode c Hwf H1 H2) as He. cbv zeta in He.
  fold x y sum carry in He.
  eexists. split; [exact (EmulateCycle_Ok _ _ _ _ Hf He)|].
  pose proof (field_x_bound opcode) as Hx.
  assert (x < length (<[15%nat := carry]> (V c)))%nat as Hlen.
  { rewrite length_insert, (wf_V_len c Hwf). unfold RegisterCount. lia. }
  assert (15 < length (V c))%nat as Hlen15.
  { rewrite (wf_V_len c Hwf). unfold RegisterCount. lia. }
  destruct (fetch_Ok _ _ _ Hf) as (_ & Hpc & _).
  pose proof (wf_PC c Hwf) as Hpc0. unfold is_u16 in Hpc0.
  unfold ticked. fields. unfold u8.
  assert (Hvx : (<[x := sum mod 256]> (<[15%nat := carry]> (V c))) !!! x
                = sum mod 256)
    by (by apply list_lookup_total_insert_eq).
  assert (Hvf : x <> 15%nat ->
                (<[x := sum mod 256]> (<[15%nat := carry]> (V c))) !!! 15%nat
                = carry).
  { intros Hne. rewrite list_lookup_total_insert_ne by done.
    by apply list_lookup_total_insert_eq. }
  split; [done|]. split; [done|]. split; [done|].
  split; [unfold u16; apply Z.mod_small; lia|].
  intros Ex Ey Hne. rewrite Hvx, (Hvf Hne). subst carry sum.
  rewrite Ex, Ey. split; reflexivity.
Qed.

Lemma add_with_carry_witness :
  wf carry_example /\
  exists c',
    EmulateCycle 0 carry_example = Ok tt c' /\
    V c' !!! 0%nat = 4 /\ V c' !!! 15%nat = 1 /\ PC c' = 0x202.
Proof.
  assert (wf carry_example) as Hwf by (apply wfb_wf; vm_compute; reflexivity).
  split; [exact Hwf|].
  destruct (add_with_carry 0 0x8014 carry_example Hwf)
    as (c' & Hc & _ & _ & _ & Hpc & Hex);
    [vm_compute; reflexivity | reflexivity | reflexivity |].
  exists c'. split; [exact Hc|].
  destruct Hex as [Hx Hf]; [vm_compute; reflexivity ..| |].
  - vm_compute. lia.
  - split; [exact Hx|]. split; [exact Hf|]. rewrite Hpc. reflexivity.
Defined.

(** Register 15 as the destination.  When the decoded destination index X
    is 15, the last store of 8xy4, 8xy5 and 8xy7 overwrites the flag written
    earlier in the operation.  After 8Fy4 register 15 holds the truncated
    sum of the two registers.  In 8Fy5 and 8Fy7 the flag register is cleared
    before the operands are read, so the operand read from register 15 is
    the cleared flag: 8Fy5 leaves [(0 - V[y]) mod 256], and 8Fy7 leaves
    [V[y] - 1] when [V[y] > 0] and 0 otherwise; both leave 0 when Y is 15 as
    well. *)
Theorem flag_destination rnd opcode c :
  wf c ->
  Z.land opcode 0xF000 = 0x8000 -> field_x opcode = 15 ->
  let y := Z.to_nat (field_y opcode) in
  (Z.land opcode 0x000F = 0x0004 ->
   exists c', executeOpcode rnd opcode c = Ok tt c' /\
     V c' !!! 15%nat = (V c !!! 15%nat + V c !!! y) mod 256) /\
  (Z.land opcode 0x000F = 0x0005 ->
   exists c', executeOpcode rnd opcode c = Ok tt c' /\
     V c' !!! 15%nat =
       if decide (y = 15%nat) then 0 else (0 - V c !!! y) mod 256) /\
  (Z.land opcode 0x000F = 0x0007 ->
   exists c', executeOpcode rnd opcode c = Ok tt c' /\
     V c' !!! 15%nat =
       if decide (y = 15%nat) then 0
       else if V c !!! y >? 0 then V c !!! y - 1 else 0).
Proof.
  intros Hwf H1 Hx y.
  assert (15 < length (V c))%nat as Hlen.
  { rewrite (wf_V_len c Hwf). unfold RegisterCount. lia. }
  pose proof (wf_V_at c (field_y opcode) Hwf (field_y_bound _)) as Hy.
  fold y in Hy. unfold is_u8 in Hy.
  assert (forall (l : list Z) v, length l = length (V c) ->
            <[15%nat := v]> l !!! 15%nat = v) as Hins.
  { intros l v El. apply list_lookup_total_insert_eq. lia. }
  split; [|split]; intros H2.
  - eexists. split; [apply (exec_8xy4 rnd opcode c Hwf H1 H2)|].
    fields. rewrite Hx. change (Z.to_nat 15) with 15%nat.
    apply Hins. by rewrite length_insert.
  - eexists. split; [apply (exec_8xy5 rnd opcode c H1 H2)|].
    fields. rewrite Hx. change (Z.to_nat 15) with 15%nat. fold y.
    unfold u8. destruct (decide (y = 15%nat)) as [->|Hne].
    + rewrite !Hins by (by rewrite ?length_insert). reflexivity.
    + rewrite !(list_lookup_total_insert_ne _ 15 y) by lia.
      rewrite !Hins by (by rewrite ?length_insert).
      assert ((0 >? (V c !!! y)) = false) as -> by lia.
      rewrite ?Hins by (by rewrite ?length_insert). reflexivity.
  - eexists. split; [apply (exec_8xy7 rnd opcode c H1 H2)|].
    fields. rewrite Hx. change (Z.to_nat 15) with 15%nat. fold y.
    unfold u8. destruct (decide (y = 15%nat)) as [->|Hne].
    + rewrite !Hins by (by rewrite ?length_insert). reflexivity.
    + rewrite !(list_lookup_total_insert_ne _ 15 y) by lia.
      rewrite !Hins by (by rewrite ?length_insert).
      destruct (V c !!! y >? 0) eqn:E.
      * rewrite ?Hins by (by rewrite ?length_insert).
        apply Z.mod_small. lia.
      * rewrite ?Hins by (by rewrite ?length_insert).
        replace (V c !!! y) with 0 by lia. reflexivity.
Qed.

Lemma flag_destination_witness :
  wf flag_sub_example /\
  exists c', executeOpcode 0 0x8F05 flag_sub_example = Ok tt c' /\
    V c' !!! 15%nat = 253.
Proof.
  assert (wf flag_sub_example) as Hwf
    by (apply wfb_wf; vm_compute; reflexivity).
  split; [exact Hwf|].
  destruct (flag_destination 0 0x8F05 flag_sub_example Hwf)
    as (_ & H5 & _); [reflexivity | reflexivity |].
  destruct H5 as (c' & Hc & Hv); [reflexivity|].
  exists c'. split; [exact Hc|]. rewrite Hv. reflexivity.
Defined.

(** C10 fails on the code for the two subtractions.  After [6F0A], [6003]
    and [8F05] on a new machine, register 15 holds 253 and not the truncated
    difference [10 - 3 = 7]: [8xy5] and [8xy7] clear the flag register
    before they read their operands, so with X = 15 the value of register 15
    is lost before the subtraction.  In general, for Y other than 15,
    [8Fy5] leaves [(0 - V[y]) mod 256], which is not the truncated
    difference unless register 15 held 0, and [8Fy7] leaves [V[y] - 1] (0
    when [V[y] = 0]), which for [V[y] > 0] is not the truncated difference
    unless register 15 held 1.  Only [8Fy4], which forms the sum before it
    writes the flag, leaves the truncated result. *)
Theorem flag_clear_precedes_operands :
  (exists c2 c',
     steps [0; 0] flag_rom_example = Ok tt c2 /\
     V c2 !!! 15%nat = 10 /\ V c2 !!! 0%nat = 3 /\
     fetch c2 = Ok 0x8F05 c2 /\ field_x 0x8F05 = 15 /\ field_y 0x8F05 = 0 /\
     EmulateCycle 0 c2 = Ok tt c' /\
     u8 (V c2 !!! 15%nat - V c2 !!! 0%nat) = 7 /\
     V c' !!! 15%nat = 253) /\
  (forall rnd opcode c,
     wf c -> Z.land opcode 0xF000 = 0x8000 -> field_x opcode = 15 ->
     field_y opcode <> 15 ->
     let y := Z.to_nat (field_y opcode) in
     (Z.land opcode 0x000F = 0x0004 ->
      exists c', executeOpcode rnd opcode c = Ok tt c' /\
        V c' !!! 15%nat = u8 (V c !!! 15%nat + V c !!! y)) /\
     (Z.land opcode 0x000F = 0x0005 ->
      exists c', executeOpcode rnd opcode c = Ok tt c' /\
        V c' !!! 15%nat = u8 (0 - V c !!! y) /\
        (V c !!! 15%nat <> 0 ->
         V c' !!! 15%nat <> u8 (V c !!! 15%nat - V c !!! y))) /\
     (Z.land opcode 0x000F = 0x0007 ->
      exists c', executeOpcode rnd opcode c = Ok tt c' /\
        V c' !!! 15%nat = (if V c !!! y >? 0 then V c !!! y - 1 else 0) /\
        (0 < V c !!! y -> V c !!! 15%nat <> 1 ->
         V c' !!! 15%nat <> u8 (V c !!! y - V c !!! 15%nat)))).
Proof.
  split.
  - do 2 eexists. split; [vm_compute; reflexivity|].
    repeat split; vm_compute; reflexivity.
  - intros rnd opcode c Hwf H1 Hx Hy y.
    destruct (flag_destination rnd opcode c Hwf H1 Hx) as (H4 & H5 & H7).
    fold y in H4, H5, H7.
    assert (y <> 15%nat) as Hy'.
    { pose proof (field_y_bound opcode). subst y. lia. }
    pose proof (wf_V_at c (field_y opcode) Hwf (field_y_bound _)) as Hvy.
    pose proof (wf_V_at c 15 Hwf ltac:(lia)) as Hvf.
    change (Z.to_nat 15) with 15%nat in Hvf.
    fold y in Hvy. unfold is_u8 in *.
    split; [|split]; intros Hn.
    + exact (H4 Hn).
    + destruct (H5 Hn) as (c' & He & Hv). exists c'. split; [exact He|].
      rewrite decide_False in Hv by done. split; [exact Hv|].
      intros Hne. rewrite Hv. unfold u8. intros E.
      apply (f_equal (fun z => (z + V c !!! y) mod 256)) in E.
      rewrite !Zplus_mod_idemp_l in E.
      replace (0 - V c !!! y + V c !!! y) with 0 in E by lia.
      replace (V c !!! 15%nat - V c !!! y + V c !!! y)
        with (V c !!! 15%nat) in E by lia.
      rewrite Z.mod_0_l, Z.mod_small in E by lia. lia.
    + destruct (H7 Hn) as (c' & He & Hv). exists c'. split; [exact He|].
      rewrite decide_False in Hv by done. split; [exact Hv|].
      intros Hpos Hne. rewrite Hv. unfold u8.
      assert ((V c !!! y >? 0) = true) as -> by lia.
      intros E'.
      assert ((V c !!! y - 1) mod 256 = V c !!! y - 1) as Es
        by (apply Z.mod_small; lia).
      rewrite <- Es in E'.
      apply (f_equal (fun z => (z + V c !!! 15%nat) mod 256)) in E'.
      rewrite !Zplus_mod_idemp_l in E'.
      replace (V c !!! y - V c !!! 15%nat + V c !!! 15%nat)
        with (V c !!! y) in E' by lia.
      rewrite (Z.mod_small (V c !!! y)) in E' by lia.
      destruct (decide (V c !!! y - 1 + V c !!! 15%nat < 256)).
      * rewrite Z.mod_small in E' by lia. lia.
      * assert ((V c !!! y - 1 + V c !!! 15%nat) mod 256 =
                V c !!! y - 1 + V c !!! 15%nat - 256) as Em.
        { symmetry. apply (Z.mod_unique _ _ 1); lia. }
        lia.
Qed.

(** ** Rules for [triple] *)

Lemma triple_ret {A} P (a : A) (Q : A -> Prop) : Q a -> triple P (ret a) Q.
Proof. intros Ha c Hc. by split. Qed.

Lemma triple_bind {A B} P (m : M A) (k : A -> M B) Q R :
  triple P m Q -> (forall a, Q a -> triple P (k a) R) ->
  triple P (bind m k) R.
Proof.
  intros Hm Hk c Hc. unfold bind. specialize (Hm c Hc).
  destruct (m c) as [a c'|c']; [|done].
  destruct Hm as [Hc' Ha]. by apply Hk.
Qed.

Lemma triple_weaken {A} P (m : M A) (Q Q' : A -> Prop) :
  triple P m Q -> (forall a, Q a -> Q' a) -> triple P m Q'.
Proof.
  intros Hm HQ c Hc. specialize (Hm c Hc).
  destruct (m c); [|done]. destruct Hm. auto.
Qed.

Lemma triple_gets {A} P (f : Chip8 -> A) (Q : A -> Prop) :
  (forall c, P c -> Q (f c)) -> triple P (gets f) Q.
Proof. intros Hf c Hc. split; auto. Qed.

Lemma triple_modify P (f : Chip8 -> Chip8) :
  (forall c, P c -> P (f c)) -> triple P (modify f) any.
Proof. intros Hf c Hc. split; [auto|done]. Qed.

Lemma triple_at_index {A} `{Inhabited A} P (arr : Chip8 -> list A) size i
    (Q : A -> Prop) :
  (forall c, P c -> i < size -> Q (arr c !!! Z.to_nat i)) ->
  triple P (at_index arr size i) Q.
Proof.
  intros Hq c Hc. unfold at_index. destruct (i <? size) eqn:E; [|done].
  split; [done|]. apply Hq; [done|lia].
Qed.

Lemma triple_assign_index {A} P (arr : Chip8 -> list A) set size i (v : A) :
  (forall c, P c -> i < size -> P (set (<[Z.to_nat i := v]> (arr c)) c)) ->
  triple P (assign_index arr set size i v) any.
Proof.
  intros Hp c Hc. unfold assign_index. destruct (i <? size) eqn:E; [|done].
  split; [|done]. apply Hp; [done|lia].
Qed.

Lemma triple_for_each P (l : list Z) (body : Z -> M unit) :
  (forall i, i ∈ l -> triple P (body i) any) ->
  triple P (for_each l body) any.
Proof.
  induction l as [|i l IH]; intros Hb; simpl.
  - by apply triple_ret.
  - eapply triple_bind; [apply Hb; by left|]. intros _ _.
    apply IH. intros j Hj. apply Hb. by right.
Qed.

Lemma triple_scan_keys P x (l : list Z) :
  (forall i, triple P (V_assign x (u8 i)) any) ->
  triple P (scan_keys x l) any.
Proof.
  intros Hv. induction l as [|i l IH]; simpl.
  - by apply triple_ret.
  - eapply (triple_bind _ _ _ any); [by apply triple_at_index|].
    intros [] _; [|exact IH].
    eapply triple_bind; [apply Hv|]. intros _ _. by apply triple_ret.
Qed.

(** ** What an operation can change *)

Ltac decode_contradiction E :=
  exfalso;
  repeat match goal with
         | H : Z.land _ _ = _ |- _ => rewrite H in E; clear H
         end;
  vm_compute in E; discriminate E.

Ltac frame_side :=
  cbv beta;
  lazymatch goal with
  | |- ?P (set_memory _ _) =>
      lazymatch goal with
      | H : _ \/ (forall c v, P c -> P (set_memory v c)) |- _ =>
          destruct H as [E|H]; [decode_contradiction E | by apply H]
      end
  | |- ?P (set_delayTimer _ _) =>
      lazymatch goal with
      | H : _ \/ (forall c v, P c -> P (set_delayTimer v c)) |- _ =>
          destruct H as [E|H]; [decode_contradiction E | by apply H]
      end
  | |- ?P (set_soundTimer _ _) =>
      lazymatch goal with
      | H : _ \/ (forall c v, P c -> P (set_soundTimer v c)) |- _ =>
          destruct H as [E|H]; [decode_contradiction E | by apply H]
      end
  | |- _ => by eauto
  end.

Ltac frame_step :=
  lazymatch goal with
  | |- triple _ (bind _ _) _ =>
      eapply (triple_bind _ _ _ any); [|intros ? _]
  | |- triple _ (ret _) _ => by apply triple_ret
  | |- triple _ (gets _) _ => by apply triple_gets
  | |- triple _ (at_index _ _ _) _ => by apply triple_at_index
  | |- triple _ (modify _) _ => apply triple_modify; intros ? ?; frame_side
  | |- triple _ (assign_index _ _ _ _ _) _ =>
      apply triple_assign_index; intros ? ? _; frame_side
  | |- triple _ (for_each _ _) _ => apply triple_for_each; intros ? _
  | |- triple _ (scan_keys _ _) _ =>
      apply triple_scan_keys; intros ?; unfold V_assign
  | |- triple _ (if ?b then _ else _) _ => destruct b
  end.

Lemma executeOpcode_frame P rnd opcode :
  stable P ->
  (is_store opcode = false \/ forall c v, P c -> P (set_memory v c)) ->
  (is_Fx15 opcode = false \/ forall c v, P c -> P (set_delayTimer v c)) ->
  (is_Fx18 opcode = false \/ forall c v, P c -> P (set_soundTimer v c)) ->
  triple P (executeOpcode rnd opcode) any.
Proof.
  intros [HV HI HPC Hst HSP Hd Hf] Hmem Hdt Hsnd.
  unfold is_store, is_Fx15, is_Fx18 in *.
  unfold executeOpcode, drawSprite. cbv zeta. unfold_ops. unfold advance.
  repeat case_match; repeat frame_step.
Qed.

(** ** Well-formedness is an invariant *)

Lemma is_u8_u8 z : is_u8 (u8 z).
Proof. unfold is_u8, u8. apply Z.mod_pos_bound. lia. Qed.

Lemma is_u16_u16 z : is_u16 (u16 z).
Proof. unfold is_u16, u16. apply Z.mod_pos_bound. lia. Qed.

Lemma is_u8_mod_256 z : is_u8 z -> z = z mod 256.
Proof. unfold is_u8. intros. symmetry. by apply Z.mod_small. Qed.

Lemma is_u8_land_l a b : is_u8 a -> is_u8 (Z.land a b).
Proof.
  intros Ha. rewrite (is_u8_mod_256 a Ha).
  change 256 with (2 ^ 8). rewrite <- Z.land_ones by lia.
  rewrite <- Z.land_assoc, (Z.land_comm (Z.ones 8)), Z.land_assoc.
  rewrite Z.land_ones by lia. apply is_u8_u8.
Qed.

Lemma is_u8_land_r a b : is_u8 b -> is_u8 (Z.land a b).
Proof. rewrite Z.land_comm. apply is_u8_land_l. Qed.

Lemma is_u8_lor a b : is_u8 a -> is_u8 b -> is_u8 (Z.lor a b).
Proof.
  intros Ha Hb. rewrite (is_u8_mod_256 a Ha), (is_u8_mod_256 b Hb).
  change 256 with (2 ^ 8). rewrite <- !Z.land_ones by lia.
  rewrite <- Z.land_lor_distr_l, Z.land_ones by lia. apply is_u8_u8.
Qed.

Lemma is_u8_lxor a b : is_u8 a -> is_u8 b -> is_u8 (Z.lxor a b).
Proof.
  unfold is_u8. intros Ha Hb.
  assert (forall z, 0 <= z < 256 -> Z.log2 z < 8) as Hlog.
  { intros z Hz. destruct (decide (z = 0)) as [->|]; [done|].
    apply Z.log2_lt_pow2; lia. }
  split; [apply Z.lxor_nonneg; lia|].
  destruct (decide (Z.lxor a b <= 0)); [lia|].
  change 256 with (2 ^ 8). apply Z.log2_lt_pow2; [lia|].
  pose proof (Z.log2_lxor a b). pose proof (Hlog a Ha). pose proof (Hlog b Hb).
  lia.
Qed.

Lemma is_u8_shiftr a n : 0 <= n -> is_u8 a -> is_u8 (Z.shiftr a n).
Proof.
  unfold is_u8. intros Hn Ha. rewrite Z.shiftr_div_pow2 by done.
  assert (0 < 2 ^ n) by (apply Z.pow_pos_nonneg; lia).
  split; [apply Z.div_pos; lia|].
  apply Z.div_lt_upper_bound; [lia|]. nia.
Qed.

Lemma is_u8_div a b : 0 < b -> is_u8 a -> is_u8 (a / b).
Proof.
  unfold is_u8. intros Hb Ha. split; [apply Z.div_pos; lia|].
  apply Z.div_lt_upper_bound; [lia|]. nia.
Qed.

Lemma is_u8_mod a b : 0 < b <= 256 -> is_u8 (a mod b).
Proof. unfold is_u8. intros Hb. pose proof (Z.mod_pos_bound a b). lia. Qed.

Lemma is_bit_lxor_1 p : is_bit p -> is_bit (Z.lxor p 1).
Proof. intros [-> | ->]; [by right | by left]. Qed.

Lemma is_u8_field_kk opcode : is_u8 (field_kk opcode).
Proof. apply field_kk_bound. Qed.

Lemma is_u16_field_nnn opcode : is_u16 (field_nnn opcode).
Proof. pose proof (field_nnn_bound opcode). unfold is_u16. lia. Qed.

Lemma wf_set_memory c i v :
  wf c -> is_u8 v -> wf (set_memory (<[i := v]> (memory c)) c).
Proof.
  intros [] Hv. constructor; fields; try done.
  - by rewrite length_insert.
  - by apply Forall_insert.
Qed.

Lemma wf_set_V c i v : wf c -> is_u8 v -> wf (set_V (<[i := v]> (V c)) c).
Proof.
  intros [] Hv. constructor; fields; try done.
  - by rewrite length_insert.
  - by apply Forall_insert.
Qed.

Lemma wf_set_stack c i v :
  wf c -> is_u16 v -> wf (set_stack (<[i := v]> (stack c)) c).
Proof.
  intros [] Hv. constructor; fields; try done.
  - by rewrite length_insert.
  - by apply Forall_insert.
Qed.

Lemma wf_set_display c i v :
  wf c -> is_bit v -> wf (set_display (<[i := v]> (display c)) c).
Proof.
  intros [] Hv. constructor; fields; try done.
  - by rewrite length_insert.
  - by apply Forall_insert.
Qed.

Lemma wf_clear_display c :
  wf c -> wf (set_display ((fun _ => 0) <$> display c) c).
Proof.
  intros []. constructor; fields; try done.
  - by rewrite length_fmap.
  - apply Forall_fmap, Forall_true. intros p. by left.
Qed.

Lemma wf_set_I c v : wf c -> is_u16 v -> wf (set_I v c).
Proof. intros Hwf Hv. destruct Hwf. constructor; fields; assumption. Qed.

Lemma wf_set_PC c v : wf c -> is_u16 v -> wf (set_PC v c).
Proof. intros Hwf Hv. destruct Hwf. constructor; fields; assumption. Qed.

Lemma wf_set_SP c v : wf c -> is_u8 v -> wf (set_SP v c).
Proof. intros Hwf Hv. destruct Hwf. constructor; fields; assumption. Qed.

Lemma wf_set_delayTimer c v : wf c -> is_u8 v -> wf (set_delayTimer v c).
Proof. intros Hwf Hv. destruct Hwf. constructor; fields; assumption. Qed.

Lemma wf_set_soundTimer c v : wf c -> is_u8 v -> wf (set_soundTimer v c).
Proof. intros Hwf Hv. destruct Hwf. constructor; fields; assumption. Qed.

Lemma wf_set_drawFlag c v : wf c -> wf (set_drawFlag v c).
Proof. intros Hwf. destruct Hwf. constructor; fields; assumption. Qed.

Lemma wf_set_keys c i v : wf c -> wf (set_keys (<[i := v]> (keys c)) c).
Proof.
  intros []. constructor; fields; try done. by rewrite length_insert.
Qed.

Lemma wf_stack_at c i : wf c -> 0 <= i < 16 -> is_u16 (stack c !!! Z.to_nat i).
Proof.
  intros Hwf Hi. apply Forall_lookup_total_1; [apply Hwf|].
  rewrite (wf_stack_len c Hwf). unfold StackSize. lia.
Qed.

Lemma wf_display_at c i :
  wf c -> 0 <= i < 2048 -> is_bit (display c !!! Z.to_nat i).
Proof.
  intros Hwf Hi. apply Forall_lookup_total_1; [apply Hwf|].
  rewrite (wf_display_len c Hwf). unfold ScreenWidth, ScreenHeight. lia.
Qed.

(** An index that passed the bounds check names an element, whatever its
    sign: [Z.to_nat] sends a negative index to 0. *)
Lemma Forall_at {A} `{Inhabited A} (P : A -> Prop) (l : list A) size i :
  Forall P l -> length l = Z.to_nat size -> 0 < size -> i < size ->
  P (l !!! Z.to_nat i).
Proof. intros Hl Hlen Hs Hi. apply Forall_lookup_total_1; [done|]. lia. Qed.

Ltac range :=
  first
    [ assumption
    | apply is_u8_u8 | apply is_u16_u16
    | apply is_u8_field_kk | apply is_u16_field_nnn
    | apply is_u8_lor; range | apply is_u8_lxor; range
    | apply is_u8_land_l; range | apply is_u8_land_r; range
    | apply is_u8_shiftr; [lia | range]
    | apply is_u8_div; [lia | range]
    | apply is_u8_mod; lia
    | apply is_bit_lxor_1; range
    | unfold is_u8, is_u16, is_bit; lia ].

Ltac wf_read Q :=
  eapply (triple_bind _ _ _ Q);
  [ first
      [ apply triple_gets; intros ? Hw; apply Hw
      | apply triple_at_index; intros ? Hw ?;
        eapply Forall_at; [apply Hw | apply Hw | done | done]
      | by apply triple_at_index ]
  | intros ? ? ].

Ltac wf_step :=
  lazymatch goal with
  | |- triple wf (bind (gets PC) _) _ => wf_read is_u16
  | |- triple wf (bind (gets I) _) _ => wf_read is_u16
  | |- triple wf (bind (gets SP) _) _ => wf_read is_u8
  | |- triple wf (bind (gets delayTimer) _) _ => wf_read is_u8
  | |- triple wf (bind (gets soundTimer) _) _ => wf_read is_u8
  | |- triple wf (bind (at_index V _ _) _) _ => wf_read is_u8
  | |- triple wf (bind (at_index memory _ _) _) _ => wf_read is_u8
  | |- triple wf (bind (at_index stack _ _) _) _ => wf_read is_u16
  | |- triple wf (bind (at_index display _ _) _) _ => wf_read is_bit
  | |- triple wf (bind (at_index keys _ _) _) _ => wf_read (@any bool)
  | |- triple wf (bind _ _) _ =>
      eapply (triple_bind _ _ _ any); [|intros ? _]
  | |- triple wf (ret _) _ => by apply triple_ret
  | |- triple wf (modify _) _ =>
      apply triple_modify; intros ? ?; cbv beta;
      first [ apply wf_set_PC | apply wf_set_SP | apply wf_set_I
            | apply wf_set_delayTimer | apply wf_set_soundTimer
            | apply wf_set_drawFlag | apply wf_clear_display ];
      first [ assumption | range ]
  | |- triple wf (assign_index _ _ _ _ _) _ =>
      apply triple_assign_index; intros ? ? _;
      first [ apply wf_set_V | apply wf_set_memory | apply wf_set_stack
            | apply wf_set_display ];
      first [ assumption | range ]
  | |- triple wf (for_each _ _) _ => apply triple_for_each; intros ? _
  | |- triple wf (scan_keys _ _) _ =>
      apply triple_scan_keys; intros ?; unfold V_assign
  | |- triple wf (if ?b then _ else _) _ => destruct b
  end.

Lemma executeOpcode_wf rnd opcode : triple wf (executeOpcode rnd opcode) any.
Proof.
  unfold executeOpcode, drawSprite. cbv zeta. unfold_ops. unfold advance.
  repeat case_match; repeat wf_step.
Qed.

Lemma fetch_wf : triple wf fetch any.
Proof. unfold fetch. unfold_ops. repeat wf_step. Qed.

Lemma update_timers_wf : triple wf update_timers any.
Proof. unfold update_timers. repeat wf_step. Qed.

Lemma EmulateCycle_wf rnd : triple wf (EmulateCycle rnd) any.
Proof.
  unfold EmulateCycle.
  eapply triple_bind; [apply fetch_wf|]. intros opcode _.
  eapply triple_bind; [apply executeOpcode_wf|]. intros _ _.
  apply update_timers_wf.
Qed.

Lemma steps_wf rnds : triple wf (steps rnds) any.
Proof. apply triple_for_each. intros rnd _. apply EmulateCycle_wf. Qed.

Lemma LoadROM_wf rom c :
  Forall is_u8 rom -> wf c -> wf (snd (LoadROM rom c)).
Proof.
  intros Hrom Hwf. unfold LoadROM. case_match; [done|]. simpl.
  destruct Hwf. constructor; fields; try done.
  - unfold copy_slice. rewrite !length_app, !length_take, length_drop. lia.
  - unfold copy_slice. repeat apply Forall_app_2;
      auto using Forall_take, Forall_drop.
Qed.

Lemma SetKey_wf key pressed c : wf c -> wf (SetKey key pressed c).
Proof. intros Hwf. unfold SetKey. case_match; [|done]. by apply wf_set_keys. Qed.

Lemma DrawFlag_wf c : wf c -> wf (snd (DrawFlag c)).
Proof. apply wf_set_drawFlag. Qed.

Lemma reachable_wf c : reachable c -> wf c.
Proof.
  induction 1 as [|rom c Hrom _ IH|key pressed c _ IH|c _ IH
                  |rnd c c' _ IH Hc].
  - apply wf_New.
  - by apply LoadROM_wf.
  - by apply SetKey_wf.
  - by apply DrawFlag_wf.
  - pose proof (EmulateCycle_wf rnd c IH) as Hw. rewrite Hc in Hw. apply Hw.
Qed.

(** ** Call and return *)

Lemma exec_2nnn rnd opcode c :
  Z.land opcode 0xF000 = 0x2000 -> SP c < 16 ->
  executeOpcode rnd opcode c =
    Ok tt (set_PC (field_nnn opcode)
            (set_SP (u8 (SP c + 1))
               (set_stack (<[Z.to_nat (SP c) := PC c]> (stack c)) c))).
Proof.
  intros H1 Hsp. unfold executeOpcode. rewrite H1. cbv zeta.
  exec. reflexivity.
Qed.

Lemma exec_00EE rnd c :
  u8 (SP c - 1) < 16 ->
  executeOpcode rnd 0x00EE c =
    Ok tt (set_PC (u16 (stack c !!! Z.to_nat (u8 (SP c - 1)) + 2))
            (set_SP (u8 (SP c - 1)) c)).
Proof.
  intros Hsp. unfold executeOpcode.
  change (Z.land 0x00EE 0xF000) with 0. cbv zeta iota.
  exec. reflexivity.
Qed.

(** C3: call and return.  In a state whose stack pointer is in range, a
    cycle on a call instruction [2nnn] stores the current program counter
    at the top of the stack, increments the stack pointer and sets the
    program counter to [nnn].  A later cycle on a return [00EE], in any
    state with that stack pointer and that stack entry, decrements the stack
    pointer and sets the program counter to the popped address plus 2: the
    address of the call plus 2. *)
Theorem call_return rnd opcode c :
  wf c -> SP c < 16 -> fetch c = Ok opcode c ->
  Z.land opcode 0xF000 = 0x2000 ->
  exists c1,
    EmulateCycle rnd c = Ok tt c1 /\
    stack c1 = <[Z.to_nat (SP c) := PC c]> (stack c) /\
    stack c1 !!! Z.to_nat (SP c) = PC c /\
    SP c1 = SP c + 1 /\
    PC c1 = field_nnn opcode /\
    forall rnd' c2,
      fetch c2 = Ok 0x00EE c2 ->
      SP c2 = SP c1 -> stack c2 !!! Z.to_nat (SP c) = PC c ->
      exists c3,
        EmulateCycle rnd' c2 = Ok tt c3 /\
        SP c3 = SP c /\ stack c3 = stack c2 /\ PC c3 = PC c + 2.
Proof.
  intros Hwf Hsp Hf H1.
  pose proof (wf_SP c Hwf) as Hsp0. unfold is_u8 in Hsp0.
  pose proof (wf_PC c Hwf) as Hpc0. unfold is_u16 in Hpc0.
  destruct (fetch_Ok _ _ _ Hf) as (_ & Hpc & _).
  assert (u8 (SP c + 1) = SP c + 1) as Esp
    by (unfold u8; apply Z.mod_small; lia).
  eexists. split;
    [exact (EmulateCycle_Ok _ _ _ _ Hf (exec_2nnn rnd opcode c H1 Hsp))|].
  unfold ticked. fields. rewrite Esp.
  split; [done|]. split.
  { apply list_lookup_total_insert_eq.
    rewrite (wf_stack_len c Hwf). unfold StackSize. lia. }
  split; [done|]. split; [done|].
  intros rnd' c2 Hf2 Hsp2 Hst2.
  assert (u8 (SP c2 - 1) = SP c) as Epop.
  { rewrite Hsp2. unfold u8. replace (SP c + 1 - 1) with (SP c) by lia.
    apply Z.mod_small. lia. }
  assert (u8 (SP c2 - 1) < 16) as Hpop by (rewrite Epop; lia).
  eexists. split;
    [exact (EmulateCycle_Ok _ _ _ _ Hf2 (exec_00EE rnd' c2 Hpop))|].
  unfold ticked. fields. rewrite Epop, Hst2.
  split; [done|]. split; [done|]. unfold u16. apply Z.mod_small. lia.
Qed.

Lemma call_return_witness :
  wf call_example /\ SP call_example < 16 /\
  exists c1 c3,
    EmulateCycle 0 call_example = Ok tt c1 /\ PC c1 = 0x400 /\ SP c1 = 1 /\
    EmulateCycle 0 c1 = Ok tt c3 /\ PC c3 = 0x202 /\ SP c3 = 0.
Proof.
  assert (wf call_example) as Hwf by (apply wfb_wf; vm_compute; reflexivity).
  split; [exact Hwf|]. split; [reflexivity|].
  destruct (call_return 0 0x2400 call_example Hwf)
    as (c1 & Hc1 & Hst & Htop & Hsp & Hpc & Hret);
    [reflexivity | vm_compute; reflexivity | reflexivity |].
  assert (c1 = set_PC 0x400 (set_SP 1 (set_stack (<[0%nat := 0x200]>
            (stack call_example)) call_example))) as Ec1.
  { assert (EmulateCycle 0 call_example = Ok tt (set_PC 0x400 (set_SP 1
              (set_stack (<[0%nat := 0x200]> (stack call_example))
                 call_example)))) as E by (vm_compute; reflexivity).
    rewrite E in Hc1. congruence. }
  destruct (Hret 0 c1) as (c3 & Hc3 & Hsp3 & _ & Hpc3).
  - rewrite Ec1. vm_compute. reflexivity.
  - reflexivity.
  - exact Htop.
  - exists c1, c3.
    split; [exact Hc1|]. split; [rewrite Hpc; reflexivity|].
    split; [rewrite Hsp; reflexivity|]. split; [exact Hc3|].
    split; [rewrite Hpc3; reflexivity | rewrite Hsp3; reflexivity].
Defined.

(** ** Key skips: Ex9E and ExA1 *)

Lemma exec_Ex9E rnd opcode c :
  Z.land opcode 0xF000 = 0xE000 -> Z.land opcode 0x00FF = 0x009E ->
  let vx := V c !!! Z.to_nat (field_x opcode) in
  executeOpcode rnd opcode c =
    if vx <? KeyCount then
      Ok tt (set_PC (u16 (PC c + if (keys c !!! Z.to_nat vx : bool) then 4 else 2)) c)
    else Panic c.
Proof.
  intros H1 H2 vx. unfold executeOpcode. rewrite H1, H2. cbv zeta.
  exec. fold vx. unfold bind, at_index.
  destruct (vx <? KeyCount); [|done]. by destruct (keys c !!! Z.to_nat vx).
Qed.

Lemma exec_ExA1 rnd opcode c :
  Z.land opcode 0xF000 = 0xE000 -> Z.land opcode 0x00FF = 0x00A1 ->
  let vx := V c !!! Z.to_nat (field_x opcode) in
  executeOpcode rnd opcode c =
    if vx <? KeyCount then
      Ok tt (set_PC (u16 (PC c + if (keys c !!! Z.to_nat vx : bool) then 2 else 4)) c)
    else Panic c.
Proof.
  intros H1 H2 vx. unfold executeOpcode. rewrite H1, H2. cbv zeta.
  exec. fold vx. unfold bind, at_index.
  destruct (vx <? KeyCount); [|done]. by destruct (keys c !!! Z.to_nat vx).
Qed.

(** C9: the key skips index the 16-entry [keys] array with the whole 8-bit
    value of register X, without a check of their own.  The operation
    returns exactly when [V[x] <= 15]; from 16 on the index is out of
    range and the operation panics, with the state as it was.  Such a state
    exists and is reachable. *)
Theorem key_skip_bounds :
  (forall (rnd opcode : Z) (c : Chip8),
     wf c -> Z.land opcode 0xF000 = 0xE000 ->
     Z.land opcode 0x00FF = 0x009E \/ Z.land opcode 0x00FF = 0x00A1 ->
     let vx := V c !!! Z.to_nat (field_x opcode) in
     (vx <= 15 ->
      exists c', executeOpcode rnd opcode c = Ok tt c' /\
                 is_Some ((keys c : list bool) !! Z.to_nat vx)) /\
     (16 <= vx ->
      executeOpcode rnd opcode c = Panic c /\
      (keys c : list bool) !! Z.to_nat vx = None)) /\
  (exists c,
     reachable c /\ 16 <= V c !!! Z.to_nat (field_x 0xE09E) /\
     executeOpcode 0 0xE09E c = Panic c /\
     executeOpcode 0 0xE0A1 c = Panic c).
Proof.
  split.
  - intros rnd opcode c Hwf H1 H2 vx.
    pose proof (wf_V_at c _ Hwf (field_x_bound opcode)) as Hvx.
    fold vx in Hvx. unfold is_u8 in Hvx.
    pose proof (wf_keys_len c Hwf) as Hk. unfold KeyCount in Hk.
    assert (executeOpcode rnd opcode c =
            if vx <? KeyCount then
              Ok tt (set_PC (u16 (PC c +
                if (if decide (Z.land opcode 0x00FF = 0x009E)
                    then (keys c !!! Z.to_nat vx : bool)
                    else negb (keys c !!! Z.to_nat vx))
                then 4 else 2)) c)
            else Panic c) as He.
    { destruct H2 as [H2|H2].
      - rewrite (exec_Ex9E rnd opcode c H1 H2). fold vx.
        rewrite decide_True by done. reflexivity.
      - rewrite (exec_ExA1 rnd opcode c H1 H2). fold vx.
        rewrite decide_False by (rewrite H2; done).
        by destruct (keys c !!! Z.to_nat vx). }
    unfold KeyCount in He. split; intros Hr.
    + assert ((vx <? 16) = true) as E by lia. rewrite E in He.
      eexists. split; [exact He|]. apply lookup_lt_is_Some. lia.
    + assert ((vx <? 16) = false) as E by lia. rewrite E in He.
      split; [exact He|]. apply lookup_ge_None. lia.
  - exists key_skip_reached. split; [|by vm_compute].
    apply (reach_EmulateCycle 0 (snd (LoadROM [0x60; 0x10] New))).
    + apply reach_LoadROM; [|constructor].
      repeat constructor; unfold is_u8; lia.
    + vm_compute. reflexivity.
Qed.

Lemma key_skip_bounds_witness :
  wf key_skip_example /\
  executeOpcode 0 0xE09E key_skip_example = Panic key_skip_example /\
  exists c', executeOpcode 0 0xE09E (with_V 0 15 key_skip_example) = Ok tt c'.
Proof.
  assert (wf key_skip_example) as Hwf
    by (apply wfb_wf; vm_compute; reflexivity).
  assert (wf (with_V 0 15 key_skip_example)) as Hwf'
    by (apply wfb_wf; vm_compute; reflexivity).
  split; [exact Hwf|]. split.
  - destruct (proj1 key_skip_bounds 0 0xE09E key_skip_example Hwf)
      as [_ Hp]; [reflexivity | left; reflexivity |].
    apply Hp. vm_compute. discriminate.
  - destruct (proj1 key_skip_bounds 0 0xE09E _ Hwf')
      as [Hok _]; [reflexivity | left; reflexivity |].
    destruct Hok as (c' & Hc' & _); [vm_compute; discriminate|].
    exists c'. exact Hc'.
Defined.

(** ** The blocking key wait: Fx0A *)

Lemma scan_keys_none x l c :
  (forall i, i ∈ l -> i < 16 /\ keys c !!! Z.to_nat i = false) ->
  scan_keys x l c = Ok false c.
Proof.
  induction l as [|i l IH]; intros Hl; simpl; [done|].
  destruct (Hl i) as [Hi Hk]; [by left|].
  unfold keys_at. exec. rewrite Hk. apply IH.
  intros j Hj. apply Hl. by right.
Qed.

Lemma scan_keys_first x l1 k l2 c :
  (forall i, i ∈ l1 -> i < 16 /\ keys c !!! Z.to_nat i = false) ->
  k < 16 -> keys c !!! Z.to_nat k = true -> x < 16 ->
  scan_keys x (l1 ++ k :: l2) c =
    Ok true (set_V (<[Z.to_nat x := u8 k]> (V c)) c).
Proof.
  intros Hl Hk Hp Hx. induction l1 as [|i l1 IH]; simpl.
  - unfold keys_at. exec. rewrite Hp. exec. reflexivity.
  - destruct (Hl i) as [Hi Hki]; [by left|].
    unfold keys_at. exec. rewrite Hki. apply IH.
    intros j Hj. apply Hl. by right.
Qed.

Lemma exec_Fx0A_wait rnd opcode c :
  Z.land opcode 0xF000 = 0xF000 -> Z.land opcode 0x00FF = 0x000A ->
  (forall i, 0 <= i < 16 -> keys c !!! Z.to_nat i = false) ->
  executeOpcode rnd opcode c = Ok tt c.
Proof.
  intros H1 H2 Hk. unfold executeOpcode. rewrite H1, H2. cbv zeta.
  assert (scan_keys (field_x opcode) (seqZ 0 16) c = Ok false c) as E.
  { apply scan_keys_none. intros i Hi%elem_of_seqZ.
    split; [lia|]. apply Hk. lia. }
  by rewrite (bind_Ok _ _ _ _ _ E).
Qed.

Lemma exec_Fx0A_key rnd opcode c k :
  Z.land opcode 0xF000 = 0xF000 -> Z.land opcode 0x00FF = 0x000A ->
  0 <= k < 16 -> keys c !!! Z.to_nat k = true ->
  (forall i, 0 <= i < k -> keys c !!! Z.to_nat i = false) ->
  executeOpcode rnd opcode c =
    Ok tt (set_PC (u16 (PC c + 2))
            (set_V (<[Z.to_nat (field_x opcode) := k]> (V c)) c)).
Proof.
  intros H1 H2 Hk Hp Hlow. unfold executeOpcode. rewrite H1, H2. cbv zeta.
  replace 16 with (k + (16 - k)) at 1 by lia.
  rewrite seqZ_app, (seqZ_cons (0 + k)) by lia.
  pose proof (field_x_bound opcode) as Hx.
  assert (scan_keys (field_x opcode)
            (seqZ 0 k ++ (0 + k) :: seqZ (Z.succ (0 + k)) (Z.pred (16 - k))) c
          = Ok true (set_V (<[Z.to_nat (field_x opcode) := u8 (0 + k)]> (V c))
                       c)) as E.
  { apply scan_keys_first; [|lia|done|lia].
    intros i Hi%elem_of_seqZ. split; [lia|]. apply Hlow. lia. }
  rewrite (bind_Ok _ _ _ _ _ E).
  exec. unfold u8. rewrite Z.mod_small by lia. reflexivity.
Qed.

Lemma fetch_ext c c' opcode :
  memory c' = memory c -> PC c' = PC c ->
  fetch c = Ok opcode c -> fetch c' = Ok opcode c'.
Proof.
  intros Hm Hpc.
  assert (forall s, fetch s =
            if PC s <? MemorySize then
              if u16 (PC s + 1) <? MemorySize then
                Ok (Z.lor (u16 (Z.shiftl (memory s !!! Z.to_nat (PC s)) 8))
                          (memory s !!! Z.to_nat (u16 (PC s + 1)))) s
              else Panic s
            else Panic s) as E.
  { intros s. unfold fetch, bind, gets, memory_at, at_index, ret.
    destruct (PC s <? MemorySize); [|reflexivity].
    destruct (u16 (PC s + 1) <? MemorySize); reflexivity. }
  rewrite !E, Hm, Hpc. repeat case_match; congruence.
Qed.

(** C7: the blocking key wait (Fx0A).  While no key is pressed, cycles
    leave the program counter (and the registers) where they are, so every
    following cycle fetches the same instruction again.  When a key is
    pressed, the cycle stores the lowest pressed index in the destination
    register and advances the program counter by 2. *)
Theorem key_wait rnd opcode c :
  wf c -> fetch c = Ok opcode c ->
  Z.land opcode 0xF000 = 0xF000 -> Z.land opcode 0x00FF = 0x000A ->
  let x := Z.to_nat (field_x opcode) in
  ((forall i, 0 <= i < 16 -> keys c !!! Z.to_nat i = false) ->
   forall rnds, exists c',
     steps rnds c = Ok tt c' /\
     PC c' = PC c /\ V c' = V c /\ fetch c' = Ok opcode c') /\
  (forall k,
     0 <= k < 16 -> keys c !!! Z.to_nat k = true ->
     (forall i, 0 <= i < k -> keys c !!! Z.to_nat i = false) ->
     exists c',
       EmulateCycle rnd c = Ok tt c' /\
       V c' = <[x := k]> (V c) /\ V c' !!! x = k /\ PC c' = PC c + 2).
Proof.
  intros Hwf Hf H1 H2 x. split.
  - intros Hk rnds. clear Hwf. revert c Hf Hk.
    induction rnds as [|r rnds IH]; intros c Hf Hk.
    + exists c. by repeat split.
    + pose proof (EmulateCycle_Ok r opcode c c Hf
                    (exec_Fx0A_wait r opcode c H1 H2 Hk)) as Hc.
      destruct (IH (ticked c)) as (c' & Hs & Hpc & Hv & Hf').
      * by apply (fetch_ext c).
      * exact Hk.
      * exists c'. split; [|by repeat split].
        unfold steps in *. simpl. by rewrite (bind_Ok _ _ _ _ _ Hc).
  - intros k Hk Hp Hlow.
    destruct (fetch_Ok _ _ _ Hf) as (_ & Hpc & _).
    pose proof (wf_PC c Hwf) as Hpc0. unfold is_u16 in Hpc0.
    pose proof (field_x_bound opcode) as Hx.
    eexists. split;
      [exact (EmulateCycle_Ok _ _ _ _ Hf
                (exec_Fx0A_key rnd opcode c k H1 H2 Hk Hp Hlow))|].
    unfold ticked. fields. split; [done|]. split.
    + apply list_lookup_total_insert_eq.
      rewrite (wf_V_len c Hwf). unfold RegisterCount. lia.
    + unfold u16. apply Z.mod_small. lia.
Qed.

Lemma key_wait_witness :
  wf key_wait_example /\ wf key_down_example /\
  (exists c', steps [0; 0; 0] key_wait_example = Ok tt c' /\ PC c' = 0x200) /\
  (exists c', EmulateCycle 0 key_down_example = Ok tt c' /\
              V c' !!! 3%nat = 5 /\ PC c' = 0x202).
Proof.
  assert (wf key_wait_example) as Hwf
    by (apply wfb_wf; vm_compute; reflexivity).
  assert (wf key_down_example) as Hwf'
    by (apply wfb_wf; vm_compute; reflexivity).
  split; [exact Hwf|]. split; [exact Hwf'|]. split.
  - destruct (key_wait 0 0xF30A key_wait_example Hwf) as [Hwait _];
      [vm_compute; reflexivity | reflexivity | reflexivity |].
    destruct (Hwait) with (rnds := [0; 0; 0]) as (c' & Hs & Hpc & _).
    + intros i Hi.
      assert (Forall (fun b => b = false) (keys key_wait_example)) as Hall
        by (vm_compute; repeat constructor).
      apply Forall_lookup_total_1; [exact Hall|].
      change (length (keys key_wait_example)) with 16%nat. lia.
    + exists c'. split; [exact Hs|]. rewrite Hpc. reflexivity.
  - destruct (key_wait 0 0xF30A key_down_example Hwf') as [_ Hkey];
      [vm_compute; reflexivity | reflexivity | reflexivity |].
    destruct (Hkey 5) as (c' & Hc & _ & Hv & Hpc).
    + lia.
    + vm_compute. reflexivity.
    + intros i Hi.
      assert (i = 0 \/ i = 1 \/ i = 2 \/ i = 3 \/ i = 4) as Hcases by lia.
      destruct Hcases as [->|[->|[->|[->| ->]]]]; vm_compute; reflexivity.
    + exists c'. split; [exact Hc|]. split; [exact Hv|].
      rewrite Hpc. reflexivity.
Defined.

(** ** The timers *)

Lemma EmulateCycle_inv rnd c c' :
  EmulateCycle rnd c = Ok tt c' ->
  exists opcode c1,
    fetch c = Ok opcode c /\ executeOpcode rnd opcode c = Ok tt c1 /\
    c' = ticked c1.
Proof.
  unfold EmulateCycle. unfold bind at 1.
  destruct (fetch c) as [opcode c0|] eqn:Hf; [|done].
  destruct (fetch_Ok _ _ _ Hf) as (-> & _).
  unfold bind at 1.
  destruct (executeOpcode rnd opcode c) as [[] c1|] eqn:He; [|done].
  rewrite update_timers_eq. intros [= <-]. by exists opcode, c1.
Qed.

Lemma executeOpcode_delayTimer rnd opcode c c1 :
  is_Fx15 opcode = false -> executeOpcode rnd opcode c = Ok tt c1 ->
  delayTimer c1 = delayTimer c.
Proof.
  intros Hop He.
  pose proof (executeOpcode_frame (fun s => delayTimer s = delayTimer c)
                rnd opcode) as Ht.
  specialize (Ht ltac:(by constructor) ltac:(by right) ltac:(by left)
                 ltac:(by right) c eq_refl).
  rewrite He in Ht. apply Ht.
Qed.

Lemma executeOpcode_soundTimer rnd opcode c c1 :
  is_Fx18 opcode = false -> executeOpcode rnd opcode c = Ok tt c1 ->
  soundTimer c1 = soundTimer c.
Proof.
  intros Hop He.
  pose proof (executeOpcode_frame (fun s => soundTimer s = soundTimer c)
                rnd opcode) as Ht.
  specialize (Ht ltac:(by constructor) ltac:(by right) ltac:(by right)
                 ltac:(by left) c eq_refl).
  rewrite He in Ht. apply Ht.
Qed.

Lemma decrement_u8 t :
  is_u8 t -> decrement t = (if t >? 0 then t - 1 else 0) /\
             0 <= decrement t <= t.
Proof.
  unfold is_u8, decrement, u8. intros Ht.
  destruct (t >? 0) eqn:E; [rewrite Z.mod_small by lia|]; lia.
Qed.

(** C8: the timers.  When the operation of a cycle has run, the cycle
    ends by taking 1 from each of [delayTimer] and [soundTimer] that is
    not 0 and leaving a timer at 0 where it is; no timer goes below 0 or
    wraps.  An operation other than Fx15 (Fx18) leaves the delay (sound)
    timer alone, so a delay timer at 2 reads 1, 0, 0 after three cycles
    none of which executes Fx15. *)
Theorem timers_tick :
  (forall (rnd opcode : Z) (c c1 : Chip8),
     wf c -> fetch c = Ok opcode c ->
     executeOpcode rnd opcode c = Ok tt c1 ->
     exists c',
       EmulateCycle rnd c = Ok tt c' /\
       delayTimer c' =
         (if delayTimer c1 >? 0 then delayTimer c1 - 1 else 0) /\
       soundTimer c' =
         (if soundTimer c1 >? 0 then soundTimer c1 - 1 else 0) /\
       0 <= delayTimer c' <= delayTimer c1 /\
       0 <= soundTimer c' <= soundTimer c1 /\
       (is_Fx15 opcode = false -> delayTimer c1 = delayTimer c) /\
       (is_Fx18 opcode = false -> soundTimer c1 = soundTimer c)) /\
  (forall (r1 r2 r3 : Z) (c c1 c2 c3 : Chip8),
     wf c -> delayTimer c = 2 ->
     EmulateCycle r1 c = Ok tt c1 ->
     EmulateCycle r2 c1 = Ok tt c2 ->
     EmulateCycle r3 c2 = Ok tt c3 ->
     (forall s opcode, s = c \/ s = c1 \/ s = c2 ->
        fetch s = Ok opcode s -> is_Fx15 opcode = false) ->
     delayTimer c1 = 1 /\ delayTimer c2 = 0 /\ delayTimer c3 = 0).
Proof.
  assert (forall rnd opcode c c1,
            wf c -> fetch c = Ok opcode c ->
            executeOpcode rnd opcode c = Ok tt c1 ->
            EmulateCycle rnd c = Ok tt (ticked c1) /\ wf c1 /\
            delayTimer (ticked c1) =
              (if delayTimer c1 >? 0 then delayTimer c1 - 1 else 0) /\
            soundTimer (ticked c1) =
              (if soundTimer c1 >? 0 then soundTimer c1 - 1 else 0) /\
            0 <= delayTimer (ticked c1) <= delayTimer c1 /\
            0 <= soundTimer (ticked c1) <= soundTimer c1) as Hstep.
  { intros rnd opcode c c1 Hwf Hf He.
    split; [by apply (EmulateCycle_Ok rnd opcode)|].
    pose proof (executeOpcode_wf rnd opcode c Hwf) as Hwf1.
    rewrite He in Hwf1. destruct Hwf1 as [Hwf1 _]. split; [done|].
    destruct (decrement_u8 _ (wf_delayTimer c1 Hwf1)) as [Ed Hd].
    destruct (decrement_u8 _ (wf_soundTimer c1 Hwf1)) as [Es Hs].
    unfold ticked. fields. auto. }
  assert (forall rnd c c', wf c -> EmulateCycle rnd c = Ok tt c' ->
            (forall opcode, fetch c = Ok opcode c -> is_Fx15 opcode = false) ->
            wf c' /\
            delayTimer c' =
              (if delayTimer c >? 0 then delayTimer c - 1 else 0)) as Hone.
  { intros rnd c c' Hwf Hc Hno.
    destruct (EmulateCycle_inv _ _ _ Hc) as (opcode & c1 & Hf & He & ->).
    destruct (Hstep rnd opcode c c1 Hwf Hf He) as (_ & Hwf1 & Ed & _).
    rewrite Ed, (executeOpcode_delayTimer rnd opcode c c1 (Hno _ Hf) He).
    split; [|done].
    pose proof (EmulateCycle_wf rnd c Hwf) as Hw. rewrite Hc in Hw.
    apply Hw. }
  split.
  - intros rnd opcode c c1 Hwf Hf He.
    destruct (Hstep rnd opcode c c1 Hwf Hf He) as (Hc & _ & Ed & Es & Hd & Hs).
    exists (ticked c1). repeat split; try done; try lia.
    + intros Hop. by apply (executeOpcode_delayTimer rnd opcode).
    + intros Hop. by apply (executeOpcode_soundTimer rnd opcode).
  - intros r1 r2 r3 c c1 c2 c3 Hwf Hdt H1 H2 H3 Hno.
    destruct (Hone r1 c c1 Hwf H1) as [Hwf1 E1];
      [intros op Hop; apply (Hno c op); [by left | exact Hop]|].
    destruct (Hone r2 c1 c2 Hwf1 H2) as [Hwf2 E2];
      [intros op Hop; apply (Hno c1 op); [by right; left | exact Hop]|].
    destruct (Hone r3 c2 c3 Hwf2 H3) as [_ E3];
      [intros op Hop; apply (Hno c2 op); [by right; right | exact Hop]|].
    rewrite Hdt in E1. simpl in E1. rewrite E1 in E2. simpl in E2.
    rewrite E2 in E3. simpl in E3. done.
Qed.

Lemma timers_tick_witness :
  wf timer_example /\
  exists c1 c2 c3,
    EmulateCycle 0 timer_example = Ok tt c1 /\
    EmulateCycle 0 c1 = Ok tt c2 /\
    EmulateCycle 0 c2 = Ok tt c3 /\
    delayTimer c1 = 1 /\ delayTimer c2 = 0 /\ delayTimer c3 = 0.
Proof.
  assert (wf timer_example) as Hwf by (apply wfb_wf; vm_compute; reflexivity).
  split; [exact Hwf|].
  assert (exists c1 c2 c3,
            EmulateCycle 0 timer_example = Ok tt c1 /\
            EmulateCycle 0 c1 = Ok tt c2 /\
            EmulateCycle 0 c2 = Ok tt c3 /\
            fetch timer_example = Ok 0x6000 timer_example /\
            fetch c1 = Ok 0x6000 c1 /\ fetch c2 = Ok 0x6000 c2)
    as (c1 & c2 & c3 & H1 & H2 & H3 & F0 & F1 & F2).
  { exists (final (EmulateCycle 0 timer_example)).
    exists (final (steps [0; 0] timer_example)).
    exists (final (steps [0; 0; 0] timer_example)).
    vm_compute. repeat split; reflexivity. }
  exists c1, c2, c3.
  split; [exact H1|]. split; [exact H2|]. split; [exact H3|].
  apply (proj2 timers_tick 0 0 0 timer_example c1 c2 c3 Hwf);
    [reflexivity | exact H1 | exact H2 | exact H3 |].
  intros s opcode Hs Hf.
  assert (opcode = 0x6000) as ->; [|reflexivity].
  destruct Hs as [Es|[Es|Es]]; rewrite Es in Hf; congruence.
Defined.

(** ** Loading a ROM *)

Lemma copy_slice_fits {A} (rom mem : list A) :
  Z.of_nat (length rom) <= 3584 ->
  copy_slice (Z.to_nat 0x200) (Z.to_nat MemorySize) rom mem =
    take 512 mem ++ rom ++ drop (512 + length rom) mem.
Proof.
  intros Hlen. unfold copy_slice, MemorySize.
  change (Z.to_nat 0x200) with 512%nat.
  replace (Nat.min (Z.to_nat 4096 - 512) (length rom)) with (length rom)
    by lia.
  by rewrite firstn_all.
Qed.

(** C2: [LoadROM] succeeds exactly when the ROM has at most 3584 bytes.  It
    then copies the bytes to memory from 0x200 on and changes nothing else;
    for a longer ROM it returns the error and leaves the whole state as it
    was.  A ROM of 3584 bytes loads, one of 3585 bytes does not. *)
Theorem LoadROM_size (rom : list Z) (c : Chip8) :
  wf c ->
  let len := Z.of_nat (length rom) in
  (fst (LoadROM rom c) = None <-> len <= 3584) /\
  (len <= 3584 ->
   exists c',
     LoadROM rom c = (None, c') /\
     c' = set_memory (memory c') c /\
     memory c' = take 512 (memory c) ++ rom ++
                 drop (512 + length rom) (memory c) /\
     length (memory c') = length (memory c) /\
     (forall i, (i < length rom)%nat ->
        (memory c' : list Z) !! (512 + i)%nat = rom !! i) /\
     (forall a, (a < 512 \/ 512 + length rom <= a)%nat ->
        (memory c' : list Z) !! a = memory c !! a)) /\
  (3584 < len -> LoadROM rom c = (Some (RomTooLarge len 3584), c)) /\
  (len = 3584 -> fst (LoadROM rom c) = None) /\
  (len = 3585 ->
   fst (LoadROM rom c) = Some (RomTooLarge 3585 3584) /\
   snd (LoadROM rom c) = c).
Proof.
  intros Hwf len.
  pose proof (wf_memory_len c Hwf) as Hmem. unfold MemorySize in Hmem.
  assert (len <= 3584 ->
          LoadROM rom c =
            (None, set_memory (take 512 (memory c) ++ rom ++
                               drop (512 + length rom) (memory c)) c)) as Hok.
  { intros Hlen. unfold LoadROM. fold len.
    assert ((len >? MemorySize - 0x200) = false) as ->
      by (unfold MemorySize; lia).
    by rewrite copy_slice_fits. }
  assert (3584 < len ->
          LoadROM rom c = (Some (RomTooLarge len 3584), c)) as Herr.
  { intros Hlen. unfold LoadROM. fold len.
    assert ((len >? MemorySize - 0x200) = true) as ->
      by (unfold MemorySize; lia).
    reflexivity. }
  split; [|split; [|split; [done|split]]].
  - split.
    + intros Hnone. destruct (Z.le_gt_cases len 3584) as [|Hgt]; [done|].
      rewrite Herr in Hnone by lia. done.
    + intros Hlen. by rewrite Hok.
  - intros Hlen. eexists. split; [by apply Hok|]. fields.
    split; [done|]. split; [done|].
    assert (length (take 512 (memory c)) = 512%nat) as Htake
      by (rewrite length_take; lia).
    split; [|split].
    + rewrite !length_app, Htake, length_drop. lia.
    + intros i Hi.
      rewrite lookup_app_r by lia. rewrite Htake.
      replace (512 + i - 512)%nat with i by lia.
      by rewrite lookup_app_l.
    + intros a [Ha|Ha].
      * rewrite lookup_app_l by lia. by rewrite lookup_take_lt.
      * rewrite lookup_app_r by lia. rewrite Htake.
        rewrite lookup_app_r by lia. rewrite lookup_drop. f_equal. lia.
  - intros Hlen. rewrite Hok by lia. done.
  - intros Hlen. rewrite Herr by lia. rewrite Hlen. done.
Qed.

Lemma LoadROM_size_witness :
  wf New /\
  fst (LoadROM rom_3584 New) = None /\
  fst (LoadROM rom_3585 New) = Some (RomTooLarge 3585 3584) /\
  snd (LoadROM rom_3585 New) = New.
Proof.
  split; [exact wf_New|].
  destruct (LoadROM_size rom_3584 New wf_New) as (_ & _ & _ & H4 & _).
  destruct (LoadROM_size rom_3585 New wf_New) as (_ & _ & _ & _ & H5).
  split.
  - apply H4. unfold rom_3584. rewrite length_replicate. reflexivity.
  - apply H5. unfold rom_3585. rewrite length_replicate. reflexivity.
Defined.

(** ** Memory below 0x200 *)

(** C1, as stated, fails: [Fx33] and [Fx55] store wherever [I] points.  On
    a fresh machine ([I = 0]) one cycle on [F033] replaces the first bytes
    of the font table, and so do two cycles on [6001 F055]. *)
Lemma low_memory_counterexample :
  reachable bcd_example /\ reachable block_store_example /\
  take 3 (memory bcd_example) = [0xF0; 0x90; 0x90] /\
  (exists c', EmulateCycle 0 bcd_example = Ok tt c' /\
              take 3 (memory c') = [0; 0; 0]) /\
  (exists c', steps [0; 0] block_store_example = Ok tt c' /\
              take 3 (memory c') = [1; 0x90; 0x90]).
Proof.
  split; [|split; [|split; [|split]]].
  - apply reach_LoadROM; [|constructor].
    repeat constructor; unfold is_u8; lia.
  - apply reach_LoadROM; [|constructor].
    repeat constructor; unfold is_u8; lia.
  - vm_compute. reflexivity.
  - eexists. split; vm_compute; reflexivity.
  - eexists. split; vm_compute; reflexivity.
Qed.

Lemma fetch_final c : final (fetch c) = c.
Proof.
  unfold fetch, bind, gets, memory_at, at_index, ret.
  destruct (PC c <? MemorySize); [|reflexivity].
  destruct (u16 (PC c + 1) <? MemorySize); reflexivity.
Qed.

Lemma is_store_cases opcode :
  is_store opcode = true ->
  Z.land opcode 0xF000 = 0xF000 /\
  (Z.land opcode 0x00FF = 0x0033 \/ Z.land opcode 0x00FF = 0x0055).
Proof. unfold is_store. lia. Qed.

(** Stores through an index register at or above 0x200. *)
Lemma store_low_memory rnd opcode c :
  is_u16 (I c) -> 0x200 <= I c -> is_store opcode = true ->
  low_memory (final (executeOpcode rnd opcode c)) = low_memory c.
Proof.
  intros HI Hlow [H1 H2]%is_store_cases. unfold is_u16 in HI.
  pose proof (field_x_bound opcode) as Hx.
  destruct (Z.le_gt_cases MemorySize (I c)) as [Hout|Hin].
  - (* the first store already panics *)
    unfold executeOpcode. rewrite H1. cbv zeta.
    destruct H2 as [-> | ->].
    + exec.
      by rewrite (bind_Panic _ _ _ _
                    (assign_index_Panic memory set_memory _ _ _ c Hout)).
    + rewrite seqZ_cons by lia. simpl for_each. exec.
      assert (MemorySize <= u16 (I c + 0)) as Hout'.
      { unfold u16. rewrite Z.add_0_r, Z.mod_small by lia. done. }
      by rewrite (bind_Panic _ _ _ _
                    (assign_index_Panic memory set_memory _ _ _ c Hout')).
  - (* every store lands at or above 0x200 *)
    unfold MemorySize in Hin.
    pose (P := fun s => low_memory s = low_memory c /\ I s = I c).
    assert (forall a v, 0x200 <= a ->
              triple P (memory_assign a v) any) as Hhigh.
    { intros a v Ha. apply triple_assign_index. intros s [Hs Hi] _.
      split; [|done]. unfold low_memory in *. fields.
      rewrite take_insert_ge; [done|lia]. }
    assert (forall k v, 0 <= k < 16 ->
              triple P (memory_assign (u16 (I c + k)) v) any) as Hst.
    { intros k v Hk. apply Hhigh.
      unfold u16. rewrite Z.mod_small by lia. lia. }
    assert (forall i v, triple P (V_assign i v) any) as HV
      by (intros i v; by apply triple_assign_index).
    assert (forall (k : Z -> M unit),
              (forall a, a = I c -> triple P (k a) any) ->
              triple P (bind (gets I) k) any) as HgetI.
    { intros k Hk. eapply (triple_bind _ _ _ (fun a => a = I c)); [|done].
      apply triple_gets. by intros s [_ Hs]. }
    assert (triple P (advance 2) any) as Hadv
      by (by apply triple_modify).
    assert (triple P (executeOpcode rnd opcode) any) as Ht.
    { unfold executeOpcode. rewrite H1. cbv zeta.
      destruct H2 as [-> | ->].
      - eapply (triple_bind _ _ _ any); [by apply triple_at_index|].
        intros vx _. apply HgetI. intros a ->.
        eapply triple_bind; [by apply Hhigh|].
        intros _ _.
        eapply (triple_bind _ _ _ any); [by apply triple_at_index|].
        intros vx' _. apply HgetI. intros a ->.
        eapply triple_bind; [by apply Hst|]. intros _ _.
        eapply (triple_bind _ _ _ any); [by apply triple_at_index|].
        intros vx'' _. apply HgetI. intros a ->.
        eapply triple_bind; [by apply Hst|]. intros _ _. exact Hadv.
      - eapply triple_bind; [|intros _ _; exact Hadv].
        apply triple_for_each. intros i Hi%elem_of_seqZ.
        eapply (triple_bind _ _ _ any); [by apply triple_at_index|].
        intros vi _. apply HgetI. intros a ->. apply Hst. lia. }
    specialize (Ht c (conj eq_refl eq_refl)).
    destruct (executeOpcode rnd opcode c); apply Ht.
Qed.

(** C1 (amended): [LoadROM], [SetKey] and [DrawFlag] leave memory below
    0x200 as it is, and so does every cycle, whether it returns or panics,
    unless it executes [Fx33] or [Fx55] with the index register below
    0x200.  In particular a cycle on any other opcode, and a store through
    an index register at or above 0x200, leave the font table unchanged. *)
Theorem low_memory_preserved (c : Chip8) :
  wf c ->
  (forall rom, low_memory (snd (LoadROM rom c)) = low_memory c) /\
  (forall key pressed, low_memory (SetKey key pressed c) = low_memory c) /\
  low_memory (snd (DrawFlag c)) = low_memory c /\
  (forall rnd,
     (forall opcode,
        fetch c = Ok opcode c -> is_store opcode = true -> 0x200 <= I c) ->
     low_memory (final (EmulateCycle rnd c)) = low_memory c /\
     take (Z.to_nat FontsetSize) (memory (final (EmulateCycle rnd c))) =
       take (Z.to_nat FontsetSize) (memory c)).
Proof.
  intros Hwf. split; [|split; [|split]].
  - intros rom. unfold LoadROM. case_match; [done|].
    unfold low_memory, copy_slice. cbn [snd]. fields.
    change (Z.to_nat 0x200) with 512%nat.
    rewrite take_app_le; [|rewrite length_take, (wf_memory_len c Hwf);
                           unfold MemorySize; lia].
    rewrite take_take. f_equal.
  - intros key pressed. unfold SetKey. by case_match.
  - done.
  - intros rnd Hst.
    assert (low_memory (final (EmulateCycle rnd c)) = low_memory c) as E.
    { unfold EmulateCycle. unfold bind at 1.
      destruct (fetch c) as [opcode c0|c0] eqn:Hf;
        [|by rewrite <- (fetch_final c), Hf].
      destruct (fetch_Ok _ _ _ Hf) as (-> & _).
      assert (low_memory (final (executeOpcode rnd opcode c)) = low_memory c)
        as He.
      { destruct (is_store opcode) eqn:Hop.
        - apply store_low_memory; [apply Hwf | by apply (Hst opcode) | done].
        - pose proof (executeOpcode_frame
                        (fun s => low_memory s = low_memory c) rnd opcode) as Ht.
          specialize (Ht ltac:(by constructor) ltac:(by left) ltac:(by right)
                         ltac:(by right) c eq_refl).
          destruct (executeOpcode rnd opcode c); apply Ht. }
      unfold bind. destruct (executeOpcode rnd opcode c) as [[] c1|c1];
        [|exact He].
      rewrite update_timers_eq. exact He. }
    split; [exact E|].
    unfold low_memory in E.
    change (Z.to_nat FontsetSize) with (80 `min` 512)%nat.
    by rewrite <- !take_take, E.
Qed.

Lemma low_memory_preserved_witness :
  wf high_store_example /\
  low_memory (final (EmulateCycle 0 high_store_example)) =
    low_memory high_store_example /\
  take 3 (drop 0x300 (memory (final (EmulateCycle 0 high_store_example)))) =
    [1; 5; 7].
Proof.
  assert (wf high_store_example) as Hwf
    by (apply wfb_wf; vm_compute; reflexivity).
  split; [exact Hwf|]. split; [|vm_compute; reflexivity].
  destruct (low_memory_preserved high_store_example Hwf) as (_ & _ & _ & H).
  apply (H 0). intros opcode _ _. vm_compute. discriminate.
Defined.

(** ** Drawing *)

Lemma sprite_pixel_bound xPos yPos row col :
  0 <= sprite_pixel xPos yPos row col < 256.
Proof. unfold sprite_pixel. apply is_u8_u8. Qed.

Lemma plot_memory c p : memory (plot c p) = memory c.
Proof. unfold plot. by case_match. Qed.

Lemma plot_I c p : I (plot c p) = I c.
Proof. unfold plot. by case_match. Qed.

Lemma foldl_plot_memory ps c : memory (foldl plot c ps) = memory c.
Proof.
  revert c. induction ps as [|p ps IH]; intros c; simpl; [done|].
  by rewrite IH, plot_memory.
Qed.

Lemma foldl_plot_I ps c : I (foldl plot c ps) = I c.
Proof.
  revert c. induction ps as [|p ps IH]; intros c; simpl; [done|].
  by rewrite IH, plot_I.
Qed.

(** The columns of one row. *)
Lemma draw_cols xPos yPos row spriteData (cols : list Z) c :
  for_each cols (fun col =>
    if negb (Z.land spriteData (Z.shiftr 0x80 col) =? 0) then
      let screenX := u8 (xPos + col) mod ScreenWidth in
      let screenY := u8 (yPos + row) mod ScreenHeight in
      let pixelIndex := u8 (u8 (screenY * ScreenWidth) + screenX) in
      let* p := display_at pixelIndex in
      (if p =? 1 then V_assign 0xF 1 else ret tt) >>
      let* p := display_at pixelIndex in
      display_assign pixelIndex (Z.lxor p 1)
    else ret tt) c =
  Ok tt (foldl plot c
           (omap (fun col => if bit_set spriteData col
                             then Some (sprite_pixel xPos yPos row col)
                             else None) cols)).
Proof.
  revert c. induction cols as [|col cols IH]; intros c; [done|].
  cbn [for_each omap list_omap]. fold (bit_set spriteData col).
  destruct (bit_set spriteData col).
  - cbv zeta. fold (sprite_pixel xPos yPos row col).
    pose proof (sprite_pixel_bound xPos yPos row col) as Hp.
    set (p := sprite_pixel xPos yPos row col) in *.
    cbn [foldl]. rewrite <- IH. unfold plot.
    exec. destruct (display c !!! Z.to_nat p =? 1); exec; reflexivity.
  - exec. apply IH.
Qed.

Lemma draw_row_Ok xPos yPos row c :
  u16 (I c + row) < MemorySize ->
  draw_row xPos yPos row c =
    Ok tt (foldl plot c
             (row_pixels xPos yPos row
                (memory c !!! Z.to_nat (u16 (I c + row))))).
Proof.
  intros Hrow. unfold draw_row, memory_at. unfold bind at 1, gets.
  rewrite (bind_Ok _ _ _ _ _ (at_index_Ok memory _ _ c Hrow)).
  apply draw_cols.
Qed.

Lemma draw_row_Panic xPos yPos row c :
  MemorySize <= u16 (I c + row) -> draw_row xPos yPos row c = Panic c.
Proof.
  intros Hrow. unfold draw_row, memory_at. unfold bind at 1, gets.
  by rewrite (bind_Panic _ _ _ _ (at_index_Panic memory _ _ c Hrow)).
Qed.

(** The rows, while the sprite bytes lie inside memory. *)
Lemma draw_rows xPos yPos (rows : list Z) c :
  (forall row, row ∈ rows -> u16 (I c + row) < MemorySize) ->
  for_each rows (draw_row xPos yPos) c =
  Ok tt (foldl plot c
           (mbind (M := list)
              (fun row => row_pixels xPos yPos row
                            (memory c !!! Z.to_nat (u16 (I c + row))))
              rows)).
Proof.
  revert c. induction rows as [|row rows IH]; intros c Hin; [done|].
  cbn [for_each]. rewrite bind_cons, foldl_app.
  assert (u16 (I c + row) < MemorySize) as Hrow by (apply Hin; by left).
  rewrite (bind_Ok _ _ _ _ _ (draw_row_Ok xPos yPos row c Hrow)).
  set (c1 := foldl plot c _).
  assert (memory c1 = memory c) as Em by apply foldl_plot_memory.
  assert (I c1 = I c) as Ei by apply foldl_plot_I.
  rewrite IH; [by rewrite Em, Ei|].
  intros r Hr. rewrite Ei. apply Hin. by right.
Qed.

(** The rows up to the first sprite byte outside memory. *)
Lemma draw_rows_Panic xPos yPos (rows : list Z) r rest c :
  (forall row, row ∈ rows -> u16 (I c + row) < MemorySize) ->
  MemorySize <= u16 (I c + r) ->
  for_each (rows ++ r :: rest) (draw_row xPos yPos) c =
  Panic (foldl plot c
           (mbind (M := list)
              (fun row => row_pixels xPos yPos row
                            (memory c !!! Z.to_nat (u16 (I c + row))))
              rows)).
Proof.
  revert c. induction rows as [|row rows IH]; intros c Hin Hout.
  - cbn [app for_each]. by rewrite (bind_Panic _ _ _ _
                                      (draw_row_Panic xPos yPos r c Hout)).
  - cbn [app for_each]. rewrite bind_cons, foldl_app.
    assert (u16 (I c + row) < MemorySize) as Hrow by (apply Hin; by left).
    rewrite (bind_Ok _ _ _ _ _ (draw_row_Ok xPos yPos row c Hrow)).
    set (c1 := foldl plot c _).
    assert (memory c1 = memory c) as Em by apply foldl_plot_memory.
    assert (I c1 = I c) as Ei by apply foldl_plot_I.
    rewrite IH; [by rewrite Em, Ei| |by rewrite Ei].
    intros r' Hr. rewrite Ei. apply Hin. by right.
Qed.

Lemma drawSprite_unfold x y height :
  drawSprite x y height =
    (V_assign 0xF 0 >>
     let* vx := V_at x in
     let* vy := V_at y in
     for_each (seqZ 0 height)
       (draw_row (vx mod ScreenWidth) (vy mod ScreenHeight)) >>
     modify (set_drawFlag true)).
Proof. reflexivity. Qed.

Lemma drawSprite_eq x y height c :
  x < 16 -> y < 16 ->
  (forall row, 0 <= row < height -> u16 (I c + row) < MemorySize) ->
  drawSprite x y height c =
    Ok tt (set_drawFlag true
             (foldl plot (set_V (<[15%nat := 0]> (V c)) c)
                (sprite_pixels c x y height))).
Proof.
  intros Hx Hy Hrows. rewrite drawSprite_unfold. unfold V_assign, V_at.
  exec1. exec1. exec1.
  set (c0 := set_V (<[Z.to_nat 15 := 0]> (V c)) c).
  assert (forall row, row ∈ seqZ 0 height -> u16 (I c0 + row) < MemorySize)
    as Hin by (intros row Hrow%elem_of_seqZ; apply Hrows; lia).
  rewrite (bind_Ok _ _ _ _ _ (draw_rows _ _ _ c0 Hin)).
  reflexivity.
Qed.

Lemma drawSprite_stop x y height h c :
  x < 16 -> y < 16 -> 0 <= h < height ->
  (forall row, 0 <= row < h -> u16 (I c + row) < MemorySize) ->
  MemorySize <= u16 (I c + h) ->
  drawSprite x y height c =
    Panic (foldl plot (set_V (<[15%nat := 0]> (V c)) c)
             (sprite_pixels c x y h)).
Proof.
  intros Hx Hy Hh Hrows Hout. rewrite drawSprite_unfold.
  unfold V_assign, V_at. exec1. exec1. exec1.
  set (c0 := set_V (<[Z.to_nat 15 := 0]> (V c)) c).
  replace height with (h + (height - h)) by lia.
  rewrite seqZ_app, (seqZ_cons (0 + h)) by lia. rewrite Z.add_0_l.
  assert (forall row, row ∈ seqZ 0 h -> u16 (I c0 + row) < MemorySize)
    as Hin by (intros row Hrow%elem_of_seqZ; apply Hrows; lia).
  by rewrite (bind_Panic _ _ _ _ (draw_rows_Panic _ _ _ _ _ c0 Hin Hout)).
Qed.

Lemma foldl_plot_eq ps c :
  foldl plot c ps =
    set_display (foldl toggle (display c) ps)
      (set_V (if collides (display c) ps
              then <[15%nat := 1]> (V c) else V c) c).
Proof.
  revert c. induction ps as [|p ps IH]; intros c; cbn [foldl collides].
  - by destruct c.
  - rewrite IH. unfold plot.
    destruct (display c !!! Z.to_nat p =? 1); fields; cbn [orb].
    + rewrite list_insert_insert_eq. by destruct (collides _ ps).
    + reflexivity.
Qed.

Lemma collides_spec d ps :
  collides d ps = true <->
  exists ps1 p ps2,
    ps = ps1 ++ p :: ps2 /\ foldl toggle d ps1 !!! Z.to_nat p = 1.
Proof.
  revert d. induction ps as [|p ps IH]; intros d; cbn [collides].
  - split; [done|]. intros (ps1 & q & ps2 & E & _). by destruct ps1.
  - rewrite orb_true_iff, IH. split.
    + intros [Hp|(ps1 & q & ps2 & -> & Hq)].
      * exists [], p, ps. split; [done|]. simpl. lia.
      * exists (p :: ps1), q, ps2. by split.
    + intros (ps1 & q & ps2 & E & Hq). destruct ps1 as [|p' ps1].
      * injection E as -> ->. left. simpl in Hq. lia.
      * injection E as -> ->. right. by exists ps1, q, ps2.
Qed.

Lemma row_pixels_single xPos yPos row k :
  0 <= k < 8 ->
  row_pixels xPos yPos row (Z.shiftr 0x80 k) = [sprite_pixel xPos yPos row k].
Proof.
  intros Hk.
  assert (k = 0 \/ k = 1 \/ k = 2 \/ k = 3 \/ k = 4 \/ k = 5 \/ k = 6 \/ k = 7)
    as Hcases by lia.
  destruct Hcases as [->|[->|[->|[->|[->|[->|[->| ->]]]]]]]; reflexivity.
Qed.

Lemma toggle_toggle d p :
  (Z.to_nat p < length d)%nat -> toggle (toggle d p) p = d.
Proof.
  intros Hp. unfold toggle.
  rewrite list_lookup_total_insert_eq by done.
  rewrite list_insert_insert_eq.
  rewrite Z.lxor_assoc. change (Z.lxor 1 1) with 0. rewrite Z.lxor_0_r.
  apply list_insert_id. by apply list_lookup_lookup_total_lt.
Qed.

(** A draw in closed form: the rows it completes, then the draw flag, or
    the panic on the first sprite byte outside memory. *)
Lemma draw_result x y height c :
  is_u16 (I c) -> x < 16 -> y < 16 -> 0 <= height ->
  let h := rows_drawn c height in
  let ps := sprite_pixels c x y h in
  let c' := set_display (foldl toggle (display c) ps)
              (set_V (<[15%nat := if collides (display c) ps then 1 else 0]>
                        (V c)) c) in
  drawSprite x y height c =
    if h <? height then Panic c' else Ok tt (set_drawFlag true c').
Proof.
  intros HI Hx Hy Hh h ps c'. unfold is_u16 in HI.
  assert (foldl plot (set_V (<[15%nat := 0]> (V c)) c) ps = c') as Ec'.
  { rewrite foldl_plot_eq. subst c'. fields.
    destruct (collides (display c) ps); [|reflexivity].
    by rewrite list_insert_insert_eq. }
  assert (forall row, 0 <= row < h -> u16 (I c + row) < MemorySize) as Hrows.
  { intros row Hrow. subst h. unfold rows_drawn, u16, MemorySize in *.
    rewrite Z.mod_small by lia. lia. }
  destruct (h <? height) eqn:E.
  - rewrite (drawSprite_stop x y height h c) by
      (try done; subst h; unfold rows_drawn, u16, MemorySize in *;
       rewrite ?Z.mod_small by lia; lia).
    fold ps. by rewrite Ec'.
  - assert (h = height) as Eh
      by (subst h; unfold rows_drawn in *; lia).
    rewrite drawSprite_eq by (try done; by rewrite <- Eh).
    rewrite <- Eh. fold ps. by rewrite Ec'.
Qed.

Lemma sprite_pixels_flag c v x y height :
  sprite_pixels (set_V (<[15%nat := v]> (V c)) c) x y height =
  sprite_pixels c x y height.
Proof. unfold sprite_pixels. fields. by rewrite list_insert_insert_eq. Qed.

Lemma drawSprite_flag x y height c v :
  drawSprite x y height (set_V (<[15%nat := v]> (V c)) c) =
  drawSprite x y height c.
Proof.
  unfold drawSprite. unfold V_assign. unfold bind at 1. symmetry.
  unfold bind at 1. unfold assign_index. fields.
  change (15 <? RegisterCount) with true. cbv iota.
  change (Z.to_nat 15) with 15%nat. rewrite list_insert_insert_eq.
  reflexivity.
Qed.

(** C4: the collision flag.  Every draw clears the flag register first,
    whatever it held; each sprite bit of value 1 then inverts the pixel it
    targets, and the flag register is set to 1 when that pixel was 1 just
    before its inversion; nothing in the draw clears the flag again, so it
    ends at 1 exactly when some visit found its pixel at 1.  This holds of
    the draws that return and of those that panic on a sprite byte outside
    memory, for the rows they complete.  Hence, for a sprite of one row and
    one bit: two draws at the same origin restore the pixel; onto a pixel
    that is on, the first draw reports 1 and turns it off, and the second
    (pixel 0 beforehand) reports 0; onto a pixel that is off, the first
    reports 0 and the second toggles it back off. *)
Theorem sprite_collision x y height c :
  wf c -> 0 <= x < 16 -> 0 <= y < 16 -> 0 <= height ->
  let h := rows_drawn c height in
  let ps := sprite_pixels c x y h in
  let flag := if collides (display c) ps then 1 else 0 in
  let c' := set_display (foldl toggle (display c) ps)
              (set_V (<[15%nat := flag]> (V c)) c) in
  (forall v, drawSprite x y height (set_V (<[15%nat := v]> (V c)) c) =
             drawSprite x y height c) /\
  drawSprite x y height c =
    (if h <? height then Panic c' else Ok tt (set_drawFlag true c')) /\
  V (final (drawSprite x y height c)) !!! 15%nat = flag /\
  (flag = 1 <->
   exists ps1 p ps2,
     ps = ps1 ++ p :: ps2 /\
     foldl toggle (display c) ps1 !!! Z.to_nat p = 1) /\
  (forall k,
     height = 1 -> I c < MemorySize -> 0 <= k < 8 ->
     memory c !!! Z.to_nat (I c) = Z.shiftr 0x80 k ->
     exists p c1 c2,
       ps = [p] /\
       drawSprite x y height c = Ok tt c1 /\
       drawSprite x y height c1 = Ok tt c2 /\
       display c1 = toggle (display c) p /\
       display c2 = display c /\
       (display c !!! Z.to_nat p = 1 ->
        V c1 !!! 15%nat = 1 /\ display c1 !!! Z.to_nat p = 0 /\
        V c2 !!! 15%nat = 0) /\
       (display c !!! Z.to_nat p = 0 ->
        V c1 !!! 15%nat = 0 /\ display c1 !!! Z.to_nat p = 1 /\
        V c2 !!! 15%nat = 1 /\ display c2 !!! Z.to_nat p = 0)).
Proof.
  intros Hwf Hx Hy Hh h ps flag c'.
  pose proof (wf_I c Hwf) as HI0.
  assert (15 < length (V c))%nat as Hlen.
  { rewrite (wf_V_len c Hwf). unfold RegisterCount. lia. }
  pose proof (draw_result x y height c HI0 (proj2 Hx) (proj2 Hy) Hh) as Hd.
  cbv zeta in Hd. fold h ps flag c' in Hd.
  split; [intros v; apply drawSprite_flag|].
  split; [exact Hd|]. split; [|split].
  - rewrite Hd. subst c'. destruct (h <? height); fields;
      by apply list_lookup_total_insert_eq.
  - rewrite <- collides_spec. subst flag.
    destruct (collides (display c) ps); split; congruence.
  - intros k -> HI Hk Hbyte. unfold is_u16 in HI0. unfold MemorySize in HI.
    assert (h = 1) as Eh by (subst h; unfold rows_drawn, MemorySize; lia).
    assert ((h <? 1) = false) as Elt by lia. rewrite Elt in Hd.
    set (V0 := <[15%nat := 0]> (V c)).
    set (p := sprite_pixel ((V0 !!! Z.to_nat x) mod ScreenWidth)
                           ((V0 !!! Z.to_nat y) mod ScreenHeight) 0 k).
    assert (ps = [p]) as Eps.
    { subst ps. rewrite Eh. unfold sprite_pixels. fold V0.
      change (seqZ 0 1) with [0]. rewrite bind_cons. cbn [mbind list_bind].
      rewrite app_nil_r.
      unfold u16. rewrite Z.add_0_r, (Z.mod_small (I c)) by lia.
      rewrite Hbyte. by apply row_pixels_single. }
    assert (Z.to_nat p < length (display c))%nat as Hp.
    { pose proof (sprite_pixel_bound ((V0 !!! Z.to_nat x) mod ScreenWidth)
                    ((V0 !!! Z.to_nat y) mod ScreenHeight) 0 k) as Hb.
      fold p in Hb. rewrite (wf_display_len c Hwf).
      unfold ScreenWidth, ScreenHeight. lia. }
    set (c1 := set_drawFlag true c') in *.
    assert (rows_drawn c1 1 = 1) as Eh1 by exact Eh.
    assert (sprite_pixels c1 x y 1 = [p]) as Eps'.
    { rewrite <- Eps. subst ps. rewrite Eh.
      apply (sprite_pixels_flag c flag). }
    pose proof (draw_result x y 1 c1 HI0 (proj2 Hx) (proj2 Hy) Hh) as Hd'.
    cbv zeta in Hd'. rewrite Eh1, Eps' in Hd'.
    change (1 <? 1) with false in Hd'. cbv iota in Hd'.
    exists p, c1. eexists. split; [done|]. split; [exact Hd|].
    split; [exact Hd'|]. subst c1 c' flag. fields.
    rewrite !Eps. cbn [collides foldl].
    rewrite toggle_toggle by done.
    split; [done|]. split; [done|].
    assert (toggle (display c) p !!! Z.to_nat p =
            Z.lxor (display c !!! Z.to_nat p) 1) as Et
      by (unfold toggle; by apply list_lookup_total_insert_eq).
    rewrite Et.
    rewrite !list_lookup_total_insert_eq
      by (rewrite ?length_insert; done).
    split; intros ->; cbn; done.
Qed.

Lemma sprite_collision_witness :
  wf sprite_on_example /\ wf sprite_off_example /\
  (exists c1 c2,
     drawSprite 0 1 1 sprite_on_example = Ok tt c1 /\
     drawSprite 0 1 1 c1 = Ok tt c2 /\
     V c1 !!! 15%nat = 1 /\ V c2 !!! 15%nat = 0) /\
  (exists p c1 c2,
     drawSprite 0 1 1 sprite_off_example = Ok tt c1 /\
     drawSprite 0 1 1 c1 = Ok tt c2 /\
     V c1 !!! 15%nat = 0 /\ display c1 !!! Z.to_nat p = 1 /\
     V c2 !!! 15%nat = 1 /\ display c2 !!! Z.to_nat p = 0).
Proof.
  assert (wf sprite_on_example) as Hon
    by (apply wfb_wf; vm_compute; reflexivity).
  assert (wf sprite_off_example) as Hoff
    by (apply wfb_wf; vm_compute; reflexivity).
  split; [exact Hon|]. split; [exact Hoff|]. split.
  - destruct (sprite_collision 0 1 1 sprite_on_example Hon)
      as (_ & _ & _ & _ & Hk); [lia | lia | lia |].
    destruct (Hk 0) as (p & c1 & c2 & Ep & H1 & H2 & _ & _ & Hset & _);
      [reflexivity | reflexivity | lia | vm_compute; reflexivity |].
    exists c1, c2. split; [exact H1|]. split; [exact H2|].
    destruct Hset as (F1 & _ & F2); [|by split].
    injection Ep as <-. vm_compute. reflexivity.
  - destruct (sprite_collision 0 1 1 sprite_off_example Hoff)
      as (_ & _ & _ & _ & Hk); [lia | lia | lia |].
    destruct (Hk 0) as (p & c1 & c2 & Ep & H1 & H2 & _ & _ & _ & Hclr);
      [reflexivity | reflexivity | lia | vm_compute; reflexivity |].
    exists p, c1, c2. split; [exact H1|]. split; [exact H2|].
    apply Hclr. injection Ep as <-. vm_compute. reflexivity.
Defined.

(** ** Where a draw lands *)

(** The index computed for a sprite bit: the column is
    [(xPos + col) mod 64], but the row is [(yPos + row) mod 4], because the
    product [screenY*ScreenWidth] is formed in [uint8]. *)
Lemma sprite_pixel_eq xPos yPos row col :
  0 <= xPos < 64 -> 0 <= yPos < 32 -> 0 <= row < 16 -> 0 <= col < 8 ->
  sprite_pixel xPos yPos row col =
    row_major ((xPos + col) mod 64) ((yPos + row) mod 4).
Proof.
  intros Hx Hy Hr Hc. unfold sprite_pixel, row_major, u8, ScreenWidth,
    ScreenHeight. cbv zeta.
  rewrite (Z.mod_small (xPos + col) 256), (Z.mod_small (yPos + row) 256)
    by lia.
  change 256 with (4 * 64) at 1. rewrite Z.mul_mod_distr_r by lia.
  assert (((yPos + row) mod 32) mod 4 = (yPos + row) mod 4) as ->.
  { Z.div_mod_to_equations. lia. }
  pose proof (Z.mod_pos_bound (yPos + row) 4).
  pose proof (Z.mod_pos_bound (xPos + col) 64).
  apply Z.mod_small. lia.
Qed.

(** No draw changes a pixel of rows 4 to 31. *)
Lemma drawSprite_low_rows x y height c :
  drop 256 (display (final (drawSprite x y height c))) =
  drop 256 (display c).
Proof.
  pose (P := fun s => drop 256 (display s) = drop 256 (display c)).
  assert (triple P (drawSprite x y height) any) as Ht.
  { unfold drawSprite. cbv zeta. unfold_ops.
    repeat
      lazymatch goal with
      | |- triple _ (assign_index display _ _ (u8 ?i) _) _ =>
          apply triple_assign_index; intros s Hs _; unfold P in *; fields;
          rewrite drop_insert_lt; [exact Hs|];
          pose proof (is_u8_u8 i) as Hb; unfold is_u8 in Hb; lia
      | |- triple _ (assign_index V _ _ _ _) _ =>
          by apply triple_assign_index
      | |- triple _ (modify _) _ => by apply triple_modify
      | |- _ => frame_step
      end. }
  specialize (Ht c eq_refl). destruct (drawSprite x y height c); apply Ht.
Qed.

(** C5 fails on the code in the vertical direction.  The row drawn at
    origin (60, 10) lights columns 60, 61, 62, 63, 0, 1, 2, 3, but of row 2,
    not of row 10: the pixels that wrapping modulo 32 places it on stay
    off.  In general no draw reaches rows 4 to 31. *)
Theorem sprite_row_wraps_at_4 :
  (exists c',
     steps [0; 0; 0; 0] wrap_example = Ok tt c' /\
     V c' !!! 0%nat = 60 /\ V c' !!! 1%nat = 10 /\
     lit (display c') =
       (fun sx => row_major sx 2) <$> [0; 1; 2; 3; 60; 61; 62; 63] /\
     Forall (fun sx => display c' !!! Z.to_nat (row_major sx (10 mod 32)) = 0)
       ((fun col => (60 + col) mod 64) <$> seqZ 0 8)) /\
  (forall x y height c,
     drop 256 (display (final (drawSprite x y height c))) =
     drop 256 (display c)).
Proof.
  split; [|apply drawSprite_low_rows].
  eexists. split; [vm_compute; reflexivity|].
  split; [vm_compute; reflexivity|]. split; [vm_compute; reflexivity|].
  split; [vm_compute; reflexivity|].
  vm_compute. repeat constructor.
Qed.

(** * Further properties of the interpreter *)

(** ** A cycle on a fetched instruction *)

Lemma cycle_exec rnd opcode c c1 :
  wf c -> fetch c = Ok opcode c ->
  executeOpcode rnd opcode c = Ok tt c1 ->
  EmulateCycle rnd c = Ok tt (ticked c1) /\ 0 <= PC c <= 4094.
Proof.
  intros Hwf Hf He. split; [by apply (EmulateCycle_Ok rnd opcode)|].
  destruct (fetch_Ok _ _ _ Hf) as (_ & Hpc & _).
  pose proof (wf_PC c Hwf) as Hpc0. unfold is_u16 in Hpc0. lia.
Qed.

Lemma u16_small z : 0 <= z < 65536 -> u16 z = z.
Proof. intros Hz. unfold u16. by apply Z.mod_small. Qed.

Lemma V_length c : wf c -> length (V c) = 16%nat.
Proof. intros Hwf. by rewrite (wf_V_len c Hwf). Qed.

Lemma field_x_nat opcode : (Z.to_nat (field_x opcode) < 16)%nat.
Proof. pose proof (field_x_bound opcode). lia. Qed.

(** ** Skips and jumps *)

Lemma exec_skip rnd opcode c :
  Z.land opcode 0xF000 = 0x3000 \/ Z.land opcode 0xF000 = 0x4000 \/
  Z.land opcode 0xF000 = 0x5000 \/ Z.land opcode 0xF000 = 0x9000 ->
  let vx := V c !!! Z.to_nat (field_x opcode) in
  let vy := V c !!! Z.to_nat (field_y opcode) in
  let taken :=
    if decide (Z.land opcode 0xF000 = 0x3000) then vx =? field_kk opcode
    else if decide (Z.land opcode 0xF000 = 0x4000)
         then negb (vx =? field_kk opcode)
    else if decide (Z.land opcode 0xF000 = 0x5000) then vx =? vy
    else negb (vx =? vy) in
  executeOpcode rnd opcode c =
    Ok tt (set_PC (u16 (PC c + if taken then 4 else 2)) c).
Proof.
  intros Hop vx vy taken. unfold executeOpcode. subst taken.
  destruct Hop as [H|[H|[H|H]]]; rewrite H; cbv zeta; simpl decide;
    exec; fold vx vy; by case_match.
Qed.

(** X1: the four skip instructions.  A cycle on [3xkk], [4xkk], [5xy_] or
    [9xy_] advances the program counter by 4 when its test holds
    ([V[x] = kk], [V[x] <> kk], [V[x] = V[y]], [V[x] <> V[y]]) and by 2
    when it does not, and changes nothing else but the timers; the low
    nibble of [5xy_] and [9xy_] is not examined. *)
Theorem skip_instructions rnd opcode c :
  wf c -> fetch c = Ok opcode c ->
  Z.land opcode 0xF000 = 0x3000 \/ Z.land opcode 0xF000 = 0x4000 \/
  Z.land opcode 0xF000 = 0x5000 \/ Z.land opcode 0xF000 = 0x9000 ->
  let vx := V c !!! Z.to_nat (field_x opcode) in
  let vy := V c !!! Z.to_nat (field_y opcode) in
  let taken :=
    if decide (Z.land opcode 0xF000 = 0x3000) then vx =? field_kk opcode
    else if decide (Z.land opcode 0xF000 = 0x4000)
         then negb (vx =? field_kk opcode)
    else if decide (Z.land opcode 0xF000 = 0x5000) then vx =? vy
    else negb (vx =? vy) in
  EmulateCycle rnd c =
    Ok tt (ticked (set_PC (PC c + if taken then 4 else 2) c)).
Proof.
  intros Hwf Hf Hop vx vy taken.
  pose proof (exec_skip rnd opcode c Hop) as He. cbv zeta in He.
  fold vx vy taken in He.
  destruct (cycle_exec rnd opcode c _ Hwf Hf He) as [Hc Hpc].
  rewrite Hc. rewrite u16_small by (destruct taken; lia). reflexivity.
Qed.

Lemma skip_instructions_witness :
  wf skip_example /\
  exists c', EmulateCycle 0 skip_example = Ok tt c' /\ PC c' = 0x204.
Proof.
  assert (wf skip_example) as Hwf by (apply wfb_wf; vm_compute; reflexivity).
  split; [exact Hwf|].
  eexists. split.
  - apply (skip_instructions 0 0x3205 skip_example Hwf);
      [vm_compute; reflexivity | left; reflexivity].
  - vm_compute. reflexivity.
Defined.

Lemma exec_1nnn rnd opcode c :
  Z.land opcode 0xF000 = 0x1000 ->
  executeOpcode rnd opcode c = Ok tt (set_PC (field_nnn opcode) c).
Proof. intros H. unfold executeOpcode. rewrite H. reflexivity. Qed.

Lemma exec_Bnnn rnd opcode c :
  Z.land opcode 0xF000 = 0xB000 ->
  executeOpcode rnd opcode c =
    Ok tt (set_PC (u16 (field_nnn opcode + V c !!! 0%nat)) c).
Proof.
  intros H. unfold executeOpcode. rewrite H. cbv zeta. exec. reflexivity.
Qed.

(** X2: the jumps.  A cycle on [1nnn] sets the program counter to [nnn]
    and one on [Bnnn] to [nnn + V[0]], without the advance by 2 and without
    touching the stack; the indexed target is not reduced to 12 bits, so it
    can lie at or beyond the end of memory, where the next cycle panics
    without a change of state. *)
Theorem jumps rnd opcode c :
  wf c -> fetch c = Ok opcode c ->
  (Z.land opcode 0xF000 = 0x1000 ->
   EmulateCycle rnd c = Ok tt (ticked (set_PC (field_nnn opcode) c))) /\
  (Z.land opcode 0xF000 = 0xB000 ->
   let target := field_nnn opcode + V c !!! 0%nat in
   EmulateCycle rnd c = Ok tt (ticked (set_PC target c)) /\
   (4095 <= target ->
    forall rnd', EmulateCycle rnd' (ticked (set_PC target c)) =
                 Panic (ticked (set_PC target c)))).
Proof.
  intros Hwf Hf. split; intros Hop.
  - by apply (cycle_exec rnd opcode c _ Hwf Hf (exec_1nnn rnd opcode c Hop)).
  - intros target.
    pose proof (field_nnn_bound opcode) as Hn.
    pose proof (wf_V_at c 0 Hwf ltac:(lia)) as Hv0.
    change (Z.to_nat 0) with 0%nat in Hv0. unfold is_u8 in Hv0.
    pose proof (exec_Bnnn rnd opcode c Hop) as He.
    rewrite u16_small in He by lia. fold target in He.
    split; [by apply (cycle_exec rnd opcode c _ Hwf Hf He)|].
    intros Hout rnd'. unfold EmulateCycle, fetch, memory_at.
    unfold bind at 1 2. unfold gets, ticked. fields.
    unfold bind at 1, at_index at 1. fields.
    destruct (target <? MemorySize) eqn:E1; [|reflexivity].
    unfold bind at 1, at_index at 1. fields.
    assert ((u16 (target + 1) <? MemorySize) = false) as ->; [|reflexivity].
    unfold MemorySize in *. rewrite u16_small by lia. lia.
Qed.

Lemma jumps_witness :
  wf indexed_jump_example /\
  exists c',
    EmulateCycle 0 indexed_jump_example = Ok tt c' /\ PC c' = 0x100F /\
    EmulateCycle 0 c' = Panic c'.
Proof.
  assert (wf indexed_jump_example) as Hwf
    by (apply wfb_wf; vm_compute; reflexivity).
  split; [exact Hwf|].
  destruct (jumps 0 0xBF10 indexed_jump_example Hwf) as [_ Hb];
    [vm_compute; reflexivity|].
  destruct Hb as [Hc Hp]; [reflexivity|].
  eexists. split; [exact Hc|]. split; [vm_compute; reflexivity|].
  apply Hp. vm_compute. discriminate.
Defined.

(** ** Register operations *)

(** The state after an operation that writes [v] to register [x] and
    advances by 2. *)
Lemma register_result rnd opcode c v :
  wf c -> fetch c = Ok opcode c ->
  executeOpcode rnd opcode c =
    Ok tt (set_PC (u16 (PC c + 2))
             (set_V (<[Z.to_nat (field_x opcode) := v]> (V c)) c)) ->
  let x := Z.to_nat (field_x opcode) in
  exists c',
    EmulateCycle rnd c = Ok tt c' /\
    c' = ticked (set_PC (PC c + 2) (set_V (<[x := v]> (V c)) c)) /\
    V c' !!! x = v /\
    (forall i, i <> x -> V c' !!! i = V c !!! i).
Proof.
  intros Hwf Hf He x.
  destruct (cycle_exec rnd opcode c _ Hwf Hf He) as [Hc Hpc].
  rewrite u16_small in Hc by lia.
  eexists. split; [exact Hc|]. split; [reflexivity|].
  unfold ticked. fields. split.
  - apply list_lookup_total_insert_eq. rewrite (V_length c Hwf).
    apply field_x_nat.
  - intros i Hi. by apply list_lookup_total_insert_ne.
Qed.

Lemma exec_6xkk rnd opcode c :
  Z.land opcode 0xF000 = 0x6000 ->
  executeOpcode rnd opcode c =
    Ok tt (set_PC (u16 (PC c + 2))
             (set_V (<[Z.to_nat (field_x opcode) := field_kk opcode]> (V c))
                c)).
Proof.
  intros H. unfold executeOpcode. rewrite H. cbv zeta. exec. reflexivity.
Qed.

Lemma exec_7xkk rnd opcode c :
  Z.land opcode 0xF000 = 0x7000 ->
  executeOpcode rnd opcode c =
    Ok tt (set_PC (u16 (PC c + 2))
             (set_V (<[Z.to_nat (field_x opcode) :=
                         u8 (V c !!! Z.to_nat (field_x opcode) +
                             field_kk opcode)]> (V c)) c)).
Proof.
  intros H. unfold executeOpcode. rewrite H. cbv zeta. exec. reflexivity.
Qed.

(** X3: load and add of an immediate.  A cycle on [6xkk] sets [V[x]] to
    [kk]; one on [7xkk] sets it to [(V[x] + kk) mod 256].  Both advance by 2
    and leave every other register as it is: the addition wraps without
    writing a carry to the flag register. *)
Theorem immediate_load_add rnd opcode c :
  wf c -> fetch c = Ok opcode c ->
  let x := Z.to_nat (field_x opcode) in
  let kk := field_kk opcode in
  (Z.land opcode 0xF000 = 0x6000 ->
   exists c',
     EmulateCycle rnd c = Ok tt c' /\
     c' = ticked (set_PC (PC c + 2) (set_V (<[x := kk]> (V c)) c)) /\
     V c' !!! x = kk /\
     (forall i, i <> x -> V c' !!! i = V c !!! i)) /\
  (Z.land opcode 0xF000 = 0x7000 ->
   exists c',
     EmulateCycle rnd c = Ok tt c' /\
     c' = ticked (set_PC (PC c + 2)
                    (set_V (<[x := (V c !!! x + kk) mod 256]> (V c)) c)) /\
     V c' !!! x = (V c !!! x + kk) mod 256 /\
     (forall i, i <> x -> V c' !!! i = V c !!! i)).
Proof.
  intros Hwf Hf x kk. split; intros Hop.
  - apply (register_result rnd opcode c _ Hwf Hf). by apply exec_6xkk.
  - apply (register_result rnd opcode c _ Hwf Hf). by apply exec_7xkk.
Qed.

Lemma immediate_load_add_witness :
  wf add_immediate_example /\
  exists c',
    EmulateCycle 0 add_immediate_example = Ok tt c' /\
    V c' !!! 4%nat = 44 /\ V c' !!! 15%nat = 0.
Proof.
  assert (wf add_immediate_example) as Hwf
    by (apply wfb_wf; vm_compute; reflexivity).
  split; [exact Hwf|].
  destruct (immediate_load_add 0 0x7464 add_immediate_example Hwf)
    as [_ H7]; [vm_compute; reflexivity|].
  destruct H7 as (c' & Hc & _ & Hx & Hi); [reflexivity|].
  assert (Z.to_nat (field_x 0x7464) = 4%nat) as E by (vm_compute; reflexivity).
  rewrite E in Hx, Hi.
  exists c'. split; [exact Hc|]. split.
  - rewrite Hx. vm_compute. reflexivity.
  - rewrite (Hi 15%nat) by lia. vm_compute. reflexivity.
Defined.

Lemma exec_logic rnd opcode c :
  Z.land opcode 0xF000 = 0x8000 ->
  Z.land opcode 0x000F = 0 \/ Z.land opcode 0x000F = 1 \/
  Z.land opcode 0x000F = 2 \/ Z.land opcode 0x000F = 3 ->
  let vx := V c !!! Z.to_nat (field_x opcode) in
  let vy := V c !!! Z.to_nat (field_y opcode) in
  let v := match Z.land opcode 0x000F with
           | 0 => vy
           | 1 => Z.lor vx vy
           | 2 => Z.land vx vy
           | _ => Z.lxor vx vy
           end in
  executeOpcode rnd opcode c =
    Ok tt (set_PC (u16 (PC c + 2))
             (set_V (<[Z.to_nat (field_x opcode) := v]> (V c)) c)).
Proof.
  intros H1 H2 vx vy v. unfold executeOpcode. subst v. rewrite H1.
  destruct H2 as [H|[H|[H|H]]]; rewrite H; cbv zeta; exec; reflexivity.
Qed.

(** X4: copy and bitwise operations.  A cycle on [8xy0], [8xy1], [8xy2] or
    [8xy3] leaves [V[y]], [V[x] | V[y]], [V[x] & V[y]] or [V[x] ^ V[y]] in
    [V[x]], a byte again, advances by 2 and leaves every other register,
    the flag register included, as it is. *)
Theorem copy_and_bitwise rnd opcode c :
  wf c -> fetch c = Ok opcode c ->
  Z.land opcode 0xF000 = 0x8000 ->
  Z.land opcode 0x000F = 0 \/ Z.land opcode 0x000F = 1 \/
  Z.land opcode 0x000F = 2 \/ Z.land opcode 0x000F = 3 ->
  let x := Z.to_nat (field_x opcode) in
  let vx := V c !!! x in
  let vy := V c !!! Z.to_nat (field_y opcode) in
  let v := match Z.land opcode 0x000F with
           | 0 => vy
           | 1 => Z.lor vx vy
           | 2 => Z.land vx vy
           | _ => Z.lxor vx vy
           end in
  exists c',
    EmulateCycle rnd c = Ok tt c' /\
    c' = ticked (set_PC (PC c + 2) (set_V (<[x := v]> (V c)) c)) /\
    V c' !!! x = v /\ 0 <= v < 256 /\
    (forall i, i <> x -> V c' !!! i = V c !!! i).
Proof.
  intros Hwf Hf H1 H2 x vx vy v.
  destruct (register_result rnd opcode c v Hwf Hf
              (exec_logic rnd opcode c H1 H2)) as (c' & Hc & Ec & Hx & Hi).
  exists c'. split; [exact Hc|]. split; [exact Ec|]. split; [exact Hx|].
  split; [|exact Hi].
  pose proof (wf_V_at c _ Hwf (field_x_bound opcode)) as Hvx.
  pose proof (wf_V_at c _ Hwf (field_y_bound opcode)) as Hvy.
  fold x vx in Hvx. fold vy in Hvy. subst v.
  destruct H2 as [H|[H|[H|H]]]; rewrite H.
  - exact Hvy.
  - by apply is_u8_lor.
  - by apply is_u8_land_l.
  - by apply is_u8_lxor.
Qed.

Lemma copy_and_bitwise_witness :
  wf logic_example /\
  exists c',
    EmulateCycle 0 logic_example = Ok tt c' /\
    V c' !!! 6%nat = 0xCC /\ V c' !!! 15%nat = 0.
Proof.
  assert (wf logic_example) as Hwf
    by (apply wfb_wf; vm_compute; reflexivity).
  split; [exact Hwf|].
  destruct (copy_and_bitwise 0 0x8673 logic_example Hwf)
    as (c' & Hc & _ & Hx & _ & Hi);
    [vm_compute; reflexivity | reflexivity | do 3 right; reflexivity |].
  assert (Z.to_nat (field_x 0x8673) = 6%nat) as E by (vm_compute; reflexivity).
  rewrite E in Hx, Hi.
  exists c'. split; [exact Hc|]. split.
  - rewrite Hx. vm_compute. reflexivity.
  - rewrite (Hi 15%nat) by lia. vm_compute. reflexivity.
Defined.

Lemma insert_flag_lookup (l : list Z) (i : nat) v :
  i <> 15%nat -> <[15%nat := v]> l !!! i = l !!! i.
Proof. intros Hi. by apply list_lookup_total_insert_ne. Qed.

(** X5: subtraction with the flag.  For [x] and [y] other than 15, a cycle
    on [8xy5] leaves [(V[x] - V[y]) mod 256] in [V[x]] and, in the flag
    register, 1 when [V[x] > V[y]] and 0 otherwise: equal operands give the
    result 0 with the flag at 0.  [8xy7] does the same for
    [V[y] - V[x]], with the flag at 1 when [V[y] > V[x]]. *)
Theorem subtract_with_flag rnd opcode c :
  wf c -> fetch c = Ok opcode c ->
  Z.land opcode 0xF000 = 0x8000 ->
  let x := Z.to_nat (field_x opcode) in
  let y := Z.to_nat (field_y opcode) in
  x <> 15%nat -> y <> 15%nat ->
  let vx := V c !!! x in
  let vy := V c !!! y in
  (Z.land opcode 0x000F = 0x0005 ->
   exists c',
     EmulateCycle rnd c = Ok tt c' /\
     V c' = <[x := (vx - vy) mod 256]>
              (<[15%nat := if vx >? vy then 1 else 0]> (V c)) /\
     V c' !!! 15%nat = (if vx >? vy then 1 else 0) /\
     V c' !!! x = (if vx <? vy then vx - vy + 256 else vx - vy) /\
     PC c' = PC c + 2) /\
  (Z.land opcode 0x000F = 0x0007 ->
   exists c',
     EmulateCycle rnd c = Ok tt c' /\
     V c' = <[x := (vy - vx) mod 256]>
              (<[15%nat := if vy >? vx then 1 else 0]> (V c)) /\
     V c' !!! 15%nat = (if vy >? vx then 1 else 0) /\
     V c' !!! x = (if vy <? vx then vy - vx + 256 else vy - vx) /\
     PC c' = PC c + 2).
Proof.
  intros Hwf Hf H1 x y Hx Hy vx vy.
  pose proof (V_length c Hwf) as Hlen.
  pose proof (field_x_nat opcode) as Hxn. fold x in Hxn.
  pose proof (wf_V_at c _ Hwf (field_x_bound opcode)) as Hvx.
  pose proof (wf_V_at c _ Hwf (field_y_bound opcode)) as Hvy.
  fold x vx in Hvx. fold y vy in Hvy. unfold is_u8 in Hvx, Hvy.
  assert (forall f d,
            <[x := d]> (<[15%nat := f]> (V c)) !!! 15%nat = f /\
            <[x := d]> (<[15%nat := f]> (V c)) !!! x = d) as Hread.
  { intros f d. split.
    - rewrite list_lookup_total_insert_ne by done.
      apply list_lookup_total_insert_eq. lia.
    - apply list_lookup_total_insert_eq. rewrite length_insert. lia. }
  split; intros H2.
  - pose proof (exec_8xy5 rnd opcode c H1 H2) as He. cbv zeta in He.
    fold x y in He.
    rewrite !list_insert_insert_eq, !insert_flag_lookup in He by done.
    fold vx vy in He.
    destruct (cycle_exec rnd opcode c _ Hwf Hf He) as [Hc Hpc].
    eexists. split; [exact Hc|]. unfold ticked. fields. unfold u8.
    destruct (Hread (if vx >? vy then 1 else 0) ((vx - vy) mod 256))
      as [-> ->].
    split; [done|]. split; [done|]. split; [|apply u16_small; lia].
    destruct (vx <? vy) eqn:E.
    + symmetry. apply Z.mod_unique with (-1); lia.
    + apply Z.mod_small. lia.
  - pose proof (exec_8xy7 rnd opcode c H1 H2) as He. cbv zeta in He.
    fold x y in He.
    rewrite !list_insert_insert_eq, !insert_flag_lookup in He by done.
    fold vx vy in He.
    destruct (cycle_exec rnd opcode c _ Hwf Hf He) as [Hc Hpc].
    eexists. split; [exact Hc|]. unfold ticked. fields. unfold u8.
    destruct (Hread (if vy >? vx then 1 else 0) ((vy - vx) mod 256))
      as [-> ->].
    split; [done|]. split; [done|]. split; [|apply u16_small; lia].
    destruct (vy <? vx) eqn:E.
    + symmetry. apply Z.mod_unique with (-1); lia.
    + apply Z.mod_small. lia.
Qed.

Lemma subtract_with_flag_witness :
  wf borrow_example /\
  exists c',
    EmulateCycle 0 borrow_example = Ok tt c' /\
    V c' !!! 1%nat = 0 /\ V c' !!! 15%nat = 0.
Proof.
  assert (wf borrow_example) as Hwf
    by (apply wfb_wf; vm_compute; reflexivity).
  split; [exact Hwf|].
  destruct (subtract_with_flag 0 0x8125 borrow_example Hwf) as [H5 _];
    [vm_compute; reflexivity | reflexivity
    | vm_compute; lia | vm_compute; lia |].
  destruct H5 as (c' & Hc & _ & Hf & Hx & _); [reflexivity|].
  exists c'. split; [exact Hc|]. split.
  - assert (Z.to_nat (field_x 0x8125) = 1%nat) as E
      by (vm_compute; reflexivity).
    rewrite E in Hx. rewrite Hx. vm_compute. reflexivity.
  - rewrite Hf. vm_compute. reflexivity.
Defined.

(** ** Shifts *)

Lemma land_1 v : Z.land v 1 = v mod 2.
Proof. change 1 with (Z.ones 1). by rewrite Z.land_ones by lia. Qed.

Lemma top_bit v : 0 <= v < 256 -> Z.shiftr (Z.land v 0x80) 7 = v / 128.
Proof.
  intros Hv. rewrite Z.shiftr_land. change (Z.shiftr 0x80 7) with (Z.ones 1).
  rewrite Z.land_ones, Z.shiftr_div_pow2 by lia.
  change (2 ^ 7) with 128. change (2 ^ 1) with 2.
  apply Z.mod_small. split; [apply Z.div_pos; lia|].
  apply Z.div_lt_upper_bound; lia.
Qed.

Lemma exec_8xy6 rnd opcode c :
  Z.land opcode 0xF000 = 0x8000 -> Z.land opcode 0x000F = 0x0006 ->
  let x := Z.to_nat (field_x opcode) in
  let V1 := <[15%nat := Z.land (V c !!! x) 1]> (V c) in
  executeOpcode rnd opcode c =
    Ok tt (set_PC (u16 (PC c + 2))
             (set_V (<[x := Z.shiftr (V1 !!! x) 1]> V1) c)).
Proof.
  intros H1 H2 x V1. unfold executeOpcode. rewrite H1, H2. cbv zeta.
  exec. reflexivity.
Qed.

Lemma exec_8xyE rnd opcode c :
  Z.land opcode 0xF000 = 0x8000 -> Z.land opcode 0x000F = 0x000E ->
  let x := Z.to_nat (field_x opcode) in
  let V1 := <[15%nat := Z.shiftr (Z.land (V c !!! x) 0x80) 7]> (V c) in
  executeOpcode rnd opcode c =
    Ok tt (set_PC (u16 (PC c + 2))
             (set_V (<[x := u8 (Z.shiftl (V1 !!! x) 1)]> V1) c)).
Proof.
  intros H1 H2 x V1. unfold executeOpcode. rewrite H1, H2. cbv zeta.
  exec. reflexivity.
Qed.

(** X6: the shifts.  For [x] other than 15, a cycle on [8xy6] halves
    [V[x]] and leaves the bit shifted out, its least significant bit, in
    the flag register, so that [V[x]] before is twice [V[x]] after plus the
    flag; a cycle on [8xyE] doubles [V[x]] modulo 256 and leaves its most
    significant bit in the flag register, so that twice [V[x]] before is
    256 times the flag plus [V[x]] after.  Register [y] plays no part. *)
Theorem shifts rnd opcode c :
  wf c -> fetch c = Ok opcode c ->
  Z.land opcode 0xF000 = 0x8000 ->
  let x := Z.to_nat (field_x opcode) in
  x <> 15%nat ->
  let vx := V c !!! x in
  (Z.land opcode 0x000F = 0x0006 ->
   exists c',
     EmulateCycle rnd c = Ok tt c' /\
     V c' = <[x := vx / 2]> (<[15%nat := vx mod 2]> (V c)) /\
     vx = 2 * V c' !!! x + V c' !!! 15%nat /\
     0 <= V c' !!! 15%nat <= 1 /\ PC c' = PC c + 2) /\
  (Z.land opcode 0x000F = 0x000E ->
   exists c',
     EmulateCycle rnd c = Ok tt c' /\
     V c' = <[x := (2 * vx) mod 256]> (<[15%nat := vx / 128]> (V c)) /\
     2 * vx = 256 * V c' !!! 15%nat + V c' !!! x /\
     0 <= V c' !!! 15%nat <= 1 /\ PC c' = PC c + 2).
Proof.
  intros Hwf Hf H1 x Hx vx.
  pose proof (V_length c Hwf) as Hlen.
  pose proof (field_x_nat opcode) as Hxn. fold x in Hxn.
  pose proof (wf_V_at c _ Hwf (field_x_bound opcode)) as Hvx.
  fold x vx in Hvx. unfold is_u8 in Hvx.
  assert (forall f d,
            <[x := d]> (<[15%nat := f]> (V c)) !!! 15%nat = f /\
            <[x := d]> (<[15%nat := f]> (V c)) !!! x = d) as Hread.
  { intros f d. split.
    - rewrite list_lookup_total_insert_ne by done.
      apply list_lookup_total_insert_eq. lia.
    - apply list_lookup_total_insert_eq. rewrite length_insert. lia. }
  split; intros H2.
  - pose proof (exec_8xy6 rnd opcode c H1 H2) as He. cbv zeta in He.
    fold x in He. rewrite insert_flag_lookup in He by done. fold vx in He.
    rewrite land_1, Z.shiftr_div_pow2 in He by lia.
    change (2 ^ 1) with 2 in He.
    destruct (cycle_exec rnd opcode c _ Hwf Hf He) as [Hc Hpc].
    eexists. split; [exact Hc|]. unfold ticked. fields.
    destruct (Hread (vx mod 2) (vx / 2)) as [-> ->].
    split; [done|].
    pose proof (Z.mod_pos_bound vx 2). pose proof (Z.div_mod vx 2).
    split; [lia|]. split; [lia|]. apply u16_small. lia.
  - pose proof (exec_8xyE rnd opcode c H1 H2) as He. cbv zeta in He.
    fold x in He. rewrite insert_flag_lookup in He by done. fold vx in He.
    rewrite top_bit, Z.shiftl_mul_pow2 in He by lia.
    change (2 ^ 1) with 2 in He. rewrite (Z.mul_comm vx 2) in He.
    destruct (cycle_exec rnd opcode c _ Hwf Hf He) as [Hc Hpc].
    eexists. split; [exact Hc|]. unfold ticked. fields. unfold u8.
    destruct (Hread (vx / 128) ((2 * vx) mod 256)) as [-> ->].
    split; [done|].
    assert (0 <= vx / 128 <= 1) as Hb.
    { split; [apply Z.div_pos; lia|].
      apply Z.lt_succ_r. apply Z.div_lt_upper_bound; lia. }
    split; [|split; [lia|apply u16_small; lia]].
    pose proof (Z.div_mod vx 128). pose proof (Z.mod_pos_bound vx 128).
    symmetry. rewrite Z.add_comm.
    assert ((2 * vx) mod 256 = 2 * (vx mod 128)) as ->.
    { change 256 with (2 * 128). by rewrite Z.mul_mod_distr_l by lia. }
    lia.
Qed.

Lemma shifts_witness :
  wf shift_example /\
  exists c',
    EmulateCycle 0 shift_example = Ok tt c' /\
    V c' !!! 3%nat = 0x06 /\ V c' !!! 15%nat = 1.
Proof.
  assert (wf shift_example) as Hwf
    by (apply wfb_wf; vm_compute; reflexivity).
  split; [exact Hwf|].
  destruct (shifts 0 0x830E shift_example Hwf) as [_ HE];
    [vm_compute; reflexivity | reflexivity | vm_compute; lia |].
  destruct HE as (c' & Hc & Ev & _); [reflexivity|].
  exists c'. split; [exact Hc|]. rewrite Ev. split; vm_compute; reflexivity.
Defined.

(** ** Binary-coded decimal *)

Lemma exec_Fx33 rnd opcode c :
  Z.land opcode 0xF000 = 0xF000 -> Z.land opcode 0x00FF = 0x0033 ->
  is_u16 (I c) -> I c + 2 < MemorySize ->
  let vx := V c !!! Z.to_nat (field_x opcode) in
  let i := Z.to_nat (I c) in
  executeOpcode rnd opcode c =
    Ok tt (set_PC (u16 (PC c + 2))
             (set_memory
                (<[(i + 2)%nat := vx mod 10]>
                   (<[(i + 1)%nat := (vx / 10) mod 10]>
                      (<[i := vx / 100]> (memory c)))) c)).
Proof.
  intros H1 H2 HI Hin vx i. unfold executeOpcode. rewrite H1, H2. cbv zeta.
  unfold is_u16, MemorySize in *.
  assert (u16 (I c + 1) = I c + 1) as E1 by (apply u16_small; lia).
  assert (u16 (I c + 2) = I c + 2) as E2 by (apply u16_small; lia).
  exec. rewrite ?E1, ?E2. exec. rewrite ?E1, ?E2. exec. fold vx.
  replace (Z.to_nat (I c + 1)) with (i + 1)%nat by lia.
  replace (Z.to_nat (I c + 2)) with (i + 2)%nat by lia.
  reflexivity.
Qed.

Lemma exec_Fx33_edge rnd opcode c :
  Z.land opcode 0xF000 = 0xF000 -> Z.land opcode 0x00FF = 0x0033 ->
  I c = 4094 ->
  let vx := V c !!! Z.to_nat (field_x opcode) in
  executeOpcode rnd opcode c =
    Panic (set_memory
             (<[4095%nat := (vx / 10) mod 10]>
                (<[4094%nat := vx / 100]> (memory c))) c).
Proof.
  intros H1 H2 HI vx. unfold executeOpcode. rewrite H1, H2. cbv zeta.
  unfold_ops. fields. exec1. fields. exec1. rewrite HI.
  rewrite (bind_Ok _ _ _ _ _
             (assign_index_Ok memory set_memory MemorySize 4094 _ c
                ltac:(unfold MemorySize; lia))).
  exec1. fields. exec1. fields. rewrite HI.
  change (u16 (4094 + 1)) with 4095.
  rewrite (bind_Ok _ _ _ _ _
             (assign_index_Ok memory set_memory MemorySize 4095 _ _
                ltac:(unfold MemorySize; lia))).
  exec1. fields. exec1. fields. rewrite HI.
  change (u16 (4094 + 2)) with 4096.
  rewrite (bind_Panic _ _ _ _
             (assign_index_Panic memory set_memory MemorySize 4096 _ _
                ltac:(unfold MemorySize; lia))).
  fields. reflexivity.
Qed.

(** X7: the decimal digits.  With the three bytes at [I] inside memory, a
    cycle on [Fx33] stores the hundreds, tens and units digits of [V[x]] at
    [I], [I+1] and [I+2]: each is at most 9, they recompose [V[x]], no
    other byte of memory and no register changes, and [I] stays.  With
    [I = 4094] the operation panics on the third store, after the first two
    digits have been written. *)
Theorem bcd_store rnd opcode c :
  wf c -> Z.land opcode 0xF000 = 0xF000 -> Z.land opcode 0x00FF = 0x0033 ->
  let vx := V c !!! Z.to_nat (field_x opcode) in
  let i := Z.to_nat (I c) in
  (I c + 2 < MemorySize ->
   exists c',
     executeOpcode rnd opcode c = Ok tt c' /\
     c' = set_PC (u16 (PC c + 2)) (set_memory (memory c') c) /\
     let h := memory c' !!! i in
     let t := memory c' !!! (i + 1)%nat in
     let u := memory c' !!! (i + 2)%nat in
     100 * h + 10 * t + u = vx /\
     0 <= h <= 2 /\ 0 <= t <= 9 /\ 0 <= u <= 9 /\
     (forall a, (a < i \/ i + 2 < a)%nat ->
        memory c' !!! a = memory c !!! a)) /\
  (I c = 4094 ->
   exists c',
     executeOpcode rnd opcode c = Panic c' /\
     memory c' !!! 4094%nat = vx / 100 /\
     memory c' !!! 4095%nat = (vx / 10) mod 10 /\
     PC c' = PC c).
Proof.
  intros Hwf H1 H2 vx i.
  pose proof (wf_I c Hwf) as HI.
  pose proof (wf_memory_len c Hwf) as Hlen. unfold MemorySize in Hlen.
  pose proof (wf_V_at c _ Hwf (field_x_bound opcode)) as Hvx.
  fold vx in Hvx. unfold is_u8 in Hvx.
  split.
  - intros Hin. eexists.
    split; [exact (exec_Fx33 rnd opcode c H1 H2 HI Hin)|].
    fold vx i. fields. split; [reflexivity|]. cbv zeta.
    unfold is_u16, MemorySize in *.
    rewrite list_lookup_total_insert_eq by (rewrite !length_insert; lia).
    rewrite (list_lookup_total_insert_ne _ (i + 2)%nat (i + 1)%nat) by lia.
    rewrite list_lookup_total_insert_eq by (rewrite !length_insert; lia).
    rewrite !(list_lookup_total_insert_ne _ _ i) by lia.
    rewrite list_lookup_total_insert_eq by lia.
    split; [Z.div_mod_to_equations; lia|].
    split; [Z.div_mod_to_equations; lia|].
    split; [Z.div_mod_to_equations; lia|].
    split; [Z.div_mod_to_equations; lia|].
    intros a Ha. by rewrite !list_lookup_total_insert_ne by lia.
  - intros HI4. eexists.
    split; [exact (exec_Fx33_edge rnd opcode c H1 H2 HI4)|].
    fold vx. fields.
    split; [|split; [|done]].
    + rewrite list_lookup_total_insert_ne by lia.
      apply list_lookup_total_insert_eq. lia.
    + apply list_lookup_total_insert_eq. rewrite length_insert. lia.
Qed.

Lemma bcd_store_witness :
  wf bcd_digits_example /\ wf bcd_edge_example /\
  (exists c',
     executeOpcode 0 0xF033 bcd_digits_example = Ok tt c' /\
     take 3 (drop 0x300 (memory c')) = [1; 5; 7]) /\
  (exists c',
     executeOpcode 0 0xF033 bcd_edge_example = Panic c' /\
     drop 4094 (memory c') = [1; 5]).
Proof.
  assert (wf bcd_digits_example) as Hwf
    by (apply wfb_wf; vm_compute; reflexivity).
  assert (wf bcd_edge_example) as Hwf'
    by (apply wfb_wf; vm_compute; reflexivity).
  split; [exact Hwf|]. split; [exact Hwf'|]. split.
  - destruct (bcd_store 0 0xF033 bcd_digits_example Hwf) as [Hok _];
      [reflexivity | reflexivity |].
    destruct Hok as (c' & Hc & _); [reflexivity|].
    exists c'. split; [exact Hc|].
    assert (executeOpcode 0 0xF033 bcd_digits_example =
            Ok tt (final (executeOpcode 0 0xF033 bcd_digits_example))) as E
      by (vm_compute; reflexivity).
    rewrite E in Hc. injection Hc as <-. vm_compute. reflexivity.
  - destruct (bcd_store 0 0xF033 bcd_edge_example Hwf') as [_ Hp];
      [reflexivity | reflexivity |].
    destruct Hp as (c' & Hc & _); [reflexivity|].
    exists c'. split; [exact Hc|].
    assert (executeOpcode 0 0xF033 bcd_edge_example =
            Panic (final (executeOpcode 0 0xF033 bcd_edge_example))) as E
      by (vm_compute; reflexivity).
    rewrite E in Hc. injection Hc as <-. vm_compute. reflexivity.
Defined.

(** ** The index register *)

Lemma exec_Annn rnd opcode c :
  Z.land opcode 0xF000 = 0xA000 ->
  executeOpcode rnd opcode c =
    Ok tt (set_PC (u16 (PC c + 2)) (set_I (field_nnn opcode) c)).
Proof. intros H. unfold executeOpcode. rewrite H. reflexivity. Qed.

Lemma exec_Fx1E rnd opcode c :
  Z.land opcode 0xF000 = 0xF000 -> Z.land opcode 0x00FF = 0x001E ->
  executeOpcode rnd opcode c =
    Ok tt (set_PC (u16 (PC c + 2))
             (set_I (u16 (I c + V c !!! Z.to_nat (field_x opcode))) c)).
Proof.
  intros H1 H2. unfold executeOpcode. rewrite H1, H2. cbv zeta.
  exec. reflexivity.
Qed.

Lemma exec_Fx29 rnd opcode c :
  Z.land opcode 0xF000 = 0xF000 -> Z.land opcode 0x00FF = 0x0029 ->
  executeOpcode rnd opcode c =
    Ok tt (set_PC (u16 (PC c + 2))
             (set_I (u16 (V c !!! Z.to_nat (field_x opcode) * 5)) c)).
Proof.
  intros H1 H2. unfold executeOpcode. rewrite H1, H2. cbv zeta.
  exec. reflexivity.
Qed.

(** X8: the index register.  A cycle on [Annn] sets [I] to [nnn]; one on
    [Fx1E] sets it to [(I + V[x]) mod 65536], a 16-bit sum that can leave
    the 12-bit address space, without touching the flag register; one on
    [Fx29] sets it to [5 * V[x]] for the whole byte [V[x]].  When
    [V[x] <= 15] and the font table is intact, the five bytes at the new
    [I] are the rows of that glyph in [fontset].  Each advances by 2 and
    changes nothing else but the timers. *)
Theorem index_register rnd opcode c :
  wf c -> fetch c = Ok opcode c ->
  let vx := V c !!! Z.to_nat (field_x opcode) in
  (Z.land opcode 0xF000 = 0xA000 ->
   EmulateCycle rnd c =
     Ok tt (ticked (set_PC (PC c + 2) (set_I (field_nnn opcode) c)))) /\
  (Z.land opcode 0xF000 = 0xF000 -> Z.land opcode 0x00FF = 0x001E ->
   EmulateCycle rnd c =
     Ok tt (ticked (set_PC (PC c + 2)
                      (set_I ((I c + vx) mod 65536) c)))) /\
  (Z.land opcode 0xF000 = 0xF000 -> Z.land opcode 0x00FF = 0x0029 ->
   EmulateCycle rnd c =
     Ok tt (ticked (set_PC (PC c + 2) (set_I (5 * vx) c))) /\
   (vx <= 15 ->
    take (Z.to_nat FontsetSize) (memory c) = fontset ->
    take 5 (drop (Z.to_nat (5 * vx)) (memory c)) =
    take 5 (drop (Z.to_nat (5 * vx)) fontset))).
Proof.
  intros Hwf Hf vx.
  pose proof (wf_V_at c _ Hwf (field_x_bound opcode)) as Hvx.
  fold vx in Hvx. unfold is_u8 in Hvx.
  split; [|split].
  - intros H1.
    destruct (cycle_exec rnd opcode c _ Hwf Hf (exec_Annn rnd opcode c H1))
      as [Hc Hpc].
    by rewrite u16_small in Hc by lia.
  - intros H1 H2.
    destruct (cycle_exec rnd opcode c _ Hwf Hf
                (exec_Fx1E rnd opcode c H1 H2)) as [Hc Hpc].
    by rewrite u16_small in Hc by lia.
  - intros H1 H2. split.
    + destruct (cycle_exec rnd opcode c _ Hwf Hf
                  (exec_Fx29 rnd opcode c H1 H2)) as [Hc Hpc].
      fold vx in Hc. rewrite (u16_small (PC c + 2)) in Hc by lia.
      rewrite u16_small, Z.mul_comm in Hc by lia. exact Hc.
    + intros Hd Hfont. rewrite <- Hfont.
      rewrite <- (take_drop (Z.to_nat FontsetSize) (memory c)) at 1.
      rewrite drop_app_le
        by (rewrite length_take, (wf_memory_len c Hwf);
            unfold FontsetSize, MemorySize; lia).
      rewrite take_app_le; [done|].
      rewrite length_drop, length_take, (wf_memory_len c Hwf).
      unfold FontsetSize, MemorySize. lia.
Qed.

Lemma index_register_witness :
  wf glyph_example /\
  exists c',
    EmulateCycle 0 glyph_example = Ok tt c' /\ I c' = 50 /\
    take 5 (drop 50 (memory c')) = [0xF0; 0x90; 0xF0; 0x90; 0x90].
Proof.
  assert (wf glyph_example) as Hwf
    by (apply wfb_wf; vm_compute; reflexivity).
  split; [exact Hwf|].
  destruct (index_register 0 0xF329 glyph_example Hwf) as (_ & _ & H29);
    [vm_compute; reflexivity|].
  destruct H29 as [Hc Hg]; [reflexivity | reflexivity |].
  eexists. split; [exact Hc|]. split; [vm_compute; reflexivity|].
  specialize (Hg ltac:(vm_compute; discriminate)
                 ltac:(vm_compute; reflexivity)).
  vm_compute in Hg. vm_compute. exact Hg.
Defined.

(** ** Loading and reading the timers *)

Lemma exec_Fx15 rnd opcode c :
  Z.land opcode 0xF000 = 0xF000 -> Z.land opcode 0x00FF = 0x0015 ->
  executeOpcode rnd opcode c =
    Ok tt (set_PC (u16 (PC c + 2))
             (set_delayTimer (V c !!! Z.to_nat (field_x opcode)) c)).
Proof.
  intros H1 H2. unfold executeOpcode. rewrite H1, H2. cbv zeta.
  exec. reflexivity.
Qed.

Lemma exec_Fx18 rnd opcode c :
  Z.land opcode 0xF000 = 0xF000 -> Z.land opcode 0x00FF = 0x0018 ->
  executeOpcode rnd opcode c =
    Ok tt (set_PC (u16 (PC c + 2))
             (set_soundTimer (V c !!! Z.to_nat (field_x opcode)) c)).
Proof.
  intros H1 H2. unfold executeOpcode. rewrite H1, H2. cbv zeta.
  exec. reflexivity.
Qed.

Lemma exec_Fx07 rnd opcode c :
  Z.land opcode 0xF000 = 0xF000 -> Z.land opcode 0x00FF = 0x0007 ->
  executeOpcode rnd opcode c =
    Ok tt (set_PC (u16 (PC c + 2))
             (set_V (<[Z.to_nat (field_x opcode) := delayTimer c]> (V c)) c)).
Proof.
  intros H1 H2. unfold executeOpcode. rewrite H1, H2. cbv zeta.
  exec. reflexivity.
Qed.

(** X9: loading and reading the timers.  The timer update of a cycle comes
    after the operation, so a cycle on [Fx15] (or [Fx18]) with
    [V[x] = v] ends with the delay (or sound) timer at [v - 1], or at 0
    when [v = 0]: a value just loaded is already decremented once.  A cycle
    on [Fx07] copies the delay timer to [V[x]] as it was before that
    cycle's own decrement. *)
Theorem timer_load_read rnd opcode c :
  wf c -> fetch c = Ok opcode c -> Z.land opcode 0xF000 = 0xF000 ->
  let x := Z.to_nat (field_x opcode) in
  let vx := V c !!! x in
  (Z.land opcode 0x00FF = 0x0015 ->
   exists c',
     EmulateCycle rnd c = Ok tt c' /\
     delayTimer c' = (if vx >? 0 then vx - 1 else 0) /\
     soundTimer c' = (if soundTimer c >? 0 then soundTimer c - 1 else 0) /\
     V c' = V c /\ PC c' = PC c + 2) /\
  (Z.land opcode 0x00FF = 0x0018 ->
   exists c',
     EmulateCycle rnd c = Ok tt c' /\
     soundTimer c' = (if vx >? 0 then vx - 1 else 0) /\
     delayTimer c' = (if delayTimer c >? 0 then delayTimer c - 1 else 0) /\
     V c' = V c /\ PC c' = PC c + 2) /\
  (Z.land opcode 0x00FF = 0x0007 ->
   exists c',
     EmulateCycle rnd c = Ok tt c' /\
     V c' = <[x := delayTimer c]> (V c) /\
     V c' !!! x = delayTimer c /\
     delayTimer c' = (if delayTimer c >? 0 then delayTimer c - 1 else 0) /\
     PC c' = PC c + 2).
Proof.
  intros Hwf Hf H1 x vx.
  pose proof (wf_V_at c _ Hwf (field_x_bound opcode)) as Hvx.
  fold x vx in Hvx.
  destruct (decrement_u8 _ Hvx) as [Ev _].
  destruct (decrement_u8 _ (wf_delayTimer c Hwf)) as [Ed _].
  destruct (decrement_u8 _ (wf_soundTimer c Hwf)) as [Es _].
  split; [|split]; intros H2.
  - destruct (cycle_exec rnd opcode c _ Hwf Hf
                (exec_Fx15 rnd opcode c H1 H2)) as [Hc Hpc].
    eexists. split; [exact Hc|]. unfold ticked. fields. fold x vx.
    rewrite Ev, Es. repeat split; try done. apply u16_small. lia.
  - destruct (cycle_exec rnd opcode c _ Hwf Hf
                (exec_Fx18 rnd opcode c H1 H2)) as [Hc Hpc].
    eexists. split; [exact Hc|]. unfold ticked. fields. fold x vx.
    rewrite Ev, Ed. repeat split; try done. apply u16_small. lia.
  - destruct (cycle_exec rnd opcode c _ Hwf Hf
                (exec_Fx07 rnd opcode c H1 H2)) as [Hc Hpc].
    eexists. split; [exact Hc|]. unfold ticked. fields. fold x.
    rewrite Ed. split; [done|]. split.
    + apply list_lookup_total_insert_eq. rewrite (V_length c Hwf).
      apply field_x_nat.
    + split; [done|]. apply u16_small. lia.
Qed.

Lemma timer_load_read_witness :
  wf delay_example /\
  exists c', EmulateCycle 0 delay_example = Ok tt c' /\ delayTimer c' = 6.
Proof.
  assert (wf delay_example) as Hwf
    by (apply wfb_wf; vm_compute; reflexivity).
  split; [exact Hwf|].
  destruct (timer_load_read 0 0xF215 delay_example Hwf) as [H15 _];
    [vm_compute; reflexivity | reflexivity |].
  destruct H15 as (c' & Hc & Hd & _); [reflexivity|].
  exists c'. split; [exact Hc|]. rewrite Hd. vm_compute. reflexivity.
Defined.

(** ** Register block store and load *)

Lemma store_loop (l : list Z) c :
  0 <= I c ->
  (forall i, i ∈ l -> 0 <= i < 16 /\ I c + i < MemorySize) ->
  for_each l (fun i =>
    let* vi := V_at i in
    let* a := gets I in
    memory_assign (u16 (a + i)) vi) c =
  Ok tt (set_memory (stored (I c) (V c) l (memory c)) c).
Proof.
  intros HI. revert c HI. induction l as [|i l IH]; intros c HI Hl.
  - by destruct c.
  - destruct (Hl i) as [Hi Hin]; [by left|].
    cbn [for_each]. unfold stored. cbn [foldl].
    assert (u16 (I c + i) = I c + i) as E
      by (apply u16_small; unfold MemorySize in *; lia).
    unfold V_at, memory_assign. rewrite bind_assoc. exec1.
    rewrite bind_assoc. exec1. rewrite E. exec1.
    unfold V_at, memory_assign in IH. rewrite IH.
    + reflexivity.
    + exact HI.
    + intros j Hj. apply Hl. by right.
Qed.

Lemma load_loop (l : list Z) c :
  0 <= I c ->
  (forall i, i ∈ l -> 0 <= i < 16 /\ I c + i < MemorySize) ->
  for_each l (fun i =>
    let* a := gets I in
    let* b := memory_at (u16 (a + i)) in
    V_assign i b) c =
  Ok tt (set_V (loaded (I c) (memory c) l (V c)) c).
Proof.
  intros HI. revert c HI. induction l as [|i l IH]; intros c HI Hl.
  - by destruct c.
  - destruct (Hl i) as [Hi Hin]; [by left|].
    cbn [for_each]. unfold loaded. cbn [foldl].
    assert (u16 (I c + i) = I c + i) as E
      by (apply u16_small; unfold MemorySize in *; lia).
    unfold V_assign, memory_at. rewrite bind_assoc. exec1. rewrite E.
    rewrite bind_assoc. exec1. exec1.
    unfold V_assign, memory_at in IH. rewrite IH.
    + reflexivity.
    + exact HI.
    + intros j Hj. apply Hl. by right.
Qed.

Lemma stored_length base regs l mem :
  length (stored base regs l mem) = length mem.
Proof.
  revert mem. induction l as [|i l IH]; intros mem; [done|].
  unfold stored in *. cbn [foldl]. by rewrite IH, length_insert.
Qed.

Lemma loaded_length base mem l regs :
  length (loaded base mem l regs) = length regs.
Proof.
  revert regs. induction l as [|i l IH]; intros regs; [done|].
  unfold loaded in *. cbn [foldl]. by rewrite IH, length_insert.
Qed.

(** Reading the stored block: the bytes at [base + i] hold the registers,
    and every other byte is as before. *)
Lemma stored_lookup base regs (n : nat) mem :
  0 <= base -> (Z.to_nat base + n <= length mem)%nat ->
  let mem' := stored base regs (seqZ 0 (Z.of_nat n)) mem in
  (forall i, (i < n)%nat ->
     mem' !!! (Z.to_nat base + i)%nat = regs !!! i) /\
  (forall a, (a < Z.to_nat base \/ Z.to_nat base + n <= a)%nat ->
     mem' !!! a = mem !!! a).
Proof.
  intros Hb. induction n as [|n IH]; intros Hlen mem'.
  - split; [lia|done].
  - subst mem'. rewrite seqZ_S. unfold stored in *. rewrite foldl_app.
    cbn [foldl]. rewrite Z.add_0_l.
    destruct IH as [IH1 IH2]; [lia|]. split.
    + intros i Hi.
      replace (Z.to_nat (base + Z.of_nat n)) with (Z.to_nat base + n)%nat
        by lia.
      rewrite Nat2Z.id.
      destruct (decide (i = n)) as [->|Hne].
      * apply list_lookup_total_insert_eq.
        fold (stored base regs (seqZ 0 (Z.of_nat n)) mem).
        rewrite stored_length. lia.
      * rewrite list_lookup_total_insert_ne by lia. apply IH1. lia.
    + intros a Ha.
      rewrite list_lookup_total_insert_ne by lia. apply IH2. lia.
Qed.

Lemma loaded_lookup base mem (n : nat) regs :
  0 <= base -> (n <= length regs)%nat ->
  let regs' := loaded base mem (seqZ 0 (Z.of_nat n)) regs in
  (forall i, (i < n)%nat ->
     regs' !!! i = mem !!! (Z.to_nat base + i)%nat) /\
  (forall j, (n <= j)%nat -> regs' !!! j = regs !!! j).
Proof.
  intros Hb. induction n as [|n IH]; intros Hlen regs'.
  - split; [lia|done].
  - subst regs'. rewrite seqZ_S. unfold loaded in *. rewrite foldl_app.
    cbn [foldl]. rewrite Z.add_0_l.
    destruct IH as [IH1 IH2]; [lia|]. split.
    + intros i Hi. rewrite Nat2Z.id.
      replace (Z.to_nat (base + Z.of_nat n)) with (Z.to_nat base + n)%nat
        by lia.
      destruct (decide (i = n)) as [->|Hne].
      * apply list_lookup_total_insert_eq.
        fold (loaded base mem (seqZ 0 (Z.of_nat n)) regs).
        rewrite loaded_length. lia.
      * rewrite list_lookup_total_insert_ne by lia. apply IH1. lia.
    + intros j Hj. rewrite Nat2Z.id.
      rewrite list_lookup_total_insert_ne by lia. apply IH2. lia.
Qed.

Lemma exec_Fx55 rnd opcode c :
  Z.land opcode 0xF000 = 0xF000 -> Z.land opcode 0x00FF = 0x0055 ->
  0 <= I c -> I c + field_x opcode < MemorySize ->
  executeOpcode rnd opcode c =
    Ok tt (set_PC (u16 (PC c + 2))
             (set_memory (stored (I c) (V c) (seqZ 0 (field_x opcode + 1))
                            (memory c)) c)).
Proof.
  intros H1 H2 HI Hin. unfold executeOpcode. rewrite H1, H2. cbv zeta.
  pose proof (field_x_bound opcode) as Hx.
  assert (forall i, i ∈ seqZ 0 (field_x opcode + 1) ->
            0 <= i < 16 /\ I c + i < MemorySize) as Hl
    by (intros i Hi%elem_of_seqZ; lia).
  rewrite (bind_Ok _ _ _ _ _ (store_loop _ c HI Hl)). reflexivity.
Qed.

Lemma exec_Fx65 rnd opcode c :
  Z.land opcode 0xF000 = 0xF000 -> Z.land opcode 0x00FF = 0x0065 ->
  0 <= I c -> I c + field_x opcode < MemorySize ->
  executeOpcode rnd opcode c =
    Ok tt (set_PC (u16 (PC c + 2))
             (set_V (loaded (I c) (memory c) (seqZ 0 (field_x opcode + 1))
                       (V c)) c)).
Proof.
  intros H1 H2 HI Hin. unfold executeOpcode. rewrite H1, H2. cbv zeta.
  pose proof (field_x_bound opcode) as Hx.
  assert (forall i, i ∈ seqZ 0 (field_x opcode + 1) ->
            0 <= i < 16 /\ I c + i < MemorySize) as Hl
    by (intros i Hi%elem_of_seqZ; lia).
  rewrite (bind_Ok _ _ _ _ _ (load_loop _ c HI Hl)). reflexivity.
Qed.

(** X10: register block store and load.  With the block inside memory, a
    cycle's operation [Fx55] copies [V[0]] to [V[x]] to memory at [I] to
    [I + x], in that order, and changes no other byte, no register and not
    [I].  A later [Fx65] for the same [x], in any state with the same [I]
    and those bytes, brings back the saved values of [V[0]] to [V[x]],
    whatever the registers held in between, and leaves the registers above
    [x], memory and [I] as they are. *)
Theorem block_round_trip rnd opcode c :
  wf c -> Z.land opcode 0xF000 = 0xF000 -> Z.land opcode 0x00FF = 0x0055 ->
  I c + field_x opcode < MemorySize ->
  let x := Z.to_nat (field_x opcode) in
  let base := Z.to_nat (I c) in
  exists c1,
    executeOpcode rnd opcode c = Ok tt c1 /\
    V c1 = V c /\ I c1 = I c /\
    (forall i, (i <= x)%nat -> memory c1 !!! (base + i)%nat = V c !!! i) /\
    (forall a, (a < base \/ base + x < a)%nat ->
       memory c1 !!! a = memory c !!! a) /\
    forall rnd' opcode' c2,
      Z.land opcode' 0xF000 = 0xF000 -> Z.land opcode' 0x00FF = 0x0065 ->
      field_x opcode' = field_x opcode ->
      I c2 = I c -> length (V c2) = 16%nat ->
      (forall i, (i <= x)%nat ->
         memory c2 !!! (base + i)%nat = memory c1 !!! (base + i)%nat) ->
      exists c3,
        executeOpcode rnd' opcode' c2 = Ok tt c3 /\
        (forall i, (i <= x)%nat -> V c3 !!! i = V c !!! i) /\
        (forall j, (x < j)%nat -> V c3 !!! j = V c2 !!! j) /\
        memory c3 = memory c2 /\ I c3 = I c2.
Proof.
  intros Hwf H1 H2 Hin x base.
  pose proof (wf_I c Hwf) as HI. unfold is_u16 in HI.
  pose proof (wf_memory_len c Hwf) as Hlen.
  pose proof (field_x_bound opcode) as Hx. unfold MemorySize in *.
  assert (field_x opcode + 1 = Z.of_nat (S x)) as Ex by lia.
  destruct (stored_lookup (I c) (V c) (S x) (memory c)) as [Hs1 Hs2];
    [lia | lia |]. fold base in Hs1, Hs2.
  eexists. split; [apply exec_Fx55; try done; unfold MemorySize; lia|].
  fields. rewrite Ex. split; [done|]. split; [done|].
  split; [intros i Hi; apply Hs1; lia|].
  split; [intros a Ha; apply Hs2; lia|].
  intros rnd' opcode' c2 H1' H2' Hx' HI2 HV2 Hmem.
  destruct (loaded_lookup (I c2) (memory c2) (S x) (V c2)) as [Hl1 Hl2];
    [lia | lia |].
  eexists. split.
  { apply exec_Fx65; try done; rewrite ?HI2, ?Hx'; unfold MemorySize; lia. }
  fields. rewrite Hx', Ex. split; [|split; [|done]].
  - intros i Hi. rewrite Hl1 by lia. rewrite HI2. fold base.
    rewrite Hmem by done. apply Hs1. lia.
  - intros j Hj. apply Hl2. lia.
Qed.

Lemma block_round_trip_witness :
  wf block_example /\
  exists c1 c3,
    executeOpcode 0 0xF355 block_example = Ok tt c1 /\
    memory c1 !!! 1024%nat = 11 /\ memory c1 !!! 1027%nat = 44 /\
    executeOpcode 0 0xF365 (set_V (replicate 16 0xEE) c1) = Ok tt c3 /\
    V c3 !!! 0%nat = 11 /\ V c3 !!! 3%nat = 44 /\ V c3 !!! 4%nat = 0xEE.
Proof.
  assert (wf block_example) as Hwf
    by (apply wfb_wf; vm_compute; reflexivity).
  split; [exact Hwf|].
  destruct (block_round_trip 0 0xF355 block_example Hwf)
    as (c1 & Hc1 & _ & HI1 & Hmem & _ & Hback);
    [reflexivity | reflexivity | vm_compute; reflexivity |].
  destruct (Hback 0 0xF365 (set_V (replicate 16 0xEE) c1))
    as (c3 & Hc3 & Hlow & Hhigh & _);
    [reflexivity | reflexivity | reflexivity
    | exact HI1 | reflexivity | reflexivity |].
  assert (Z.to_nat (field_x 0xF355) = 3%nat) as Ex
    by (vm_compute; reflexivity).
  assert (Z.to_nat (I block_example) = 1024%nat) as Eb
    by (vm_compute; reflexivity).
  rewrite Ex in Hmem, Hlow, Hhigh. rewrite Eb in Hmem.
  exists c1, c3. split; [exact Hc1|].
  pose proof (Hmem 0%nat ltac:(lia)) as M0.
  pose proof (Hmem 3%nat ltac:(lia)) as M3.
  change (1024 + 0)%nat with 1024%nat in M0.
  change (1024 + 3)%nat with 1027%nat in M3.
  split; [rewrite M0; vm_compute; reflexivity|].
  split; [rewrite M3; vm_compute; reflexivity|].
  split; [exact Hc3|].
  split; [rewrite (Hlow 0%nat) by lia; vm_compute; reflexivity|].
  split; [rewrite (Hlow 3%nat) by lia; vm_compute; reflexivity|].
  rewrite (Hhigh 4%nat) by lia. reflexivity.
Defined.

(** ** Clearing the screen and the draw flag *)

Lemma exec_00E0 rnd c :
  executeOpcode rnd 0x00E0 c =
    Ok tt (set_PC (u16 (PC c + 2))
             (set_drawFlag true
                (set_display (replicate (length (display c)) 0) c))).
Proof.
  unfold executeOpcode. change (Z.land 0x00E0 0xF000) with 0. cbv zeta iota.
  exec. by rewrite (const_fmap (fun _ : Z => 0) (display c) 0).
Qed.

(** X11: clearing the screen.  A cycle on [00E0] turns every pixel of the
    frame buffer off, raises the draw flag and advances by 2, leaving the
    registers as they are.  [DrawFlag] then returns true once: it clears
    the flag, so that a second call returns false, and it does not touch
    the frame buffer that [GetDisplay] returns. *)
Theorem clear_screen rnd c :
  wf c -> fetch c = Ok 0x00E0 c ->
  exists c',
    EmulateCycle rnd c = Ok tt c' /\
    GetDisplay c' = replicate 2048 0 /\
    V c' = V c /\ PC c' = PC c + 2 /\
    fst (DrawFlag c') = true /\
    fst (DrawFlag (snd (DrawFlag c'))) = false /\
    GetDisplay (snd (DrawFlag c')) = GetDisplay c'.
Proof.
  intros Hwf Hf.
  destruct (cycle_exec rnd _ c _ Hwf Hf (exec_00E0 rnd c)) as [Hc Hpc].
  eexists. split; [exact Hc|]. unfold GetDisplay, DrawFlag, ticked. fields.
  cbn [fst snd]. fields.
  rewrite (wf_display_len c Hwf). repeat split; try done.
  apply u16_small. lia.
Qed.

Lemma clear_screen_witness :
  wf clear_example /\ lit (GetDisplay clear_example) = [7; 200] /\
  exists c',
    EmulateCycle 0 clear_example = Ok tt c' /\ lit (GetDisplay c') = [] /\
    fst (DrawFlag c') = true.
Proof.
  assert (wf clear_example) as Hwf
    by (apply wfb_wf; vm_compute; reflexivity).
  split; [exact Hwf|]. split; [vm_compute; reflexivity|].
  destruct (clear_screen 0 clear_example Hwf)
    as (c' & Hc & Hd & _ & _ & Hflag & _); [vm_compute; reflexivity|].
  exists c'. split; [exact Hc|]. split; [|exact Hflag].
  rewrite Hd. vm_compute. reflexivity.
Defined.

(** ** Key events *)

(** X12: key events and key skips.  [SetKey] with an index of 16 or more
    changes nothing.  With an index below 16 it sets that key, leaves the
    other fifteen and the rest of the state as they are, and a following
    [Ex9E] with [V[x]] at that index advances by 4 exactly when the key was
    set to pressed, [ExA1] exactly when it was set to released. *)
Theorem set_key_then_skip rnd opcode key pressed c :
  wf c -> 0 <= key ->
  (16 <= key -> SetKey key pressed c = c) /\
  (key < 16 ->
   let c1 := SetKey key pressed c in
   c1 = set_keys (keys c1) c /\
   keys c1 !!! Z.to_nat key = pressed /\
   (forall j, j <> Z.to_nat key -> keys c1 !!! j = keys c !!! j) /\
   (Z.land opcode 0xF000 = 0xE000 ->
    V c !!! Z.to_nat (field_x opcode) = key ->
    (Z.land opcode 0x00FF = 0x009E ->
     executeOpcode rnd opcode c1 =
       Ok tt (set_PC (u16 (PC c + if pressed then 4 else 2)) c1)) /\
    (Z.land opcode 0x00FF = 0x00A1 ->
     executeOpcode rnd opcode c1 =
       Ok tt (set_PC (u16 (PC c + if pressed then 2 else 4)) c1)))).
Proof.
  intros Hwf Hk0. split.
  - intros Hk. unfold SetKey. by rewrite (proj2 (Z.ltb_ge _ _) Hk).
  - intros Hk c1.
    pose proof (wf_keys_len c Hwf) as Hlen. unfold KeyCount in Hlen.
    assert (c1 = set_keys (<[Z.to_nat key := pressed]> (keys c)) c) as E1.
    { subst c1. unfold SetKey. by rewrite (proj2 (Z.ltb_lt _ _) Hk). }
    assert (keys c1 !!! Z.to_nat key = pressed) as Ekey.
    { rewrite E1. fields. apply list_lookup_total_insert_eq. lia. }
    split; [by rewrite E1|]. split; [exact Ekey|]. split.
    { intros j Hj. rewrite E1. fields.
      by apply list_lookup_total_insert_ne. }
    intros H1 Hvx.
    assert (V c1 = V c) as EV by (by rewrite E1).
    assert (PC c1 = PC c) as EPC by (by rewrite E1).
    split; intros H2.
    + rewrite (exec_Ex9E rnd opcode c1 H1 H2). rewrite EV, Hvx, EPC, Ekey.
      unfold KeyCount. by rewrite (proj2 (Z.ltb_lt _ _) Hk).
    + rewrite (exec_ExA1 rnd opcode c1 H1 H2). rewrite EV, Hvx, EPC, Ekey.
      unfold KeyCount. by rewrite (proj2 (Z.ltb_lt _ _) Hk).
Qed.

Lemma set_key_then_skip_witness :
  wf key_event_example /\
  SetKey 16 true key_event_example = key_event_example /\
  exists c',
    executeOpcode 0 0xE49E (SetKey 9 true key_event_example) = Ok tt c' /\
    PC c' = 0x204.
Proof.
  assert (wf key_event_example) as Hwf
    by (apply wfb_wf; vm_compute; reflexivity).
  split; [exact Hwf|].
  destruct (set_key_then_skip 0 0xE49E 16 true key_event_example Hwf)
    as [Hign _]; [lia|].
  split; [apply Hign; lia|].
  destruct (set_key_then_skip 0 0xE49E 9 true key_event_example Hwf)
    as [_ Hset]; [lia|].
  destruct Hset as (_ & _ & _ & Hskip); [lia|].
  destruct Hskip as [H9E _]; [reflexivity | vm_compute; reflexivity |].
  eexists. split; [apply H9E; reflexivity|]. vm_compute. reflexivity.
Defined.

(** ** The bounds of the stack *)

(** X13: the bounds of the stack.  A call [2nnn] returns exactly when the
    stack pointer is at most 15; at 16 or more the store [stack[SP]] panics
    and the state is as before.  A return [00EE] returns exactly when the
    stack pointer is between 1 and 16; from 0 the decrement wraps to 255,
    and there, as from 17 or more, the read [stack[SP]] panics with the
    stack pointer already decremented. *)
Theorem stack_bounds rnd c :
  wf c ->
  (forall opcode, Z.land opcode 0xF000 = 0x2000 ->
     (SP c <= 15 -> exists c', executeOpcode rnd opcode c = Ok tt c') /\
     (16 <= SP c -> executeOpcode rnd opcode c = Panic c)) /\
  (1 <= SP c <= 16 ->
   exists c', executeOpcode rnd 0x00EE c = Ok tt c' /\ SP c' = SP c - 1) /\
  (SP c = 0 -> executeOpcode rnd 0x00EE c = Panic (set_SP 255 c)) /\
  (17 <= SP c -> executeOpcode rnd 0x00EE c = Panic (set_SP (SP c - 1) c)).
Proof.
  intros Hwf. pose proof (wf_SP c Hwf) as Hsp. unfold is_u8 in Hsp.
  assert (forall sp, StackSize <= u8 (SP c - 1) -> u8 (SP c - 1) = sp ->
            executeOpcode rnd 0x00EE c = Panic (set_SP sp c)) as Hpanic.
  { intros sp Hout <-. unfold executeOpcode.
    change (Z.land 0x00EE 0xF000) with 0. cbv zeta iota.
    unfold_ops. exec1. fields. exec1. fields.
    by rewrite (bind_Panic _ _ _ _ (at_index_Panic stack _ _ _ Hout)). }
  split; [|split; [|split]].
  - intros opcode H1. split; intros H.
    + eexists. apply exec_2nnn; [done|lia].
    + unfold executeOpcode. rewrite H1. cbv zeta. unfold_ops.
      exec1. exec1.
      by rewrite (bind_Panic _ _ _ _
                    (assign_index_Panic stack set_stack _ _ _ c H)).
  - intros H.
    assert (u8 (SP c - 1) = SP c - 1) as E
      by (unfold u8; apply Z.mod_small; lia).
    eexists. split; [apply exec_00EE; lia|]. fields. exact E.
  - intros H. apply Hpanic; rewrite H; [vm_compute; discriminate|reflexivity].
  - intros H.
    assert (u8 (SP c - 1) = SP c - 1) as E
      by (unfold u8; apply Z.mod_small; lia).
    apply Hpanic; [unfold StackSize; lia | exact E].
Qed.

Lemma stack_bounds_witness :
  wf full_stack_example /\ wf empty_stack_example /\
  executeOpcode 0 0x2300 full_stack_example = Panic full_stack_example /\
  executeOpcode 0 0x00EE empty_stack_example =
    Panic (set_SP 255 empty_stack_example).
Proof.
  assert (wf full_stack_example) as Hfull
    by (apply wfb_wf; vm_compute; reflexivity).
  assert (wf empty_stack_example) as Hempty
    by (apply wfb_wf; vm_compute; reflexivity).
  split; [exact Hfull|]. split; [exact Hempty|]. split.
  - destruct (stack_bounds 0 full_stack_example Hfull) as [Hcall _].
    destruct (Hcall 0x2300) as [_ Hp]; [reflexivity|].
    apply Hp. vm_compute. discriminate.
  - destruct (stack_bounds 0 empty_stack_example Hempty)
      as (_ & _ & Hret & _).
    apply Hret. reflexivity.
Defined.

(** ** Unknown encodings *)

Lemma exec_unknown rnd opcode c :
  is_unknown opcode = true ->
  executeOpcode rnd opcode c = Ok tt (set_PC (u16 (PC c + 2)) c).
Proof.
  unfold is_unknown. cbv zeta. intros Hu.
  unfold executeOpcode. cbv zeta.
  repeat case_match; try reflexivity;
    exfalso;
    repeat match goal with
           | H : Z.land _ _ = _ |- _ => rewrite H in Hu; clear H
           end;
    vm_compute in Hu; discriminate Hu.
Qed.

(** X14: unknown encodings.  A word that no case of the decoder handles
    (a [0nnn] other than [00E0] and [00EE], an [8xy_] with low nibble 8 to
    D or F, an [Ex__] other than [Ex9E] and [ExA1], an [Fx__] outside the
    nine known low bytes) does not stop the machine: the cycle advances the
    program counter by 2 and changes nothing else but the timers. *)
Theorem unknown_opcode_advances rnd opcode c :
  wf c -> fetch c = Ok opcode c -> is_unknown opcode = true ->
  EmulateCycle rnd c = Ok tt (ticked (set_PC (PC c + 2) c)).
Proof.
  intros Hwf Hf Hu.
  destruct (cycle_exec rnd opcode c _ Hwf Hf (exec_unknown rnd opcode c Hu))
    as [Hc Hpc].
  by rewrite u16_small in Hc by lia.
Qed.

Lemma unknown_opcode_advances_witness :
  wf unknown_example /\
  exists c', EmulateCycle 0 unknown_example = Ok tt c' /\ PC c' = 0x202.
Proof.
  assert (wf unknown_example) as Hwf
    by (apply wfb_wf; vm_compute; reflexivity).
  split; [exact Hwf|].
  eexists. split.
  - apply (unknown_opcode_advances 0 0xE100 unknown_example Hwf);
      vm_compute; reflexivity.
  - vm_compute. reflexivity.
Defined.

(** ** The instruction word *)

Lemma big_endian hi lo :
  0 <= hi < 256 -> 0 <= lo < 256 ->
  Z.lor (u16 (Z.shiftl hi 8)) lo = 256 * hi + lo.
Proof.
  intros Hhi Hlo. rewrite Z.shiftl_mul_pow2 by lia. change (2 ^ 8) with 256.
  rewrite u16_small by lia.
  assert (Z.land (hi * 256) lo = 0) as Hdisj.
  { rewrite <- (Z.mod_small lo 256) by lia. change 256 with (2 ^ 8).
    rewrite <- (Z.land_ones lo) by lia.
    rewrite (Z.land_comm lo), Z.land_assoc, Z.land_ones by lia.
    by rewrite Z.mod_mul by lia. }
  pose proof (Z.add_lor_land (hi * 256) lo). lia.
Qed.

Lemma fetch_in_range c :
  wf c -> PC c <= 4094 ->
  fetch c = Ok (256 * memory c !!! Z.to_nat (PC c) +
                memory c !!! Z.to_nat (PC c + 1)) c.
Proof.
  intros Hwf Hin. pose proof (wf_PC c Hwf) as Hpc. unfold is_u16 in Hpc.
  pose proof (wf_memory_at c (PC c) Hwf ltac:(lia)) as Hhi.
  pose proof (wf_memory_at c (PC c + 1) Hwf ltac:(lia)) as Hlo.
  unfold is_u8 in Hhi, Hlo.
  assert (u16 (PC c + 1) = PC c + 1) as E by (apply u16_small; lia).
  unfold fetch, memory_at. exec1.
  rewrite (bind_Ok _ _ _ _ _
             (at_index_Ok memory MemorySize (PC c) c
                ltac:(unfold MemorySize; lia))).
  rewrite E.
  rewrite (bind_Ok _ _ _ _ _
             (at_index_Ok memory MemorySize (PC c + 1) c
                ltac:(unfold MemorySize; lia))).
  unfold ret. by rewrite big_endian.
Qed.

(** X15: the fetch.  With the program counter at most 4094, the fetched
    word is 256 times the byte at [PC] plus the byte at [PC + 1]
    (big-endian), a 16-bit value, and the fetch changes nothing.  With
    the program counter at 4095 or beyond, a byte of the word lies outside
    memory and the cycle panics before any operation, with the state as it
    was. *)
Theorem fetch_word c :
  wf c ->
  (PC c <= 4094 ->
   let word := 256 * memory c !!! Z.to_nat (PC c) +
               memory c !!! Z.to_nat (PC c + 1) in
   fetch c = Ok word c /\ 0 <= word < 65536) /\
  (4095 <= PC c -> forall rnd, EmulateCycle rnd c = Panic c).
Proof.
  intros Hwf. pose proof (wf_PC c Hwf) as Hpc. unfold is_u16 in Hpc.
  split.
  - intros Hin word. split; [by apply fetch_in_range|].
    pose proof (wf_memory_at c (PC c) Hwf ltac:(lia)) as Hhi.
    pose proof (wf_memory_at c (PC c + 1) Hwf ltac:(lia)) as Hlo.
    unfold is_u8 in Hhi, Hlo. subst word. lia.
  - intros Hout rnd. unfold EmulateCycle, fetch, memory_at.
    unfold bind at 1 2. unfold gets.
    unfold bind at 1, at_index at 1.
    destruct (PC c <? MemorySize) eqn:E1; [|reflexivity].
    unfold bind at 1, at_index at 1.
    assert ((u16 (PC c + 1) <? MemorySize) = false) as ->; [|reflexivity].
    unfold MemorySize in *. rewrite u16_small by lia. lia.
Qed.

Lemma fetch_word_witness :
  wf pc_edge_example /\ wf skip_example /\
  EmulateCycle 0 pc_edge_example = Panic pc_edge_example /\
  fetch skip_example = Ok 0x3205 skip_example.
Proof.
  assert (wf pc_edge_example) as Hedge
    by (apply wfb_wf; vm_compute; reflexivity).
  assert (wf skip_example) as Hskip
    by (apply wfb_wf; vm_compute; reflexivity).
  split; [exact Hedge|]. split; [exact Hskip|]. split.
  - destruct (fetch_word pc_edge_example Hedge) as [_ Hp].
    apply Hp. vm_compute. discriminate.
  - destruct (fetch_word skip_example Hskip) as [Hw _].
    destruct Hw as [Hw _]; [vm_compute; discriminate|].
    rewrite Hw. f_equal.
Defined.

(** X16: a loaded program is what runs.  After [LoadROM] of a ROM that
    fits into a machine, a fetch with the program counter at
    [0x200 + k] returns the ROM's bytes [k] and [k + 1] as one big-endian
    word: on a new machine ([PC = 0x200]) the first cycle decodes the
    first two bytes of the ROM. *)
Theorem loaded_program_runs rom c (k : nat) :
  wf c -> Forall is_u8 rom ->
  Z.of_nat (length rom) <= MemorySize - 0x200 ->
  (k + 1 < length rom)%nat ->
  PC c = 0x200 + Z.of_nat k ->
  let c' := snd (LoadROM rom c) in
  fst (LoadROM rom c) = None /\
  fetch c' = Ok (256 * rom !!! k + rom !!! (k + 1)%nat) c'.
Proof.
  intros Hwf Hrom Hlen Hk Hpc c'. unfold MemorySize in Hlen.
  assert (LoadROM rom c =
          (None, set_memory (take 512 (memory c) ++ rom ++
                             drop (512 + length rom) (memory c)) c)) as E.
  { unfold LoadROM.
    assert ((Z.of_nat (length rom) >? MemorySize - 0x200) = false) as ->
      by (unfold MemorySize; lia).
    by rewrite copy_slice_fits by lia. }
  subst c'. rewrite E. cbn [fst snd]. split; [done|].
  set (c' := set_memory _ c).
  assert (wf c') as Hwf'.
  { pose proof (LoadROM_wf rom c Hrom Hwf) as H. by rewrite E in H. }
  pose proof (wf_memory_len c Hwf) as Hmem. unfold MemorySize in Hmem.
  assert (forall i, (i < length rom)%nat ->
            memory c' !!! (512 + i)%nat = rom !!! i) as Hbyte.
  { intros i Hi. subst c'. fields.
    rewrite lookup_total_app_r by (rewrite length_take; lia).
    rewrite length_take.
    replace (512 + i - 512 `min` length (memory c))%nat with i by lia.
    by rewrite lookup_total_app_l. }
  rewrite (fetch_in_range c' Hwf') by (subst c'; fields; lia).
  subst c'. fields. rewrite Hpc.
  replace (Z.to_nat (0x200 + Z.of_nat k)) with (512 + k)%nat by lia.
  replace (Z.to_nat (0x200 + Z.of_nat k + 1)) with (512 + (k + 1))%nat
    by lia.
  rewrite !Hbyte by lia. reflexivity.
Qed.

Lemma loaded_program_runs_witness :
  wf New /\
  fetch (snd (LoadROM [0x12; 0x34; 0x56] New)) =
    Ok 0x1234 (snd (LoadROM [0x12; 0x34; 0x56] New)).
Proof.
  split; [exact wf_New|].
  destruct (loaded_program_runs [0x12; 0x34; 0x56] New 0 wf_New) as [_ Hf].
  - repeat constructor; unfold is_u8; lia.
  - vm_compute. discriminate.
  - vm_compute. lia.
  - reflexivity.
  - exact Hf.
Defined.

(** ** The random byte *)

Lemma exec_Cxkk rnd opcode c :
  Z.land opcode 0xF000 = 0xC000 ->
  executeOpcode rnd opcode c =
    Ok tt (set_PC (u16 (PC c + 2))
             (set_V (<[Z.to_nat (field_x opcode) :=
                         Z.land (u8 rnd) (field_kk opcode)]> (V c)) c)).
Proof.
  intros H. unfold executeOpcode. rewrite H. cbv zeta. exec. reflexivity.
Qed.

Lemma land_le_r a b : 0 <= b -> 0 <= Z.land a b <= b.
Proof.
  intros Hb. apply Z.ldiff_le; [done|].
  rewrite Z.ldiff_land, <- Z.land_assoc, Z.land_lnot_diag.
  apply Z.land_0_r.
Qed.

(** X17: the random byte.  Whatever the random source returns, a cycle on
    [Cxkk] leaves in [V[x]] that byte masked by [kk]: a value between 0 and
    [kk] with no bit outside [kk], so 0 when [kk = 0], and the byte itself
    when [kk = 0xFF].  The other registers stay, the flag register
    included. *)
Theorem random_masked rnd opcode c :
  wf c -> fetch c = Ok opcode c -> Z.land opcode 0xF000 = 0xC000 ->
  let x := Z.to_nat (field_x opcode) in
  let kk := field_kk opcode in
  exists c',
    EmulateCycle rnd c = Ok tt c' /\
    c' = ticked (set_PC (PC c + 2)
                   (set_V (<[x := Z.land (rnd mod 256) kk]> (V c)) c)) /\
    0 <= V c' !!! x <= kk /\
    Z.land (V c' !!! x) kk = V c' !!! x /\
    (kk = 0xFF -> V c' !!! x = rnd mod 256) /\
    (forall i, i <> x -> V c' !!! i = V c !!! i).
Proof.
  intros Hwf Hf H1 x kk.
  destruct (register_result rnd opcode c _ Hwf Hf (exec_Cxkk rnd opcode c H1))
    as (c' & Hc & Ec & Hx & Hi).
  fold x kk in Ec, Hx, Hi. unfold u8 in *.
  pose proof (field_kk_bound opcode) as Hkk. fold kk in Hkk.
  exists c'. split; [exact Hc|]. split; [exact Ec|]. rewrite Hx.
  split; [apply land_le_r; lia|].
  split; [by rewrite <- Z.land_assoc, Z.land_diag|].
  split; [|exact Hi].
  intros ->. change 0xFF with (Z.ones 8). rewrite Z.land_ones by lia.
  change (2 ^ 8) with 256. apply Z.mod_small. apply Z.mod_pos_bound. lia.
Qed.

Lemma random_masked_witness :
  wf random_example /\
  exists c',
    EmulateCycle 0xABC random_example = Ok tt c' /\ V c' !!! 5%nat = 0x0C.
Proof.
  assert (wf random_example) as Hwf
    by (apply wfb_wf; vm_compute; reflexivity).
  split; [exact Hwf|].
  destruct (random_masked 0xABC 0xC50F random_example Hwf)
    as (c' & Hc & Ec & _); [vm_compute; reflexivity | reflexivity |].
  exists c'. split; [exact Hc|]. rewrite Ec. vm_compute. reflexivity.
Defined.

(** ** The footprint of an operation *)

Ltac footprint_side :=
  cbv beta;
  lazymatch goal with
  | |- ?P (?set _ _) =>
      lazymatch goal with
      | H : _ \/ (forall c v, P c -> P (set v c)) |- _ =>
          destruct H as [E|H]; [decode_contradiction E | by apply H]
      | H : forall c v, P c -> P (set v c) |- _ => by apply H
      end
  end.

Ltac footprint_step :=
  lazymatch goal with
  | |- triple _ (bind _ _) _ =>
      eapply (triple_bind _ _ _ any); [|intros ? _]
  | |- triple _ (ret _) _ => by apply triple_ret
  | |- triple _ (gets _) _ => by apply triple_gets
  | |- triple _ (at_index _ _ _) _ => by apply triple_at_index
  | |- triple _ (modify _) _ =>
      apply triple_modify; intros ? ?; footprint_side
  | |- triple _ (assign_index _ _ _ _ _) _ =>
      apply triple_assign_index; intros ? ? _; footprint_side
  | |- triple _ (for_each _ _) _ => apply triple_for_each; intros ? _
  | |- triple _ (scan_keys _ _) _ =>
      apply triple_scan_keys; intros ?; unfold V_assign
  | |- triple _ (if ?b then _ else _) _ => destruct b
  end.

Lemma executeOpcode_footprint P rnd opcode :
  (forall c v, P c -> P (set_V v c)) ->
  (forall c v, P c -> P (set_PC v c)) ->
  (forall c v, P c -> P (set_delayTimer v c)) ->
  (forall c v, P c -> P (set_soundTimer v c)) ->
  (is_store opcode = false \/ forall c v, P c -> P (set_memory v c)) ->
  (sets_I opcode = false \/ forall c v, P c -> P (set_I v c)) ->
  (is_call opcode = false \/ forall c v, P c -> P (set_stack v c)) ->
  (is_call opcode || is_return opcode = false \/
   forall c v, P c -> P (set_SP v c)) ->
  (is_draw opcode = false \/ forall c v, P c -> P (set_display v c)) ->
  (is_draw opcode = false \/ forall c v, P c -> P (set_drawFlag v c)) ->
  triple P (executeOpcode rnd opcode) any.
Proof.
  intros HV HPC Hdt Hsnd Hmem HI Hst HSP Hd Hf.
  unfold is_store, sets_I, is_call, is_return, is_draw in *.
  unfold executeOpcode, drawSprite. cbv zeta. unfold_ops. unfold advance.
  repeat case_match; repeat footprint_step.
Qed.

Lemma EmulateCycle_keys rnd c : keys (final (EmulateCycle rnd c)) = keys c.
Proof.
  pose (P := fun s => keys s = keys c).
  assert (triple P (EmulateCycle rnd) any) as Ht.
  { unfold EmulateCycle.
    eapply (triple_bind _ _ _ any).
    { unfold fetch. unfold_ops. repeat frame_step. }
    intros opcode _. eapply (triple_bind _ _ _ any).
    { apply executeOpcode_frame; [by constructor|by right..]. }
    intros _ _. unfold update_timers.
    repeat lazymatch goal with
           | |- triple _ (modify _) _ => by apply triple_modify
           | |- _ => frame_step
           end. }
  specialize (Ht c eq_refl). destruct (EmulateCycle rnd c); apply Ht.
Qed.

(** X18: what an operation leaves alone.  Whether it returns or panics,
    no operation and no cycle writes the key flags; only [Dxyn] and [00E0]
    change the frame buffer or the draw flag; only [2nnn] changes the
    stack, and only [2nnn] and [00EE] the stack pointer; only [Annn],
    [Fx1E] and [Fx29] change [I]; only [Fx33] and [Fx55] change memory. *)
Theorem operation_footprint rnd opcode c :
  let c' := final (executeOpcode rnd opcode c) in
  keys c' = keys c /\
  keys (final (EmulateCycle rnd c)) = keys c /\
  (is_draw opcode = false ->
   display c' = display c /\ drawFlag c' = drawFlag c) /\
  (is_call opcode = false -> stack c' = stack c) /\
  (is_call opcode || is_return opcode = false -> SP c' = SP c) /\
  (sets_I opcode = false -> I c' = I c) /\
  (is_store opcode = false -> memory c' = memory c).
Proof.
  intros c'.
  assert (forall (P : Chip8 -> Prop),
            P c -> triple P (executeOpcode rnd opcode) any -> P c') as Hfin.
  { intros P Hc Ht. specialize (Ht c Hc). subst c'.
    destruct (executeOpcode rnd opcode c); apply Ht. }
  split; [|split; [apply EmulateCycle_keys|]].
  { apply (Hfin (fun s => keys s = keys c)); [done|].
    apply executeOpcode_footprint; try done; by right. }
  split; [|split; [|split; [|split]]]; intros Hop.
  - split.
    + apply (Hfin (fun s => display s = display c)); [done|].
      apply executeOpcode_footprint; try done; (by left) || by right.
    + apply (Hfin (fun s => drawFlag s = drawFlag c)); [done|].
      apply executeOpcode_footprint; try done; (by left) || by right.
  - apply (Hfin (fun s => stack s = stack c)); [done|].
    apply executeOpcode_footprint; try done; (by left) || by right.
  - apply (Hfin (fun s => SP s = SP c)); [done|].
    apply executeOpcode_footprint; try done; (by left) || by right.
  - apply (Hfin (fun s => I s = I c)); [done|].
    apply executeOpcode_footprint; try done; (by left) || by right.
  - apply (Hfin (fun s => memory s = memory c)); [done|].
    apply executeOpcode_footprint; try done; (by left) || by right.
Qed.

Lemma operation_footprint_witness :
  display (final (executeOpcode 0 0x7464 clear_example)) =
    display clear_example /\
  stack (final (executeOpcode 0 0x00EE empty_stack_example)) =
    stack empty_stack_example.
Proof.
  split.
  - destruct (operation_footprint 0 0x7464 clear_example)
      as (_ & _ & Hd & _).
    apply Hd. reflexivity.
  - destruct (operation_footprint 0 0x00EE empty_stack_example)
      as (_ & _ & _ & Hs & _).
    apply Hs. reflexivity.
Defined.

(** ** Blank sprites *)

Lemma row_pixels_blank xPos yPos row : row_pixels xPos yPos row 0 = [].
Proof. reflexivity. Qed.

Lemma sprite_pixels_blank c x y height :
  0 <= I c ->
  (forall row, 0 <= row < height ->
     I c + row < MemorySize /\ memory c !!! Z.to_nat (I c + row) = 0) ->
  sprite_pixels c x y height = [].
Proof.
  intros HI Hzero. unfold sprite_pixels. cbv zeta.
  assert (forall l : list Z,
            (forall row, row ∈ l -> 0 <= row < height) ->
            l ≫= (fun row =>
                    row_pixels
                      ((<[15%nat := 0]> (V c) !!! Z.to_nat x) mod ScreenWidth)
                      ((<[15%nat := 0]> (V c) !!! Z.to_nat y) mod ScreenHeight)
                      row (memory c !!! Z.to_nat (u16 (I c + row)))) = [])
    as Hall.
  { induction l as [|row l IH]; intros Hl; [done|].
    rewrite bind_cons, IH by (intros r Hr; apply Hl; by right).
    assert (0 <= row < height) as Hrow by (apply Hl; by left).
    destruct (Hzero row Hrow) as [Hin Hbyte].
    rewrite u16_small by (unfold MemorySize in *; lia).
    by rewrite Hbyte, row_pixels_blank. }
  apply Hall. intros row Hrow%elem_of_seqZ. lia.
Qed.

(** X19: blank sprites.  A draw of no rows ([Dxy0]), wherever [I] points,
    or of rows that lie inside memory and whose sprite bytes are all 0,
    changes no pixel; it still clears the flag register and raises the draw
    flag. *)
Theorem blank_sprite x y height c :
  wf c -> 0 <= x < 16 -> 0 <= y < 16 -> 0 <= height ->
  (forall row, 0 <= row < height ->
     I c + row < MemorySize /\ memory c !!! Z.to_nat (I c + row) = 0) ->
  exists c',
    drawSprite x y height c = Ok tt c' /\
    display c' = display c /\
    V c' = <[15%nat := 0]> (V c) /\ V c' !!! 15%nat = 0 /\
    drawFlag c' = true.
Proof.
  intros Hwf Hx Hy Hh Hzero.
  pose proof (wf_I c Hwf) as HI.
  pose proof (draw_result x y height c HI (proj2 Hx) (proj2 Hy) Hh) as Hd.
  cbv zeta in Hd. unfold is_u16 in HI.
  assert (rows_drawn c height = height) as Eh.
  { unfold rows_drawn. destruct (decide (height = 0)) as [->|Hne]; [lia|].
    destruct (Hzero (height - 1)) as [Hin _]; lia. }
  rewrite Eh, sprite_pixels_blank in Hd by (try done; lia).
  rewrite Z.ltb_irrefl in Hd. cbn [foldl collides] in Hd.
  eexists. split; [exact Hd|]. fields.
  split; [done|]. split; [done|]. split; [|done].
  apply list_lookup_total_insert_eq. rewrite (V_length c Hwf). lia.
Qed.

Lemma blank_sprite_witness :
  (wf blank_example /\
   exists c',
     drawSprite 0 1 15 blank_example = Ok tt c' /\
     display c' = display blank_example /\
     V blank_example !!! 15%nat = 1 /\ V c' !!! 15%nat = 0) /\
  (wf no_rows_example /\ I no_rows_example = 5000 /\
   exists c',
     drawSprite 0 1 0 no_rows_example = Ok tt c' /\
     display c' = display no_rows_example /\
     V no_rows_example !!! 15%nat = 1 /\ V c' !!! 15%nat = 0).
Proof.
  assert (wf blank_example) as Hwf
    by (apply wfb_wf; vm_compute; reflexivity).
  assert (wf no_rows_example) as Hwf0
    by (apply wfb_wf; vm_compute; reflexivity).
  split; (split; [done|]).
  - destruct (blank_sprite 0 1 15 blank_example Hwf)
      as (c' & Hc & Hd & _ & Hf & _); [lia | lia | lia | |].
    + intros row Hrow.
      assert (forallb
                (fun row =>
                   (I blank_example + row <? MemorySize) &&
                   (memory blank_example !!! Z.to_nat (I blank_example + row)
                    =? 0))
                (seqZ 0 15) = true) as Hall by (vm_compute; reflexivity).
      rewrite forallb_forall in Hall.
      assert (In row (seqZ 0 15)) as Hin
        by (apply list_elem_of_In, elem_of_seqZ; lia).
      apply Hall, andb_true_iff in Hin as [H1 H2]. lia.
    + exists c'. split; [exact Hc|]. split; [exact Hd|].
      split; [vm_compute; reflexivity | exact Hf].
  - split; [reflexivity|].
    destruct (blank_sprite 0 1 0 no_rows_example Hwf0)
      as (c' & Hc & Hd & _ & Hf & _); [lia | lia | lia | intros; lia |].
    exists c'. split; [exact Hc|]. split; [exact Hd|].
    split; [vm_compute; reflexivity | exact Hf].
Defined.

(** ** The invariant *)

(** X20: what every reachable state satisfies.  From a new machine, after
    any ROM loads of bytes, key events, reads of the draw flag and cycles
    that return, the frame buffer has 2048 pixels and each is 0 or 1,
    memory has 4096 bytes, the registers and timers are bytes and the
    index register and program counter 16-bit values. *)
Theorem reachable_invariant c :
  reachable c ->
  wf c /\
  length (GetDisplay c) = 2048%nat /\ Forall is_bit (GetDisplay c) /\
  length (memory c) = 4096%nat /\
  0 <= delayTimer c < 256 /\ 0 <= soundTimer c < 256 /\
  0 <= PC c < 65536 /\ 0 <= I c < 65536.
Proof.
  intros Hwf%reachable_wf. split; [done|].
  destruct Hwf. unfold GetDisplay, is_u8, is_u16 in *.
  repeat split; try done; lia.
Qed.

Lemma reachable_invariant_witness :
  reachable key_skip_reached /\ Forall is_bit (GetDisplay key_skip_reached).
Proof.
  assert (reachable key_skip_reached) as Hr.
  { apply (reach_EmulateCycle 0 (snd (LoadROM [0x60; 0x10] New))).
    - apply reach_LoadROM; [|constructor].
      repeat constructor; unfold is_u8; lia.
    - vm_compute. reflexivity. }
  split; [exact Hr|]. apply (reachable_invariant _ Hr).
Defined.

(** ** Cycles that panic *)

Lemma returns_ret {A} (a : A) : returns (ret a).
Proof. intros c. by exists a, c. Qed.

Lemma returns_modify f : returns (modify f).
Proof. intros c. by exists tt, (f c). Qed.

Lemma returns_bind {A B} (m : M A) (k : A -> M B) :
  returns m -> (forall a, returns (k a)) -> returns (bind m k).
Proof.
  intros Hm Hk c. destruct (Hm c) as (a & c' & E).
  rewrite (bind_Ok _ _ _ _ _ E). apply Hk.
Qed.

Lemma faults_keep_returns {A} P (m : M A) : returns m -> faults_keep P m.
Proof. intros Hm c _. by destruct (Hm c) as (a & c' & ->). Qed.

Lemma faults_keep_triple {A} P (m : M A) Q : triple P m Q -> faults_keep P m.
Proof. intros Hm c Hc. specialize (Hm c Hc). by destruct (m c). Qed.

Lemma faults_keep_bind {A B} P (m : M A) (k : A -> M B) :
  triple P m any -> (forall a, faults_keep P (k a)) ->
  faults_keep P (bind m k).
Proof.
  intros Hm Hk c Hc. unfold bind. specialize (Hm c Hc).
  destruct (m c) as [a c'|c']; [|done]. destruct Hm as [Hc' _].
  by apply Hk.
Qed.

Ltac returns_step :=
  lazymatch goal with
  | |- returns (bind _ _) => apply returns_bind; [|intros ?]
  | |- returns (ret _) => apply returns_ret
  | |- returns (modify _) => apply returns_modify
  | |- returns (if ?b then _ else _) => destruct b
  end.

Ltac keep_side := cbv beta; fields; by (done || tauto).

Ltac keep_triple :=
  lazymatch goal with
  | |- triple _ (bind _ _) _ =>
      eapply (triple_bind _ _ _ any); [|intros ? _]
  | |- triple _ (ret _) _ => by apply triple_ret
  | |- triple _ (gets _) _ => by apply triple_gets
  | |- triple _ (at_index _ _ _) _ => by apply triple_at_index
  | |- triple _ (modify _) _ => apply triple_modify; intros ? ?; keep_side
  | |- triple _ (assign_index _ _ _ _ _) _ =>
      apply triple_assign_index; intros ? ? _; keep_side
  | |- triple _ (for_each _ _) _ => apply triple_for_each; intros ? _
  | |- triple _ (scan_keys _ _) _ =>
      apply triple_scan_keys; intros ?; unfold V_assign
  | |- triple _ (if ?b then _ else _) _ => destruct b
  end.

Ltac keep_step :=
  first
    [ solve [apply faults_keep_returns; repeat returns_step]
    | lazymatch goal with
      | |- faults_keep _ (bind _ _) =>
          apply faults_keep_bind; [solve [repeat keep_triple]|intros ?]
      | |- faults_keep _ (if ?b then _ else _) => destruct b
      end ].

Lemma executeOpcode_fault rnd opcode c c' :
  executeOpcode rnd opcode c = Panic c' ->
  PC c' = PC c /\ delayTimer c' = delayTimer c /\
  soundTimer c' = soundTimer c.
Proof.
  intros He.
  pose (P := fun s => PC s = PC c /\ delayTimer s = delayTimer c /\
                      soundTimer s = soundTimer c).
  assert (faults_keep P (executeOpcode rnd opcode)) as Hk.
  { subst P. unfold executeOpcode, drawSprite. cbv zeta. unfold_ops.
    unfold advance.
    repeat case_match; repeat keep_step. }
  specialize (Hk c (conj eq_refl (conj eq_refl eq_refl))).
  by rewrite He in Hk.
Qed.

(** X21: cycles that panic.  A cycle that panics, in the fetch or in the
    operation, has not moved the program counter, which still points at
    the faulting instruction, and has ticked neither timer: the panic
    unwinds [EmulateCycle] before the timer update, and every operation
    writes the program counter and the timers only after its last array
    access. *)
Theorem faulting_cycle rnd c c' :
  EmulateCycle rnd c = Panic c' ->
  PC c' = PC c /\ delayTimer c' = delayTimer c /\
  soundTimer c' = soundTimer c.
Proof.
  unfold EmulateCycle. unfold bind at 1.
  destruct (fetch c) as [opcode c0|c0] eqn:Hf.
  - destruct (fetch_Ok _ _ _ Hf) as (-> & _).
    unfold bind at 1.
    destruct (executeOpcode rnd opcode c) as [[] c1|c1] eqn:He.
    + by rewrite update_timers_eq.
    + intros [= <-]. by apply (executeOpcode_fault rnd opcode).
  - intros [= <-]. pose proof (fetch_final c) as E. rewrite Hf in E.
    cbn [final] in E. by rewrite E.
Qed.

Lemma faulting_cycle_witness :
  exists c',
    EmulateCycle 0 sprite_fault_example = Panic c' /\
    PC c' = 0x200 /\ delayTimer c' = 9 /\ soundTimer c' = 7.
Proof.
  assert (exists c', EmulateCycle 0 sprite_fault_example = Panic c')
    as [c' Hc] by (eexists; vm_compute; reflexivity).
  exists c'. split; [exact Hc|].
  exact (faulting_cycle 0 sprite_fault_example c' Hc).
Defined.

(** ** The draw flag *)

Lemma bind_Ok_inv {A B} (m : M A) (k : A -> M B) c b c' :
  bind m k c = Ok b c' -> exists a c1, m c = Ok a c1 /\ k a c1 = Ok b c'.
Proof.
  unfold bind. destruct (m c) as [a c1|c1]; [|done]. intros H.
  by exists a, c1.
Qed.

Lemma drawSprite_raises x y height c c' :
  drawSprite x y height c = Ok tt c' -> drawFlag c' = true.
Proof.
  unfold drawSprite. cbv zeta. intros H.
  apply bind_Ok_inv in H as (_ & c1 & _ & H).
  apply bind_Ok_inv in H as (vx & c2 & _ & H).
  apply bind_Ok_inv in H as (vy & c3 & _ & H).
  apply bind_Ok_inv in H as (_ & c4 & _ & H).
  by injection H as <-.
Qed.

Lemma executeOpcode_draws rnd opcode c c' :
  is_draw opcode = true -> executeOpcode rnd opcode c = Ok tt c' ->
  drawFlag c' = true.
Proof.
  unfold is_draw. intros [Hd|Hc]%orb_true_iff.
  - apply Z.eqb_eq in Hd. unfold executeOpcode. rewrite Hd. cbv zeta iota.
    intros H. apply bind_Ok_inv in H as ([] & c1 & H1 & H).
    apply drawSprite_raises in H1. by injection H as <-.
  - apply Z.eqb_eq in Hc. subst opcode. rewrite exec_00E0.
    by intros [= <-].
Qed.

Lemma executeOpcode_no_draw rnd opcode c c' :
  is_draw opcode = false -> executeOpcode rnd opcode c = Ok tt c' ->
  drawFlag c' = drawFlag c /\ display c' = display c.
Proof.
  intros Hd He.
  pose (P := fun s => drawFlag s = drawFlag c /\ display s = display c).
  assert (triple P (executeOpcode rnd opcode) any) as Ht.
  { apply executeOpcode_footprint; try done; (by left) || (by right). }
  specialize (Ht c (conj eq_refl eq_refl)). rewrite He in Ht. apply Ht.
Qed.

(** X22: the draw flag between two reads.  The flag read after a cycle is
    raised when the cycle ran a draw [Dxyn] or a clear [00E0], whether or
    not a pixel changed, and is otherwise what it was before the cycle;
    the read lowers it and changes nothing else.  So once the flag has been
    read, the next read after one more cycle tells exactly whether that
    cycle was a draw or a clear, and a cycle that is neither leaves the
    frame buffer as it was. *)
Theorem draw_flag_between_reads rnd opcode c c1 :
  fetch c = Ok opcode c -> EmulateCycle rnd c = Ok tt c1 ->
  fst (DrawFlag c1) = is_draw opcode || drawFlag c /\
  (is_draw opcode = false -> GetDisplay c1 = GetDisplay c) /\
  let c2 := snd (DrawFlag c1) in
  c2 = set_drawFlag false c1 /\
  forall rnd' opcode' c3,
    fetch c2 = Ok opcode' c2 -> EmulateCycle rnd' c2 = Ok tt c3 ->
    fst (DrawFlag c3) = is_draw opcode'.
Proof.
  assert (forall r o s s',
            fetch s = Ok o s -> EmulateCycle r s = Ok tt s' ->
            drawFlag s' = is_draw o || drawFlag s /\
            (is_draw o = false -> display s' = display s)) as Hcycle.
  { intros r o s s' Hf Hc.
    destruct (EmulateCycle_inv _ _ _ Hc) as (o' & s1 & Hf' & He & ->).
    rewrite Hf in Hf'. injection Hf' as <-.
    unfold ticked. fields.
    destruct (is_draw o) eqn:Hd.
    - split; [|done]. by apply (executeOpcode_draws r o s).
    - destruct (executeOpcode_no_draw r o s s1 Hd He) as [Hfl Hdi].
      by split. }
  intros Hf Hc. destruct (Hcycle _ _ _ _ Hf Hc) as [Hfl Hdi].
  unfold DrawFlag, GetDisplay. cbn [fst snd].
  split; [exact Hfl|]. split; [exact Hdi|]. split; [done|].
  intros rnd' opcode' c3 Hf' Hc'.
  destruct (Hcycle _ _ _ _ Hf' Hc') as [Hfl' _].
  rewrite Hfl'. fields. apply orb_false_r.
Qed.

Lemma draw_flag_between_reads_witness :
  exists c1,
    EmulateCycle 0 blank_example = Ok tt c1 /\
    fst (DrawFlag c1) = true /\
    snd (DrawFlag c1) = set_drawFlag false c1.
Proof.
  assert (exists c1, EmulateCycle 0 blank_example = Ok tt c1)
    as [c1 Hc] by (eexists; vm_compute; reflexivity).
  assert (fetch blank_example = Ok 0xD01F blank_example) as Hf
    by (vm_compute; reflexivity).
  destruct (draw_flag_between_reads 0 0xD01F blank_example c1 Hf Hc)
    as (Hfl & _ & Hc2 & _).
  exists c1. split; [exact Hc|]. split; [exact Hfl|exact Hc2].
Defined.

(** ** Runs of cycles *)

Lemma countdown_decrement n t :
  0 <= n -> 0 <= t < 256 -> countdown n (decrement t) = countdown (n + 1) t.
Proof.
  intros Hn Ht. unfold countdown, decrement, u8.
  destruct (t >? 0) eqn:E; [rewrite Z.mod_small by lia|]; lia.
Qed.

Lemma spin_cycle rnd opcode c :
  fetch c = Ok opcode c -> Z.land opcode 0xF000 = 0x1000 ->
  field_nnn opcode = PC c ->
  EmulateCycle rnd c = Ok tt (ticked c).
Proof.
  intros Hf H1 Hn.
  rewrite (EmulateCycle_Ok rnd opcode c (set_PC (PC c) c) Hf)
    by (by rewrite exec_1nnn, Hn).
  by destruct c.
Qed.

(** X23: a jump to itself.  When the instruction at [PC] is [1nnn] with
    [nnn = PC], any number [k] of cycles return and leave the machine
    where it was, but for the two timers, which have counted down by [k]
    and stopped at 0. *)
Theorem jump_to_self rnds opcode c :
  wf c -> fetch c = Ok opcode c ->
  Z.land opcode 0xF000 = 0x1000 -> field_nnn opcode = PC c ->
  let k := Z.of_nat (length rnds) in
  steps rnds c =
    Ok tt (set_soundTimer (countdown k (soundTimer c))
             (set_delayTimer (countdown k (delayTimer c)) c)).
Proof.
  intros Hwf Hf H1 Hn. revert c Hwf Hf Hn.
  induction rnds as [|rnd rnds IH]; intros c Hwf Hf Hn k.
  - subst k. unfold steps, countdown. cbn [length for_each ret Z.of_nat].
    pose proof (wf_delayTimer c Hwf) as Hd.
    pose proof (wf_soundTimer c Hwf) as Hs. unfold is_u8 in *.
    rewrite !Z.sub_0_r, !Z.max_r by lia. by destruct c.
  - pose proof (wf_delayTimer c Hwf) as Hd.
    pose proof (wf_soundTimer c Hwf) as Hs. unfold is_u8 in *.
    pose proof (spin_cycle rnd opcode c Hf H1 Hn) as Hc.
    assert (wf (ticked c)) as Hwf'.
    { pose proof (EmulateCycle_wf rnd c Hwf) as H. rewrite Hc in H.
      apply H. }
    unfold steps in *. cbn [for_each]. rewrite (bind_Ok _ _ _ _ _ Hc).
    rewrite (IH (ticked c) Hwf'); [| by apply (fetch_ext c) | done].
    unfold ticked. fields.
    rewrite !countdown_decrement by lia.
    subst k. rewrite length_cons, Nat2Z.inj_succ, <- Z.add_1_r.
    by destruct c.
Qed.

Lemma jump_to_self_witness :
  wf spin_example /\
  steps [0; 0] spin_example =
    Ok tt (set_soundTimer 1 (set_delayTimer 0 spin_example)).
Proof.
  assert (wf spin_example) as Hwf by (apply wfb_wf; vm_compute; reflexivity).
  split; [exact Hwf|].
  apply (jump_to_self [0; 0] 0x1200 spin_example Hwf);
    vm_compute; reflexivity.
Defined.
